(** * uVisor vMPU for ARMv8-M: region lookup, fault dispatch, box switch, SRAM layout

    A shallow embedding of [core/vmpu/src/mpu_armv8m/vmpu_armv8m.c].
    32-bit unsigned values are integers of [Z] with the wrap-around of the C
    arithmetic written out ([wrap32]); global variables and the hardware
    registers the code touches are fields of one supervisor state that every
    entry point threads through. *)

From Stdlib Require Import ZArith List String Bool Lia.
From stdpp Require Import base list.
Import ListNotations.

Local Open Scope Z_scope.

(** ** 32-bit unsigned arithmetic *)

Definition wrap32 (z : Z) : Z := z mod 2 ^ 32.

(** [UVISOR_ROUND32(x)] of [uvisor-lib.h]: [(((x)+31UL) & ~0x1FUL)]. *)
Definition UVISOR_ROUND32 (x : Z) : Z :=
  Z.land (wrap32 (x + 31)) (wrap32 (Z.lnot 31)).

(** ** Platform constants and macros

    The file includes [uvisor.h], [vmpu.h], [vmpu_mpu.h], [exc_return.h] and
    the CMSIS device header; none of them is part of the sources at hand.
    Every constant and macro the C file takes from them is a field here, so
    that the functions below are the code of [vmpu_armv8m.c] for whatever
    values the headers give. *)

Class Platform := {
  (* (uint32_t) &SCB->SCR *)
  SCB_SCR : Z;
  UVISOR_TACL_UREAD : Z;
  UVISOR_TACL_UWRITE : Z;
  UVISOR_TACLDEF_STACK : Z;
  UVISOR_TACLDEF_DATA : Z;
  VMPU_PERIPH_BITBAND_START : Z;
  VMPU_PERIPH_BITBAND_END : Z;
  VMPU_SRAM_BITBAND_START : Z;
  VMPU_SRAM_BITBAND_END : Z;
  VMPU_PERIPH_BITBAND_ALIAS_TO_ADDR : Z -> Z;
  VMPU_SRAM_BITBAND_ALIAS_TO_ADDR : Z -> Z;
  UVISOR_REGION_ROUND_UP : Z -> Z;
  UVISOR_MIN_STACK : Z -> Z;
  UVISOR_STACK_BAND_SIZE : Z;
  (* (uint32_t) __uvisor_config.bss_boxes_start *)
  bss_boxes_start : Z;
  ARMv8M_SAU_REGIONS_STATIC : nat;
  ARMv8M_SAU_REGIONS_MAX : nat;
  NVIC_OFFSET : Z;
  NonMaskableInt_IRQn : Z;
  HardFault_IRQn : Z;
  MemoryManagement_IRQn : Z;
  BusFault_IRQn : Z;
  UsageFault_IRQn : Z;
  SecureFault_IRQn : Z;
  SVCall_IRQn : Z;
  DebugMonitor_IRQn : Z;
  PendSV_IRQn : Z;
  SysTick_IRQn : Z;
  SAU_SFSR_AUVIOL_Pos : Z;
  SAU_SFSR_SFARVALID_Pos : Z;
  EXC_FROM_S : Z -> bool;
  EXC_FROM_NP : Z -> bool;
  EXC_FROM_PSP : Z -> bool
}.

(** ** Data model *)

(** [MpuRegion]: the half-open interval [[start, end)] with the hardware
    configuration word and the ACL word. *)
Record MpuRegion := {
  start : Z;
  end_ : Z;
  config : Z;
  acl : Z
}.

(** An active page of the page allocator. *)
Record Page := {
  page_start : Z;
  page_end : Z;
  page_id : Z
}.

(** The error codes given to [HALT_ERROR] and [DEBUG_FAULT]. *)
Inductive THaltError :=
| PERMISSION_DENIED
| NOT_IMPLEMENTED
| NOT_ALLOWED
| FAULT_MEMMANAGE
| FAULT_BUS
| FAULT_USAGE
| FAULT_HARD
| FAULT_DEBUG
| FAULT_SECURE.

(** What one [DEBUG_FAULT(fault, lr, sp)] logs. *)
Record FaultDescriptor := {
  fd_fault : THaltError;
  fd_lr : Z;
  fd_sp : Z
}.

(** The MPU slot cache (component C): the slots with what they hold, the
    round-robin cursor ([g_mpu_slot], as the comment in [vmpu_switch] calls
    it), and whether the cursor has wrapped in the current batch of
    pushes. *)
Record SlotCache := {
  g_mpu_slots : list (option (MpuRegion * Z));
  g_mpu_slot : nat;
  g_mpu_wrapped : bool
}.

(** The page allocator, as far as this file consumes it. *)
Record PageHeap := {
  active_pages : list Page;
  page_faults : list Z
}.

(** The registers and memory the exception handler reads. *)
Record Cpu := {
  IPSR : Z;
  PSP : Z;
  MSP_NS : Z;
  PSP_NS : Z;
  SFSR : Z;
  SFAR : Z;
  unpriv_mem : Z -> Z
}.

Record State := {
  g_active_box : Z;
  g_mpu_region : list (Z * MpuRegion);
  g_box_mem_pos : Z;
  cache : SlotCache;
  heap : PageHeap;
  cpu : Cpu;
  debug_log : list FaultDescriptor
}.

Definition set_cache (c : SlotCache) (st : State) : State :=
  {| g_active_box := g_active_box st; g_mpu_region := g_mpu_region st;
     g_box_mem_pos := g_box_mem_pos st; cache := c; heap := heap st;
     cpu := cpu st; debug_log := debug_log st |}.

Definition set_heap (h : PageHeap) (st : State) : State :=
  {| g_active_box := g_active_box st; g_mpu_region := g_mpu_region st;
     g_box_mem_pos := g_box_mem_pos st; cache := cache st; heap := h;
     cpu := cpu st; debug_log := debug_log st |}.

Definition set_cpu (c : Cpu) (st : State) : State :=
  {| g_active_box := g_active_box st; g_mpu_region := g_mpu_region st;
     g_box_mem_pos := g_box_mem_pos st; cache := cache st; heap := heap st;
     cpu := c; debug_log := debug_log st |}.

Definition set_debug_log (l : list FaultDescriptor) (st : State) : State :=
  {| g_active_box := g_active_box st; g_mpu_region := g_mpu_region st;
     g_box_mem_pos := g_box_mem_pos st; cache := cache st; heap := heap st;
     cpu := cpu st; debug_log := l |}.

Definition set_g_mpu_region (l : list (Z * MpuRegion)) (st : State) : State :=
  {| g_active_box := g_active_box st; g_mpu_region := l;
     g_box_mem_pos := g_box_mem_pos st; cache := cache st; heap := heap st;
     cpu := cpu st; debug_log := debug_log st |}.

Definition set_g_box_mem_pos (p : Z) (st : State) : State :=
  {| g_active_box := g_active_box st; g_mpu_region := g_mpu_region st;
     g_box_mem_pos := p; cache := cache st; heap := heap st;
     cpu := cpu st; debug_log := debug_log st |}.

(** ** Region table (component B) *)

(** [a] lies in [[start, end)] of [r]. *)
Definition covers (r : MpuRegion) (a : Z) : Prop := start r <= a < end_ r.

Definition coversb (r : MpuRegion) (a : Z) : bool :=
  (start r <=? a) && (a <? end_ r).

(** Modelled from the spec: [vmpu_region_get_for_box] is declared in
    [vmpu_mpu.h] and defined outside this file. Section 4.B: it returns the
    ordered region slice of the box. The static regions are kept in the order
    they were added, each with the box that owns it. *)
Definition vmpu_region_get_for_box (st : State) (box_id : Z) : list MpuRegion :=
  map snd (List.filter (fun e => fst e =? box_id) (g_mpu_region st)).

(** Modelled from the spec: [vmpu_region_find_for_address] is declared in
    [vmpu_mpu.h] and defined outside this file. Section 4.B: a linear scan of
    the box's static regions returning the first covering entry, or "not
    found". *)
Definition vmpu_region_find_for_address (st : State) (box_id : Z) (address : Z)
  : option MpuRegion :=
  List.find (fun r => coversb r address) (vmpu_region_get_for_box st box_id).

(** Modelled from the spec: [vmpu_region_add_static_acl] is declared in
    [vmpu_mpu.h] and defined outside this file. Section 4.H: it records a
    region at [start .. start + size) with the given ACL for the box. *)
Definition vmpu_region_add_static_acl (box_id start_addr size acl_word hw_config : Z)
  (st : State) : State :=
  set_g_mpu_region
    (g_mpu_region st ++
       [(box_id, {| start := start_addr; end_ := wrap32 (start_addr + size);
                    config := hw_config; acl := acl_word |})]) st.

(** ** Results of code that may halt the core *)

(** A handler either returns a value or halts the core: [HALT_ERROR] does not
    return. *)
Inductive Result (A : Type) :=
| Returned (a : A) (st : State)
| Halted (reason : THaltError) (msg : string) (st : State).

Arguments Returned {A} a st.
Arguments Halted {A} reason msg st.

Definition M (A : Type) : Type := State -> Result A.

Definition ret {A} (a : A) : M A := fun st => Returned a st.

Definition bind {A B} (m : M A) (k : A -> M B) : M B :=
  fun st =>
    match m st with
    | Returned a st' => k a st'
    | Halted reason msg st' => Halted reason msg st'
    end.

Notation "m ;;; k" := (bind m (fun _ => k))
  (at level 100, k at level 200, right associativity).

Section Vmpu.

Context {P : Platform}.

(** ** Fault lookup *)

Definition vmpu_fault_find_region (st : State) (fault_addr : Z) : option MpuRegion :=
  (* Check current box if not base. *)
  match (if g_active_box st =? 0 then None
         else vmpu_region_find_for_address st (g_active_box st) fault_addr) with
  | Some region => Some region
  | None =>
      (* Check base-box. *)
      match vmpu_region_find_for_address st 0 fault_addr with
      | Some region => Some region
      | None => None
      end
  end.

(** The address the lookup of [vmpu_fault_find_acl] uses: the physical address
    behind a bit-band alias, the address itself elsewhere. *)
Definition bitband_translate (fault_addr : Z) : Z :=
  if (VMPU_PERIPH_BITBAND_START <=? fault_addr) && (fault_addr <=? VMPU_PERIPH_BITBAND_END)
  then VMPU_PERIPH_BITBAND_ALIAS_TO_ADDR fault_addr
  else if (VMPU_SRAM_BITBAND_START <=? fault_addr) && (fault_addr <=? VMPU_SRAM_BITBAND_END)
  then VMPU_SRAM_BITBAND_ALIAS_TO_ADDR fault_addr
  else fault_addr.

Definition vmpu_fault_find_acl (st : State) (fault_addr size : Z) : Z :=
  if fault_addr =? SCB_SCR then Z.lor UVISOR_TACL_UWRITE UVISOR_TACL_UREAD
  else
    (* Translate fault_addr into its physical address if it is in the
       bit-banding region. *)
    let fault_addr := bitband_translate fault_addr in
    (* Search base box and active box ACLs. *)
    match vmpu_fault_find_region st fault_addr with
    | None => 0
    | Some region =>
        (* Ensure that data fits in selected region. *)
        if wrap32 (fault_addr + size) >? end_ region then 0
        else acl region
    end.

(** ** MPU slot cache (component C) *)

(** Modelled from the spec: [vmpu_mpu_invalidate] is declared in [vmpu_mpu.h]
    and defined outside this file. Section 4.C: it clears all dynamic slots
    (slots [S_static .. K)); the static slots stay. Where the pushes after it
    go is said by its caller: the push that follows it in [vmpu_switch] goes
    "into ARMv8M_SAU_REGIONS_STATIC", says the comment there, which is the
    number of the first dynamic slot, and P4 and scenario S6 give the slots
    a switch leaves whatever was pushed before it. So the round-robin cursor
    [g_mpu_slot] is back on the first dynamic slot, and the pushes from
    there on are the batch in which [vmpu_mpu_push] counts the wrap-around
    of the cursor. *)
Definition vmpu_mpu_invalidate (st : State) : State :=
  let c := cache st in
  set_cache
    {| g_mpu_slots :=
         take ARMv8M_SAU_REGIONS_STATIC (g_mpu_slots c) ++
         replicate (length (g_mpu_slots c) - ARMv8M_SAU_REGIONS_STATIC)%nat None;
       g_mpu_slot := ARMv8M_SAU_REGIONS_STATIC;
       g_mpu_wrapped := false |} st.

(** Modelled from the spec: [vmpu_mpu_push] is declared in [vmpu_mpu.h] and
    defined outside this file. Section 4.C: it writes (a copy of) the region
    into the next dynamic slot and advances the round-robin cursor, which goes
    back to the first dynamic slot after the last one. It returns false iff the
    cursor has wrapped once already during the current batch, and true
    otherwise, also on the push that wraps. The priority is stored with the
    region and decides nothing. *)
Definition vmpu_mpu_push (region : MpuRegion) (priority : Z) (st : State) : bool * State :=
  let c := cache st in
  let next := S (g_mpu_slot c) in
  let wraps := (ARMv8M_SAU_REGIONS_MAX <=? next)%nat in
  (negb (g_mpu_wrapped c),
   set_cache
     {| g_mpu_slots := <[g_mpu_slot c := Some (region, priority)]> (g_mpu_slots c);
        g_mpu_slot := if wraps then ARMv8M_SAU_REGIONS_STATIC else next;
        g_mpu_wrapped := g_mpu_wrapped c || wraps |} st).

(** ** Page-heap adapter (component D) *)

(** Modelled from the spec: [page_allocator_get_active_region_for_address] is
    declared in [page_allocator_faults.h] and defined outside this file.
    Section 4.D: it answers with the start, end and id of the active page the
    address belongs to, or that the address is not in an active page
    ([None] here, any result but [UVISOR_ERROR_PAGE_OK] in C). *)
Definition page_allocator_get_active_region_for_address (st : State) (address : Z)
  : option (Z * Z * Z) :=
  match List.find (fun p => (page_start p <=? address) && (address <? page_end p))
             (active_pages (heap st)) with
  | Some p => Some (page_start p, page_end p, page_id p)
  | None => None
  end.

(** Modelled from the spec: [page_allocator_register_fault] is declared in
    [page_allocator_faults.h] and defined outside this file. Section 4.D: it
    reports the fault on the page to the allocator. *)
Definition page_allocator_register_fault (page : Z) (st : State) : State :=
  set_heap {| active_pages := active_pages (heap st);
              page_faults := page_faults (heap st) ++ [page] |} st.

(** Modelled from the spec: [page_allocator_iterate_active_pages] is declared
    in [page_allocator_faults.h] and defined outside this file. Section 4.D:
    it calls the visitor on every active page, here in forward direction. The
    visitor's result says whether to go on ("We only continue if we have not
    wrapped around the end of the MPU regions yet", says the visitor of this
    file). *)
Fixpoint iterate_pages (callback : Z -> Z -> Z -> State -> Z * State)
  (pages : list Page) (st : State) : State :=
  match pages with
  | [] => st
  | p :: rest =>
      let '(go_on, st') := callback (page_start p) (page_end p) (page_id p) st in
      if go_on =? 0 then st' else iterate_pages callback rest st'
  end.

Definition page_allocator_iterate_active_pages
  (callback : Z -> Z -> Z -> State -> Z * State) (st : State) : State :=
  iterate_pages callback (active_pages (heap st)) st.

Definition vmpu_mem_push_page_acl_iterator (start_addr end_addr page : Z) (st : State)
  : Z * State :=
  let region := {| start := start_addr; end_ := end_addr; config := 1; acl := 0 |} in
  (* We only continue if we have not wrapped around the end of the MPU
     regions yet. *)
  let '(ok, st') := vmpu_mpu_push region 100 st in
  (Z.b2z ok, st').

(** ** Fault recovery (component E) *)

Definition vmpu_fault_recovery_mpu (pc sp fault_addr fault_status : Z) (st : State)
  : Z * State :=
  match page_allocator_get_active_region_for_address st fault_addr with
  | Some (start_addr, end_addr, page) =>
      (* Remember this fault. *)
      let st := page_allocator_register_fault page st in
      let '(_, st) :=
        vmpu_mem_push_page_acl_iterator start_addr end_addr (g_active_box st) st in
      (1, st)
  | None =>
      (* Find region for faulting address. *)
      match vmpu_fault_find_region st fault_addr with
      | None => (0, st)
      | Some region =>
          let '(_, st) := vmpu_mpu_push region 3 st in
          (1, st)
      end
  end.

(** ** Exception dispatcher (component F) *)

(** Modelled from the spec: [HALT_ERROR] is a macro of [halt.h], not part of
    the sources at hand. Section 6: a fatal path never returns, the halt
    routine dumps the error code and stops the core. *)
Definition HALT_ERROR {A} (reason : THaltError) (msg : string) : M A :=
  fun st => Halted reason msg st.

(** Modelled from the spec: [DEBUG_FAULT] is a macro of [debug.h], not part of
    the sources at hand. Section 4.F: it logs a fault descriptor. *)
Definition DEBUG_FAULT (fault : THaltError) (lr sp : Z) : M unit :=
  fun st =>
    Returned tt
      (set_debug_log
         (debug_log st ++ [{| fd_fault := fault; fd_lr := lr; fd_sp := sp |}]) st).

(** CMSIS: [#define SAU_SFSR_X_Msk (1UL << SAU_SFSR_X_Pos)]. *)
Definition SAU_SFSR_AUVIOL_Msk : Z := Z.shiftl 1 SAU_SFSR_AUVIOL_Pos.
Definition SAU_SFSR_SFARVALID_Msk : Z := Z.shiftl 1 SAU_SFSR_SFARVALID_Pos.

(** Modelled from the spec: the effect of the store [SAU->SFSR = v] is the
    hardware's, not part of the sources at hand. Section 4.F calls the store
    of the status just read "clear SFSR": the bits of SFSR are cleared by
    writing one to them. *)
Definition SAU_write_SFSR (v : Z) (st : State) : State :=
  let c := cpu st in
  set_cpu {| IPSR := IPSR c; PSP := PSP c; MSP_NS := MSP_NS c; PSP_NS := PSP_NS c;
             SFSR := Z.land (SFSR c) (Z.lnot v); SFAR := SFAR c;
             unpriv_mem := unpriv_mem c |} st.

(** Modelled from the spec: [vmpu_unpriv_uint32_read] is defined outside this
    file. Section 4.A: the unprivileged load of a word of the stacked frame. *)
Definition vmpu_unpriv_uint32_read (st : State) (addr : Z) : Z :=
  unpriv_mem (cpu st) (wrap32 addr).

(** The exception id: [((int) (__get_IPSR() & 0x1FF)) - NVIC_OFFSET]. *)
Definition exception_id (st : State) : Z :=
  Z.land (IPSR (cpu st)) 511 - NVIC_OFFSET.

(** The stack pointer of the interrupted context. *)
Definition exception_sp (lr msp_s : Z) (st : State) : Z :=
  let from_s := EXC_FROM_S lr in
  let from_np := EXC_FROM_NP lr in
  let from_psp := EXC_FROM_PSP lr in
  if from_s
  then (if from_np then (if from_psp then PSP (cpu st) else msp_s) else msp_s)
  else (if from_np then (if from_psp then PSP_NS (cpu st) else MSP_NS (cpu st))
        else MSP_NS (cpu st)).

Definition secure_fault_case (lr sp : Z) : M Z :=
  fun st =>
    let fault_status := SFSR (cpu st) in
    let denied : M Z :=
      DEBUG_FAULT FAULT_SECURE lr sp ;;;
      HALT_ERROR PERMISSION_DENIED "Cannot recover from a secure fault." in
    if Z.land fault_status (Z.lor SAU_SFSR_AUVIOL_Msk SAU_SFSR_SFARVALID_Msk)
       =? Z.lor SAU_SFSR_AUVIOL_Msk SAU_SFSR_SFARVALID_Msk
    then
      let pc := vmpu_unpriv_uint32_read st (sp + 6 * 4) in
      let fault_addr := SFAR (cpu st) in
      let '(recovered, st') := vmpu_fault_recovery_mpu pc sp fault_addr fault_status st in
      if recovered =? 0 then denied st'
      else Returned lr (SAU_write_SFSR fault_status st')
    else denied st.

Definition vmpu_sys_mux_handler (lr msp_s : Z) : M Z :=
  fun st =>
    let ipsr := exception_id st in
    let sp := exception_sp lr msp_s st in
    if ipsr =? NonMaskableInt_IRQn then
      HALT_ERROR NOT_IMPLEMENTED "No NonMaskableInt IRQ handler registered." st
    else if ipsr =? HardFault_IRQn then
      (DEBUG_FAULT FAULT_HARD lr sp ;;;
       HALT_ERROR FAULT_HARD "Cannot recover from a hard fault.") st
    else if ipsr =? MemoryManagement_IRQn then
      (DEBUG_FAULT FAULT_MEMMANAGE lr sp ;;;
       HALT_ERROR FAULT_MEMMANAGE "Cannot recover from a memory management fault.") st
    else if ipsr =? BusFault_IRQn then
      (DEBUG_FAULT FAULT_BUS lr sp ;;;
       HALT_ERROR FAULT_BUS "Cannot recover from a bus fault.") st
    else if ipsr =? UsageFault_IRQn then
      (DEBUG_FAULT FAULT_USAGE lr sp ;;;
       HALT_ERROR FAULT_USAGE "Cannot recover from a usage fault.") st
    else if ipsr =? SecureFault_IRQn then
      secure_fault_case lr sp st
    else if ipsr =? SVCall_IRQn then
      HALT_ERROR NOT_IMPLEMENTED "No SVCall IRQ handler registered." st
    else if ipsr =? DebugMonitor_IRQn then
      (DEBUG_FAULT FAULT_DEBUG lr sp ;;;
       HALT_ERROR FAULT_DEBUG "Cannot recover from a DebugMonitor fault.") st
    else if ipsr =? PendSV_IRQn then
      HALT_ERROR NOT_IMPLEMENTED "No PendSV IRQ handler registered." st
    else if ipsr =? SysTick_IRQn then
      HALT_ERROR NOT_IMPLEMENTED "No SysTick IRQ handler registered." st
    else
      HALT_ERROR NOT_ALLOWED "Active IRQn (%i) is not a system interrupt." st.

(** The case labels of a C [switch] are pairwise distinct. *)
Definition irqn_labels : list Z :=
  [NonMaskableInt_IRQn; HardFault_IRQn; MemoryManagement_IRQn; BusFault_IRQn;
   UsageFault_IRQn; SecureFault_IRQn; SVCall_IRQn; DebugMonitor_IRQn;
   PendSV_IRQn; SysTick_IRQn].

(** ** Box switch (component G) *)

(** [while (dst_count-- && vmpu_mpu_push(region++, priority));] over the
    regions [region[0 .. dst_count)]. *)
Fixpoint push_regions (regions : list MpuRegion) (priority : Z) (st : State) : State :=
  match regions with
  | [] => st
  | r :: rest =>
      let '(ok, st') := vmpu_mpu_push r priority st in
      if ok then push_regions rest priority st' else st'
  end.

(** [None] stands for the undefined run on a secure box without regions,
    where the code pushes [region[0]] of an empty slice and counts
    [dst_count] down from zero. *)
Definition vmpu_switch (src_box dst_box : Z) (st : State) : option State :=
  let st := vmpu_mpu_invalidate st in
  (* Only write stack and context ACL for secure boxes. *)
  let first :=
    if dst_box =? 0 then Some ([], st)
    else
      (* Update target box first to make target stack available. *)
      match vmpu_region_get_for_box st dst_box with
      | [] => None
      | region :: rest =>
          (* Push the stack and context protection ACL into
             ARMv8M_SAU_REGIONS_STATIC. *)
          Some (rest, snd (vmpu_mpu_push region 255 st))
      end in
  match first with
  | None => None
  | Some (rest, st) =>
      (* Push one ACL for the page heap into place. *)
      let st := page_allocator_iterate_active_pages vmpu_mem_push_page_acl_iterator st in
      (* g_mpu_slot may now have been incremented by one, if page heap is used
         by this box. *)
      let st := push_regions rest 2 st in
      if dst_box =? 0 then
        (* Handle public box ACLs last. *)
        Some (push_regions (vmpu_region_get_for_box st 0) 1 st)
      else Some st
  end.

(** ** SRAM layout (component H) *)

(** The results are [(bss_start, stack_pointer)]; [None] stands for the failed
    [assert(bss_size != 0)]. *)
Definition vmpu_acl_sram (box_id bss_size stack_size : Z) (st : State)
  : option (Z * Z * State) :=
  let st :=
    if g_box_mem_pos st =? 0 then
      (* Initialize box memories. Leave stack-band sized gap. *)
      set_g_box_mem_pos
        (wrap32 (wrap32 (UVISOR_REGION_ROUND_UP bss_boxes_start) + UVISOR_STACK_BAND_SIZE)) st
    else st in
  (* Ensure stack & context alignment. *)
  let stack_size := wrap32 (UVISOR_REGION_ROUND_UP (UVISOR_MIN_STACK stack_size)) in
  (* Add stack ACL. *)
  let st :=
    vmpu_region_add_static_acl box_id (g_box_mem_pos st) stack_size UVISOR_TACLDEF_STACK 0 st in
  (* Set stack pointer to box stack size minus guard band. *)
  let st := set_g_box_mem_pos (wrap32 (g_box_mem_pos st + stack_size)) st in
  let stack_pointer := g_box_mem_pos st in
  (* Add stack protection band. *)
  let st := set_g_box_mem_pos (wrap32 (g_box_mem_pos st + UVISOR_STACK_BAND_SIZE)) st in
  (* Add context ACL. *)
  if bss_size =? 0 then None
  else
    let bss_size := wrap32 (UVISOR_REGION_ROUND_UP bss_size) in
    let bss_start := g_box_mem_pos st in
    let st :=
      vmpu_region_add_static_acl box_id (g_box_mem_pos st) bss_size UVISOR_TACLDEF_DATA 0 st in
    let st :=
      set_g_box_mem_pos
        (wrap32 (g_box_mem_pos st + wrap32 (bss_size + UVISOR_STACK_BAND_SIZE))) st in
    Some (bss_start, stack_pointer, st).

(** Consecutive calls [(box_id, bss_size, stack_size)], with the results of
    each and the state it leaves. *)
Fixpoint acl_sram_calls (calls : list (Z * Z * Z)) (st : State)
  : option (list (Z * Z * State)) :=
  match calls with
  | [] => Some []
  | (box_id, bss_size, stack_size) :: rest =>
      match vmpu_acl_sram box_id bss_size stack_size st with
      | None => None
      | Some (bss_start, stack_pointer, st') =>
          match acl_sram_calls rest st' with
          | None => None
          | Some results => Some ((bss_start, stack_pointer, st') :: results)
          end
      end
  end.

End Vmpu.

(** ** Invariant I1 and the properties of the lookup as the specification words them *)

(** I1: the region intervals within a single box are disjoint. *)
Definition regions_disjoint (l : list MpuRegion) : Prop :=
  forall (i j : nat) (ri rj : MpuRegion),
    l !! i = Some ri -> l !! j = Some rj -> i <> j ->
    forall a, ~ (covers ri a /\ covers rj a).

Definition in_periph_bitband {P : Platform} (a : Z) : Prop :=
  VMPU_PERIPH_BITBAND_START <= a <= VMPU_PERIPH_BITBAND_END.

Definition in_sram_bitband {P : Platform} (a : Z) : Prop :=
  VMPU_SRAM_BITBAND_START <= a <= VMPU_SRAM_BITBAND_END.

(** A region of the active box or of the public box. *)
Definition reachable_region {P : Platform} (st : State) (R : MpuRegion) : Prop :=
  In R (vmpu_region_get_for_box st (g_active_box st)) \/
  In R (vmpu_region_get_for_box st 0).

(** P1 as the specification states it, with I1 as its assumption on the
    regions. *)
Definition P1_as_stated {P : Platform} (st : State) (a size : Z) (R : MpuRegion) : Prop :=
  regions_disjoint (vmpu_region_get_for_box st (g_active_box st)) ->
  regions_disjoint (vmpu_region_get_for_box st 0) ->
  reachable_region st R ->
  covers R a -> a + size <= end_ R ->
  a <> SCB_SCR -> ~ in_periph_bitband a -> ~ in_sram_bitband a ->
  vmpu_fault_find_acl st a size = acl R.

(** The second half of P2 as the specification states it: a covering region
    is found, the access reaches past its end, the answer is 0. *)
Definition P2_overrun_as_stated {P : Platform} (st : State) (a size : Z) : Prop :=
  forall R,
    a <> SCB_SCR -> ~ in_periph_bitband a -> ~ in_sram_bitband a ->
    vmpu_fault_find_region st a = Some R ->
    a + size > end_ R ->
    vmpu_fault_find_acl st a size = 0.

(** ** A concrete platform and states for the worked scenarios *)

(** Modelled from the spec: the headers that define these constants and macros
    are not part of the sources at hand. Section 8 gives the literal values of
    its scenarios: a 16-slot MPU with 4 static slots, a guard band of 32
    bytes, SCR at 0xE000ED10, [bss_boxes_start] at 0x20000000, and 0x22000040
    as the SRAM bit-band alias of 0x20000002. The bit-band windows are those
    of the ARMv7-M memory map the specification refers to, rounding is to the
    32 bytes of [UVISOR_ROUND32], the exception numbers and the SFSR bits are
    those of the ARMv8-M architecture, the ACL bits are arbitrary distinct
    ones. *)
Definition spec_platform : Platform := {|
  SCB_SCR := 0xE000ED10;
  UVISOR_TACL_UREAD := 4;
  UVISOR_TACL_UWRITE := 2;
  UVISOR_TACLDEF_STACK := 6;
  UVISOR_TACLDEF_DATA := 6;
  VMPU_PERIPH_BITBAND_START := 0x42000000;
  VMPU_PERIPH_BITBAND_END := 0x43FFFFFF;
  VMPU_SRAM_BITBAND_START := 0x22000000;
  VMPU_SRAM_BITBAND_END := 0x23FFFFFF;
  VMPU_PERIPH_BITBAND_ALIAS_TO_ADDR :=
    fun alias => wrap32 (Z.shiftr (wrap32 (alias - 0x42000000)) 5 + 0x40000000);
  VMPU_SRAM_BITBAND_ALIAS_TO_ADDR :=
    fun alias => wrap32 (Z.shiftr (wrap32 (alias - 0x22000000)) 5 + 0x20000000);
  UVISOR_REGION_ROUND_UP := UVISOR_ROUND32;
  UVISOR_MIN_STACK := fun x => if x <? 1024 then 1024 else x;
  UVISOR_STACK_BAND_SIZE := 32;
  bss_boxes_start := 0x20000000;
  ARMv8M_SAU_REGIONS_STATIC := 4;
  ARMv8M_SAU_REGIONS_MAX := 16;
  NVIC_OFFSET := 16;
  NonMaskableInt_IRQn := -14;
  HardFault_IRQn := -13;
  MemoryManagement_IRQn := -12;
  BusFault_IRQn := -11;
  UsageFault_IRQn := -10;
  SecureFault_IRQn := -9;
  SVCall_IRQn := -5;
  DebugMonitor_IRQn := -4;
  PendSV_IRQn := -2;
  SysTick_IRQn := -1;
  SAU_SFSR_AUVIOL_Pos := 3;
  SAU_SFSR_SFARVALID_Pos := 6;
  EXC_FROM_S := fun lr => Z.testbit lr 6;
  EXC_FROM_NP := fun lr => Z.testbit lr 3;
  EXC_FROM_PSP := fun lr => Z.testbit lr 2
|}.

Definition reset_cpu : Cpu :=
  {| IPSR := 0; PSP := 0; MSP_NS := 0; PSP_NS := 0; SFSR := 0; SFAR := 0;
     unpriv_mem := fun _ => 0 |}.

(** Sixteen slots, none programmed, the cursor on the first dynamic slot. *)
Definition reset_cache : SlotCache :=
  {| g_mpu_slots := replicate 16 None; g_mpu_slot := 4; g_mpu_wrapped := false |}.

(** The state before any box is configured. *)
Definition reset_state : State :=
  {| g_active_box := 0; g_mpu_region := []; g_box_mem_pos := 0;
     cache := reset_cache;
     heap := {| active_pages := []; page_faults := [] |};
     cpu := reset_cpu; debug_log := [] |}.

Definition with_boxes (active : Z) (regions : list (Z * MpuRegion)) (st : State) : State :=
  {| g_active_box := active; g_mpu_region := regions;
     g_box_mem_pos := g_box_mem_pos st; cache := cache st; heap := heap st;
     cpu := cpu st; debug_log := debug_log st |}.

Definition region (s e a : Z) : MpuRegion :=
  {| start := s; end_ := e; config := 0; acl := a |}.

(** Box 1 is active and owns [0x1000, 0x2000) with ACL 2; the public box owns
    [0x1000, 0x3000) with ACL 6. Each box has one region: I1 holds. *)
Definition overlap_state : State :=
  with_boxes 1 [(1, region 0x1000 0x2000 2); (0, region 0x1000 0x3000 6)] reset_state.

(** The public box owns [0xFFFFF000, 0xFFFFFFFF) with ACL 6. *)
Definition top_state : State :=
  with_boxes 0 [(0, region 0xFFFFF000 0xFFFFFFFF 6)] reset_state.

(** The public box owns the peripheral range [0x40000000, 0x40001000) with
    ACL 6. *)
Definition periph_state : State :=
  with_boxes 0 [(0, region 0x40000000 0x40001000 6)] reset_state.

(** ** The dispatcher and the recovery as the specification words them *)

(** Section 4.F on a fatal fault: the handler logs a fault descriptor and
    halts. *)
Definition logs_and_halts {P : Platform} (lr msp_s : Z) (st : State) : Prop :=
  exists reason msg st' d,
    vmpu_sys_mux_handler lr msp_s st = Halted reason msg st' /\
    debug_log st' = debug_log st ++ [d].

(** A slot of the cache holds a region that covers the address with the given
    ACL. *)
Definition installed_with_acl (st : State) (address acl_word : Z) : Prop :=
  exists (i : nat) r priority,
    g_mpu_slots (cache st) !! i = Some (Some (r, priority)) /\
    covers r address /\ acl r = acl_word.

(** Scenario S3 as the specification states it: on the SCR address the
    recovery synthesises UREAD|UWRITE, installs a covering region and returns
    recovered. *)
Definition S3_as_stated {P : Platform} (pc sp fault_status : Z) (st : State) : Prop :=
  exists st',
    vmpu_fault_recovery_mpu pc sp SCB_SCR fault_status st = (1, st') /\
    installed_with_acl st' SCB_SCR (Z.lor UVISOR_TACL_UWRITE UVISOR_TACL_UREAD).

(** An active page covers the address. *)
Definition in_active_page (st : State) (address : Z) : Prop :=
  exists p, In p (active_pages (heap st)) /\ page_start p <= address < page_end p.

(** The CPU in an exception with the given IPSR and SAU fault registers. *)
Definition faulting_cpu (ipsr sfsr sfar : Z) : Cpu :=
  {| IPSR := ipsr; PSP := 0x20001000; MSP_NS := 0x20002000; PSP_NS := 0x20003000;
     SFSR := sfsr; SFAR := sfar; unpriv_mem := fun _ => 0 |}.

(** NMI is exception number 2. *)
Definition nmi_state : State := set_cpu (faulting_cpu 2 0 0) reset_state.

(** HardFault is exception number 3. *)
Definition hardfault_state : State := set_cpu (faulting_cpu 3 0 0) reset_state.

(** Scenario S2 with the region in the public box: SecureFault (exception
    number 7) with AUVIOL and SFARVALID set and SFAR at 0x40000100. *)
Definition secure_fault_state : State :=
  set_cpu (faulting_cpu 7 0x48 0x40000100) periph_state.

(** ** The SRAM layout as the specification words it *)

(** The stack size and the bss size [vmpu_acl_sram] lays out. *)
Definition rounded_stack_size {P : Platform} (stack_size : Z) : Z :=
  wrap32 (UVISOR_REGION_ROUND_UP (UVISOR_MIN_STACK stack_size)).

Definition rounded_bss_size {P : Platform} (bss_size : Z) : Z :=
  wrap32 (UVISOR_REGION_ROUND_UP bss_size).

(** The cursor a call starts from: set on first use. *)
Definition first_use_pos {P : Platform} (st : State) : Z :=
  if g_box_mem_pos st =? 0
  then wrap32 (wrap32 (UVISOR_REGION_ROUND_UP bss_boxes_start) + UVISOR_STACK_BAND_SIZE)
  else g_box_mem_pos st.

(** P5 as the specification states it, for one call:
    [stack_top - bss_start = stack_size + GUARD + bss_size]. *)
Definition P5_difference_as_stated {P : Platform} (box_id bss_size stack_size : Z)
  (st : State) : Prop :=
  forall bss_start stack_top st',
    vmpu_acl_sram box_id bss_size stack_size st = Some (bss_start, stack_top, st') ->
    stack_top - bss_start =
    rounded_stack_size stack_size + UVISOR_STACK_BAND_SIZE + bss_size.

(** S1 as the specification states it. *)
Definition S1_as_stated {P : Platform} (st : State) : Prop :=
  exists st',
    vmpu_acl_sram 1 200 1024 st = Some (0x20000420, 0x20000420, st') /\
    g_box_mem_pos st' = 0x20000420 + UVISOR_ROUND32 200 + 32.

(** The bytes the calls take from the cursor on, in unbounded arithmetic:
    stack, guard band, bss, guard band, for each call. *)
Fixpoint sram_demand {P : Platform} (calls : list (Z * Z * Z)) : Z :=
  match calls with
  | [] => 0
  | (_, bss_size, stack_size) :: rest =>
      rounded_stack_size stack_size + UVISOR_STACK_BAND_SIZE +
      rounded_bss_size bss_size + UVISOR_STACK_BAND_SIZE + sram_demand rest
  end.

(** The cursors the calls leave, in order. *)
Definition cursors (results : list (Z * Z * State)) : list Z :=
  map (fun r => g_box_mem_pos (snd r)) results.

(** The state after the calls. *)
Definition final_state (st : State) (results : list (Z * Z * State)) : State :=
  List.last (map snd results) st.

(** The extents recorded since [st]. *)
Definition recorded_extents (st st' : State) : list MpuRegion :=
  map snd (drop (length (g_mpu_region st)) (g_mpu_region st')).

(** The cursor never decreases from one call to the next. *)
Fixpoint never_decreases (c : Z) (l : list Z) : Prop :=
  match l with
  | [] => True
  | c' :: rest => c <= c' /\ never_decreases c' rest
  end.

(** Extents in strictly increasing address order, a later one starting at
    least a guard band after the end of an earlier one, none of negative
    length. *)
Definition extents_separated (guard : Z) (l : list MpuRegion) : Prop :=
  (forall (i : nat) r, l !! i = Some r -> start r <= end_ r) /\
  (forall (i j : nat) ri rj,
     l !! i = Some ri -> l !! j = Some rj -> (i < j)%nat ->
     start ri < start rj /\ end_ ri + guard <= start rj).

(** The extents lie at least a guard band inside [[low, high]]. *)
Definition extents_guarded (guard low high : Z) (l : list MpuRegion) : Prop :=
  forall (i : nat) r, l !! i = Some r -> low + guard <= start r /\ end_ r + guard <= high.

(** Extents laid out from the cursor [c] on, a guard band after each, leaving
    the cursor at [c']. *)
Fixpoint chained (guard c : Z) (l : list MpuRegion) (c' : Z) : Prop :=
  match l with
  | [] => c' = c
  | e :: rest => start e = c /\ start e <= end_ e /\ chained guard (end_ e + guard) rest c'
  end.

(** P5 as the specification states it, for consecutive calls with non-zero
    bss sizes. *)
Definition P5_sequence_as_stated {P : Platform} (calls : list (Z * Z * Z)) (st : State)
  : Prop :=
  List.Forall (fun c => 0 < snd (fst c)) calls ->
  forall results,
    acl_sram_calls calls st = Some results ->
    never_decreases (g_box_mem_pos st) (cursors results) /\
    extents_separated UVISOR_STACK_BAND_SIZE (recorded_extents st (final_state st results)).

(** The state S1 leaves: the stack extent and the bss extent of box 1, the
    cursor a guard band after the bss. *)
Definition s1_state : State :=
  {| g_active_box := 0;
     g_mpu_region :=
       [(1, {| start := 0x20000020; end_ := 0x20000420; config := 0; acl := 6 |});
        (1, {| start := 0x20000440; end_ := 0x20000520; config := 0; acl := 6 |})];
     g_box_mem_pos := 0x20000540;
     cache := reset_cache;
     heap := {| active_pages := []; page_faults := [] |};
     cpu := reset_cpu; debug_log := [] |}.

(** ** The box switch as the specification words it *)

(** The region pushed for an active page. *)
Definition page_region (p : Page) : MpuRegion :=
  {| start := page_start p; end_ := page_end p; config := 1; acl := 0 |}.

(** P4's list for [switch(_, b)], each region with its priority: [b]'s first
    region at 255 if [b] is not the public box, the active pages at 100, the
    further regions of [b] at 2, the public regions at 1 iff [b] is the public
    box. *)
Definition switch_pushes (dst_box : Z) (st : State) : list (MpuRegion * Z) :=
  let regions := if dst_box =? 0 then [] else vmpu_region_get_for_box st dst_box in
  map (fun r => (r, 255)) (take 1 regions) ++
  map (fun p => (page_region p, 100)) (active_pages (heap st)) ++
  map (fun r => (r, 2)) (drop 1 regions) ++
  (if dst_box =? 0 then map (fun r => (r, 1)) (vmpu_region_get_for_box st 0) else []).

(** Every push of a list done, whatever the pushes return. *)
Definition push_list {P : Platform} (pushes : list (MpuRegion * Z)) (st : State) : State :=
  fold_left (fun s x => snd (vmpu_mpu_push (fst x) (snd x) s)) pushes st.

Definition static_slots {P : Platform} (st : State) : list (option (MpuRegion * Z)) :=
  take ARMv8M_SAU_REGIONS_STATIC (g_mpu_slots (cache st)).

Definition dynamic_slots {P : Platform} (st : State) : list (option (MpuRegion * Z)) :=
  drop ARMv8M_SAU_REGIONS_STATIC (g_mpu_slots (cache st)).

(** The regions a list of slots holds, in slot order. *)
Definition occupied (slots : list (option (MpuRegion * Z))) : list (MpuRegion * Z) :=
  omap id slots.

(** P4 as the specification states it. *)
Definition P4_as_stated {P : Platform} (src_box dst_box : Z) (st : State) : Prop :=
  exists st',
    vmpu_switch src_box dst_box st = Some st' /\
    occupied (dynamic_slots st') = switch_pushes dst_box st /\
    static_slots st' = static_slots st.

Definition with_pages (pages : list Page) (st : State) : State :=
  set_heap {| active_pages := pages; page_faults := page_faults (heap st) |} st.

(** The [n] regions [0x40000000 + 0x1000 * i .. + 0x1000) of a box. *)
Definition box_regions (box_id : Z) (n : nat) : list (Z * MpuRegion) :=
  map (fun i => (box_id,
                 region (0x40000000 + 0x1000 * Z.of_nat i)
                        (0x40001000 + 0x1000 * Z.of_nat i) 6))
      (seq 0 n).

(** Scenario S6: box 0 with 5 regions, box 1 with 3 regions, 2 active pages,
    box 1 active. *)
Definition s6_state : State :=
  with_pages
    [{| page_start := 0x20010000; page_end := 0x20012000; page_id := 0 |};
     {| page_start := 0x20012000; page_end := 0x20014000; page_id := 1 |}]
    (with_boxes 1
       (box_regions 0 5 ++
        [(1, region 0x20000020 0x20000420 6);
         (1, region 0x20000440 0x20000520 6);
         (1, region 0x40020000 0x40021000 6)])
       reset_state).

(** The public box with 13 regions, one more than there are dynamic slots. *)
Definition crowded_state : State := with_boxes 0 (box_regions 0 13) reset_state.

(** The cache takes [n] more pushes that all return true: none is due, or the
    cursor has not wrapped in this batch and [n] slots are left up to the
    last one. *)
Definition has_room {P : Platform} (st : State) (n : nat) : Prop :=
  n = 0%nat \/
  (g_mpu_wrapped (cache st) = false /\
   (g_mpu_slot (cache st) + n <= ARMv8M_SAU_REGIONS_MAX)%nat).

(** The number of dynamic slots, the slot budget of a switch. *)
Definition dynamic_slot_count {P : Platform} : nat :=
  (ARMv8M_SAU_REGIONS_MAX - ARMv8M_SAU_REGIONS_STATIC)%nat.

(** The number of pushes that return true from this state on: none once the
    cursor has wrapped, and before that one for each slot from the cursor to
    the last one. *)
Definition slot_budget {P : Platform} (st : State) : nat :=
  if g_mpu_wrapped (cache st) then 0%nat
  else (ARMv8M_SAU_REGIONS_MAX - g_mpu_slot (cache st))%nat.

(** The pushes [vmpu_switch] makes of the list of P4. The push of the stack
    region is made whatever it returns. Each of the loops (over the pages,
    over the further regions of the box or the public regions) goes on while
    the pushes return true: from a cache with budget [n] it makes the first
    [n + 1] pushes of its list, the last of them returning false. *)
Definition switch_performed {P : Platform} (dst_box : Z) (st : State)
  : list (MpuRegion * Z) :=
  let regions := if dst_box =? 0 then [] else vmpu_region_get_for_box st dst_box in
  let first := map (fun r => (r, 255)) (take 1 regions) in
  let pages :=
    take (S (dynamic_slot_count - length first))
         (map (fun p => (page_region p, 100)) (active_pages (heap st))) in
  let further :=
    take (S (dynamic_slot_count - length (first ++ pages)))
         (map (fun r => (r, 2)) (drop 1 regions) ++
          (if dst_box =? 0 then map (fun r => (r, 1)) (vmpu_region_get_for_box st 0)
           else [])) in
  first ++ pages ++ further.

(** The pushes of a switch past its slot budget, when the list of P4 is
    longer than the dynamic slots are many: the entry of the list after the
    ones that filled the dynamic slots, whose push returns false and ends its
    loop, and, when that loop was the one over the pages, the first region of
    the loop that follows it, whose push returns false as well. *)
Definition switch_overflow {P : Platform} (dst_box : Z) (st : State)
  : list (MpuRegion * Z) :=
  let regions := if dst_box =? 0 then [] else vmpu_region_get_for_box st dst_box in
  take 1 (drop dynamic_slot_count (switch_pushes dst_box st)) ++
  (if (dynamic_slot_count <?
       length (take 1 regions) + length (active_pages (heap st)))%nat
   then take 1 (map (fun r => (r, 2)) (drop 1 regions) ++
                (if dst_box =? 0
                 then map (fun r => (r, 1)) (vmpu_region_get_for_box st 0) else []))
   else []).

(** The public box with two regions and 13 active pages, one more than there
    are dynamic slots. *)
Definition paged_out_state : State :=
  with_pages
    (map (fun i => {| page_start := 0x20010000 + 0x2000 * Z.of_nat i;
                      page_end := 0x20012000 + 0x2000 * Z.of_nat i;
                      page_id := Z.of_nat i |}) (seq 0 13))
    (with_boxes 0 (box_regions 0 2) reset_state).

(** A secure box with 14 regions, two more than there are dynamic slots. *)
Definition crowded_secure_state : State := with_boxes 0 (box_regions 1 14) reset_state.

(** The public box owns the System Control Block range [0xE000ED00,
    0xE000EE00) with ACL 1. *)
Definition scb_state : State :=
  with_boxes 0 [(0, region 0xE000ED00 0xE000EE00 1)] reset_state.

(** ** Definitions for the further properties *)

(** The slot cache is in order: all of the slots are there and the
    round-robin cursor is on a dynamic slot. *)
Definition cache_wf {P : Platform} (st : State) : Prop :=
  length (g_mpu_slots (cache st)) = ARMv8M_SAU_REGIONS_MAX /\
  (ARMv8M_SAU_REGIONS_STATIC <= g_mpu_slot (cache st) < ARMv8M_SAU_REGIONS_MAX)%nat.

(** [for (int i = 0; i < box_count; ++i) best_order[i] = i;] with one unit
    of fuel for each turn of the loop. *)
Fixpoint order_boxes_loop (fuel : nat) (i box_count : Z) (best_order : list Z) : list Z :=
  match fuel with
  | O => best_order
  | S fuel' =>
      if i <? box_count
      then order_boxes_loop fuel' (i + 1) box_count (<[Z.to_nat i := i]> best_order)
      else best_order
  end.

(** [best_order] is the array behind the pointer; [None] stands for the
    undefined run that writes past its end. The loop takes [box_count] turns
    when [box_count] is positive and none otherwise. *)
Definition vmpu_order_boxes (best_order : list Z) (box_count : Z) : option (list Z) :=
  if Z.of_nat (length best_order) <? box_count then None
  else Some (order_boxes_loop (Z.to_nat box_count) 0 box_count best_order).

(** The public box owns the SRAM range [0x20000000, 0x20001000) with ACL 6. *)
Definition sram_state : State :=
  with_boxes 0 [(0, region 0x20000000 0x20001000 6)] reset_state.

(** An active page on [0x20010000, 0x20012000), and a public region with
    ACL 6 that covers the same range. *)
Definition paged_state : State :=
  with_pages [{| page_start := 0x20010000; page_end := 0x20012000; page_id := 5 |}]
    (with_boxes 0 [(0, region 0x20010000 0x20012000 6)] reset_state).

(** IRQ 4 of the device is exception number 20. *)
Definition irq_state : State := set_cpu (faulting_cpu 20 0 0) reset_state.

(** SVCall is exception number 11. *)
Definition svcall_state : State := set_cpu (faulting_cpu 11 0 0) reset_state.

(** Scenario S5: SecureFault with AUVIOL and SFARVALID set and SFAR at
    0x50000000, which no region and no page covers. *)
Definition denied_state : State :=
  set_cpu (faulting_cpu 7 0x48 0x50000000) periph_state.

(** The parts of the state no push changes. *)
Definition same_outside_cache (st st' : State) : Prop :=
  g_active_box st' = g_active_box st /\ g_mpu_region st' = g_mpu_region st /\
  g_box_mem_pos st' = g_box_mem_pos st /\ heap st' = heap st /\
  cpu st' = cpu st /\ debug_log st' = debug_log st.

(** The state before any box is configured, after one push: a peripheral
    region is in slot 4 and the cursor is on slot 5. *)
Definition pushed_state : State :=
  snd (@vmpu_mpu_push spec_platform (region 0x40000000 0x40001000 6) 3 reset_state).

(** The state S1 leaves from [pushed_state]. *)
Definition s1_pushed_state : State :=
  snd (@vmpu_mpu_push spec_platform (region 0x40000000 0x40001000 6) 3 s1_state).

(** * Theorems *)

(** ** 32-bit arithmetic *)

Lemma wrap32_range z : 0 <= wrap32 z < 2 ^ 32.
Proof. unfold wrap32. apply Z.mod_pos_bound. lia. Qed.

Lemma wrap32_small z : 0 <= z < 2 ^ 32 -> wrap32 z = z.
Proof. intros H. unfold wrap32. apply Z.mod_small. exact H. Qed.

Lemma wrap32_le z : 0 <= z -> wrap32 z <= z.
Proof. intros H. unfold wrap32. apply Z.mod_le; lia. Qed.

(** ** The region table *)

Lemma coversb_covers r a : coversb r a = true <-> covers r a.
Proof. unfold coversb, covers. rewrite andb_true_iff, Z.leb_le, Z.ltb_lt. tauto. Qed.

Lemma coversb_not_covers r a : coversb r a = false <-> ~ covers r a.
Proof.
  rewrite <- coversb_covers. destruct (coversb r a); split; congruence.
Qed.

(** The linear scan finds a covering region of a box with disjoint regions:
    it is the only one. *)
Lemma find_covering_disjoint (l : list MpuRegion) R a :
  regions_disjoint l -> In R l -> covers R a ->
  List.find (fun r => coversb r a) l = Some R.
Proof.
  intros Hdis Hin Hcov.
  destruct (List.find (fun r => coversb r a) l) as [R'|] eqn:Hfind.
  - apply find_some in Hfind. destruct Hfind as [Hin' Hcov'].
    apply coversb_covers in Hcov'.
    apply list_elem_of_In, list_elem_of_lookup in Hin. destruct Hin as [j Hj].
    apply list_elem_of_In, list_elem_of_lookup in Hin'. destruct Hin' as [i Hi].
    destruct (Nat.eq_dec i j) as [->|Hne].
    + congruence.
    + exfalso. apply (Hdis i j R' R Hi Hj Hne a). split; assumption.
  - exfalso. apply (find_none _ _ Hfind) in Hin.
    apply coversb_not_covers in Hin. contradiction.
Qed.

(** The scan finds nothing exactly when no region of the list covers the
    address. *)
Lemma find_covering_none (l : list MpuRegion) a :
  List.find (fun r => coversb r a) l = None <-> (forall R, In R l -> ~ covers R a).
Proof.
  split.
  - intros Hfind R Hin. apply coversb_not_covers. apply (find_none _ _ Hfind R Hin).
  - intros Hnone. destruct (List.find (fun r => coversb r a) l) as [R|] eqn:Hfind; [|reflexivity].
    apply find_some in Hfind. destruct Hfind as [Hin Hcov].
    apply coversb_covers in Hcov. exfalso. exact (Hnone R Hin Hcov).
Qed.

Lemma find_covering_some (l : list MpuRegion) a R :
  List.find (fun r => coversb r a) l = Some R -> In R l /\ covers R a.
Proof.
  intros Hfind. apply find_some in Hfind. destruct Hfind as [Hin Hcov].
  apply coversb_covers in Hcov. split; assumption.
Qed.

Section Lookup.

Context {P : Platform}.

(** What [vmpu_fault_find_region] finds is a region of the active or of the
    public box that covers the address. *)
Lemma vmpu_fault_find_region_some st a R :
  vmpu_fault_find_region st a = Some R -> reachable_region st R /\ covers R a.
Proof.
  unfold vmpu_fault_find_region, vmpu_region_find_for_address, reachable_region.
  destruct (g_active_box st =? 0) eqn:Hbox.
  - destruct (List.find _ (vmpu_region_get_for_box st 0)) as [r|] eqn:Hfind; [|discriminate].
    intros [= <-]. apply find_covering_some in Hfind. tauto.
  - destruct (List.find _ (vmpu_region_get_for_box st (g_active_box st))) as [r|] eqn:Hact.
    + intros [= <-]. apply find_covering_some in Hact. tauto.
    + destruct (List.find _ (vmpu_region_get_for_box st 0)) as [r|] eqn:Hfind; [|discriminate].
      intros [= <-]. apply find_covering_some in Hfind. tauto.
Qed.

(** It finds nothing exactly when no region of either box covers the
    address. *)
Lemma vmpu_fault_find_region_none st a :
  vmpu_fault_find_region st a = None <->
  (forall R, reachable_region st R -> ~ covers R a).
Proof.
  unfold vmpu_fault_find_region, vmpu_region_find_for_address, reachable_region.
  split.
  - destruct (g_active_box st =? 0) eqn:Hbox.
    + apply Z.eqb_eq in Hbox. rewrite Hbox.
      destruct (List.find _ (vmpu_region_get_for_box st 0)) as [r|] eqn:Hfind; [discriminate|].
      intros _ R [Hin|Hin]; exact (proj1 (find_covering_none _ _) Hfind R Hin).
    + destruct (List.find _ (vmpu_region_get_for_box st (g_active_box st))) as [r|] eqn:Hact;
        [discriminate|].
      destruct (List.find _ (vmpu_region_get_for_box st 0)) as [r|] eqn:Hfind; [discriminate|].
      intros _ R [Hin|Hin].
      * exact (proj1 (find_covering_none _ _) Hact R Hin).
      * exact (proj1 (find_covering_none _ _) Hfind R Hin).
  - intros Hnone.
    assert (H0 : List.find (fun r => coversb r a) (vmpu_region_get_for_box st 0) = None).
    { apply find_covering_none. intros R Hin. apply Hnone. right. exact Hin. }
    assert (H1 : List.find (fun r => coversb r a)
                   (vmpu_region_get_for_box st (g_active_box st)) = None).
    { apply find_covering_none. intros R Hin. apply Hnone. left. exact Hin. }
    rewrite H0, H1. destruct (g_active_box st =? 0); reflexivity.
Qed.

(** Outside the bit-band windows the lookup address is the address itself. *)
Lemma bitband_translate_outside a :
  ~ in_periph_bitband a -> ~ in_sram_bitband a -> bitband_translate a = a.
Proof.
  unfold in_periph_bitband, in_sram_bitband, bitband_translate. intros Hp Hs.
  destruct ((VMPU_PERIPH_BITBAND_START <=? a) && (a <=? VMPU_PERIPH_BITBAND_END)) eqn:E1.
  { apply andb_true_iff in E1. rewrite !Z.leb_le in E1. tauto. }
  destruct ((VMPU_SRAM_BITBAND_START <=? a) && (a <=? VMPU_SRAM_BITBAND_END)) eqn:E2.
  { apply andb_true_iff in E2. rewrite !Z.leb_le in E2. tauto. }
  reflexivity.
Qed.

Lemma bitband_translate_periph a :
  in_periph_bitband a -> bitband_translate a = VMPU_PERIPH_BITBAND_ALIAS_TO_ADDR a.
Proof.
  unfold in_periph_bitband, bitband_translate. intros [H1 H2].
  apply Z.leb_le in H1. apply Z.leb_le in H2. rewrite H1, H2. reflexivity.
Qed.

(** The region [vmpu_fault_find_region] returns for an address a region [R]
    covers: [R] itself if [R] is of the active box, and also if [R] is of the
    public box and the active box has no region on the address. *)
Lemma vmpu_fault_find_region_covering st a R :
  regions_disjoint (vmpu_region_get_for_box st (g_active_box st)) ->
  regions_disjoint (vmpu_region_get_for_box st 0) ->
  In R (vmpu_region_get_for_box st (g_active_box st)) \/
  (In R (vmpu_region_get_for_box st 0) /\
   forall R', In R' (vmpu_region_get_for_box st (g_active_box st)) -> ~ covers R' a) ->
  covers R a ->
  vmpu_fault_find_region st a = Some R.
Proof.
  intros Hact Hpub Hin Hcov.
  unfold vmpu_fault_find_region, vmpu_region_find_for_address.
  destruct (g_active_box st =? 0) eqn:Hbox.
  - apply Z.eqb_eq in Hbox. rewrite Hbox in Hin.
    assert (HR : In R (vmpu_region_get_for_box st 0)) by tauto.
    rewrite (find_covering_disjoint _ R a Hpub HR Hcov). reflexivity.
  - destruct Hin as [Hin|[Hin Hfree]].
    + rewrite (find_covering_disjoint _ R a Hact Hin Hcov). reflexivity.
    + apply find_covering_none in Hfree. rewrite Hfree.
      rewrite (find_covering_disjoint _ R a Hpub Hin Hcov). reflexivity.
Qed.

(** C1, as the code has it: an access [a, a+size) that lies inside a region
    [R] gets [R]'s ACL when [R] belongs to the active box, or when [R] belongs
    to the public box 0 and no region of the active box covers [a] (the active
    box is searched first and its hit wins); [a] is not the SCR address and
    not in a bit-band alias window, and the regions within each of the two
    boxes are disjoint (I1). *)
Theorem vmpu_fault_find_acl_covering st a size R :
  regions_disjoint (vmpu_region_get_for_box st (g_active_box st)) ->
  regions_disjoint (vmpu_region_get_for_box st 0) ->
  In R (vmpu_region_get_for_box st (g_active_box st)) \/
  (In R (vmpu_region_get_for_box st 0) /\
   forall R', In R' (vmpu_region_get_for_box st (g_active_box st)) -> ~ covers R' a) ->
  covers R a -> 0 <= a -> 0 <= size -> a + size <= end_ R ->
  a <> SCB_SCR -> ~ in_periph_bitband a -> ~ in_sram_bitband a ->
  vmpu_fault_find_acl st a size = acl R.
Proof.
  intros Hact Hpub Hin Hcov Ha Hsize Hfit Hscr Hp Hs.
  unfold vmpu_fault_find_acl.
  apply Z.eqb_neq in Hscr. rewrite Hscr.
  rewrite (bitband_translate_outside a Hp Hs).
  rewrite (vmpu_fault_find_region_covering st a R Hact Hpub Hin Hcov).
  assert (Hle : wrap32 (a + size) <= end_ R).
  { pose proof (wrap32_le (a + size)). lia. }
  destruct (wrap32 (a + size) >? end_ R) eqn:Hgt; [|reflexivity].
  apply Z.gtb_lt in Hgt. lia.
Qed.

End Lookup.

Lemma regions_disjoint_singleton r : regions_disjoint [r].
Proof.
  intros i j ri rj Hi Hj Hne. exfalso.
  destruct i as [|i]; destruct j as [|j]; simpl in *; try discriminate.
  apply Hne. reflexivity.
Qed.

Lemma regions_disjoint_nil : regions_disjoint [].
Proof. intros i j ri rj Hi. destruct i; discriminate Hi. Qed.

(** An access inside the region of the active box 1 of [overlap_state] gets
    that region's ACL. *)
Lemma vmpu_fault_find_acl_covering_witness :
  @vmpu_fault_find_acl spec_platform overlap_state 0x1800 4 = 2.
Proof.
  apply (@vmpu_fault_find_acl_covering spec_platform overlap_state 0x1800 4
           (region 0x1000 0x2000 2)).
  - apply regions_disjoint_singleton.
  - apply regions_disjoint_singleton.
  - left. simpl. left. reflexivity.
  - unfold covers. simpl. lia.
  - lia.
  - lia.
  - simpl. lia.
  - simpl. lia.
  - unfold in_periph_bitband. simpl. lia.
  - unfold in_sram_bitband. simpl. lia.
Defined.

(** P1 as stated fails where the active box and the public box overlap: in
    [overlap_state] each box keeps I1, the public region [0x1000, 0x3000)
    with ACL 6 contains the access [0x1000, 0x1004), and the answer is the
    ACL 2 of the active box's region. *)
Lemma P1_as_stated_counterexample :
  ~ @P1_as_stated spec_platform overlap_state 0x1000 4 (region 0x1000 0x3000 6).
Proof.
  unfold P1_as_stated. intros H.
  assert (Hacl : @vmpu_fault_find_acl spec_platform overlap_state 0x1000 4 = 6).
  { apply H.
    - apply regions_disjoint_singleton.
    - apply regions_disjoint_singleton.
    - right. simpl. left. reflexivity.
    - unfold covers. simpl. lia.
    - simpl. lia.
    - simpl. lia.
    - unfold in_periph_bitband. simpl. lia.
    - unfold in_sram_bitband. simpl. lia. }
  vm_compute in Hacl. discriminate Hacl.
Qed.

Section LookupDenied.

Context {P : Platform}.

(** The first half of P2: an address no region of the active or public box
    covers gets 0. *)
Lemma vmpu_fault_find_acl_uncovered st a size :
  (forall R, reachable_region st R -> ~ covers R a) ->
  a <> SCB_SCR -> ~ in_periph_bitband a -> ~ in_sram_bitband a ->
  vmpu_fault_find_acl st a size = 0.
Proof.
  intros Hnone Hscr Hp Hs. unfold vmpu_fault_find_acl.
  apply Z.eqb_neq in Hscr. rewrite Hscr.
  rewrite (bitband_translate_outside a Hp Hs).
  apply vmpu_fault_find_region_none in Hnone. rewrite Hnone. reflexivity.
Qed.

(** The second half of P2 where the 32-bit sum does not wrap: an access that
    reaches past the end of the covering region gets 0. *)
Lemma vmpu_fault_find_acl_overrun st a size R :
  vmpu_fault_find_region st a = Some R ->
  0 <= a + size < 2 ^ 32 -> a + size > end_ R ->
  a <> SCB_SCR -> ~ in_periph_bitband a -> ~ in_sram_bitband a ->
  vmpu_fault_find_acl st a size = 0.
Proof.
  intros Hfind Hrange Hover Hscr Hp Hs. unfold vmpu_fault_find_acl.
  apply Z.eqb_neq in Hscr. rewrite Hscr.
  rewrite (bitband_translate_outside a Hp Hs), Hfind.
  rewrite (wrap32_small _ Hrange).
  destruct (a + size >? end_ R) eqn:Hgt; [reflexivity|].
  rewrite Z.gtb_ltb in Hgt. apply Z.ltb_ge in Hgt. lia.
Qed.

(** C10: for the SCR address the answer is [UVISOR_TACL_UWRITE |
    UVISOR_TACL_UREAD] whatever the size, the region tables and the bit-band
    windows are: the comparison with [&SCB->SCR] comes first. *)
Theorem vmpu_fault_find_acl_scr st size :
  vmpu_fault_find_acl st SCB_SCR size = Z.lor UVISOR_TACL_UWRITE UVISOR_TACL_UREAD.
Proof. unfold vmpu_fault_find_acl. rewrite Z.eqb_refl. reflexivity. Qed.

(** C8: for an address [a] in the peripheral bit-band alias window,
    [vmpu_fault_find_acl a 4] is [vmpu_fault_find_acl] of the address the
    alias translates to, when that address is outside both alias windows and
    is not the SCR address (SCR itself is not in the alias window). *)
Theorem vmpu_fault_find_acl_periph_bitband st a :
  ~ in_periph_bitband SCB_SCR ->
  in_periph_bitband a ->
  ~ in_periph_bitband (VMPU_PERIPH_BITBAND_ALIAS_TO_ADDR a) ->
  ~ in_sram_bitband (VMPU_PERIPH_BITBAND_ALIAS_TO_ADDR a) ->
  VMPU_PERIPH_BITBAND_ALIAS_TO_ADDR a <> SCB_SCR ->
  vmpu_fault_find_acl st a 4 =
  vmpu_fault_find_acl st (VMPU_PERIPH_BITBAND_ALIAS_TO_ADDR a) 4.
Proof.
  intros Hscr Ha Htp Hts Htscr.
  assert (Hne : a <> SCB_SCR) by (intros ->; contradiction).
  unfold vmpu_fault_find_acl.
  apply Z.eqb_neq in Hne. apply Z.eqb_neq in Htscr. rewrite Hne, Htscr.
  rewrite (bitband_translate_periph a Ha).
  rewrite (bitband_translate_outside _ Htp Hts). reflexivity.
Qed.

End LookupDenied.

(** The alias 0x42002000 of bit 0 of the peripheral byte 0x40000100 gets the
    ACL of the region that holds the byte. *)
Lemma vmpu_fault_find_acl_periph_bitband_witness :
  @vmpu_fault_find_acl spec_platform periph_state 0x42002000 4 =
  @vmpu_fault_find_acl spec_platform periph_state 0x40000100 4.
Proof.
  apply (@vmpu_fault_find_acl_periph_bitband spec_platform periph_state 0x42002000).
  - unfold in_periph_bitband. simpl. lia.
  - unfold in_periph_bitband. simpl. lia.
  - unfold in_periph_bitband. vm_compute. intros [H1 H2]. apply H1. reflexivity.
  - unfold in_sram_bitband. vm_compute. intros [H1 H2]. apply H2. reflexivity.
  - vm_compute. discriminate.
Defined.

(** On the documented bit-band map of [spec_platform] the side conditions of
    the alias property hold by themselves: an alias of the peripheral window
    translates to an address of [0x40000000, 0x40100000), which is outside
    both windows and is not the SCR address. *)
Lemma periph_alias_lookup_documented_map st a :
  @in_periph_bitband spec_platform a ->
  @vmpu_fault_find_acl spec_platform st a 4 =
  @vmpu_fault_find_acl spec_platform st
    (@VMPU_PERIPH_BITBAND_ALIAS_TO_ADDR spec_platform a) 4.
Proof.
  intros Ha. pose proof Ha as Hwin.
  unfold in_periph_bitband in Hwin. cbn in Hwin.
  assert (Ht : 0x40000000 <= @VMPU_PERIPH_BITBAND_ALIAS_TO_ADDR spec_platform a
               < 0x40100000).
  { cbn. rewrite (wrap32_small (a - 0x42000000)) by lia.
    rewrite Z.shiftr_div_pow2 by lia.
    assert (0 <= (a - 0x42000000) / 2 ^ 5 < 0x100000).
    { split; [apply Z.div_pos; lia|apply Z.div_lt_upper_bound; lia]. }
    rewrite wrap32_small by lia. lia. }
  unfold vmpu_fault_find_acl.
  assert (Hne : (a =? @SCB_SCR spec_platform) = false) by (apply Z.eqb_neq; cbn; lia).
  assert (Htne : (@VMPU_PERIPH_BITBAND_ALIAS_TO_ADDR spec_platform a
                  =? @SCB_SCR spec_platform) = false)
    by (apply Z.eqb_neq; cbn [SCB_SCR spec_platform]; lia).
  rewrite Hne, Htne.
  rewrite (@bitband_translate_periph spec_platform a Ha).
  rewrite (@bitband_translate_outside spec_platform).
  - reflexivity.
  - unfold in_periph_bitband. cbn [VMPU_PERIPH_BITBAND_START VMPU_PERIPH_BITBAND_END
                                     spec_platform]. lia.
  - unfold in_sram_bitband. cbn [VMPU_SRAM_BITBAND_START VMPU_SRAM_BITBAND_END
                                   spec_platform]. lia.
Qed.

(** C2, the defect: the sum [fault_addr + size] wraps around. The public
    region [0xFFFFF000, 0xFFFFFFFF) covers 0xFFFFFFFE, the four bytes from
    there reach past its end, and the answer is the region's ACL 6, not 0. *)
Theorem vmpu_fault_find_acl_overrun_wraps :
  vmpu_fault_find_region top_state 0xFFFFFFFE
    = Some (region 0xFFFFF000 0xFFFFFFFF 6) /\
  0xFFFFFFFE + 4 > end_ (region 0xFFFFF000 0xFFFFFFFF 6) /\
  @vmpu_fault_find_acl spec_platform top_state 0xFFFFFFFE 4 = 6 /\
  ~ @P2_overrun_as_stated spec_platform top_state 0xFFFFFFFE 4.
Proof.
  assert (Hfind : vmpu_fault_find_region top_state 0xFFFFFFFE
                  = Some (region 0xFFFFF000 0xFFFFFFFF 6)) by reflexivity.
  assert (Hacl : @vmpu_fault_find_acl spec_platform top_state 0xFFFFFFFE 4 = 6)
    by (vm_compute; reflexivity).
  repeat split; try assumption.
  - intros H. specialize (H (region 0xFFFFF000 0xFFFFFFFF 6)).
    rewrite Hacl in H. enough (6 = 0) by discriminate. apply H.
    + simpl. lia.
    + unfold in_periph_bitband. simpl. lia.
    + unfold in_sram_bitband. simpl. lia.
    + exact Hfind.
    + simpl. lia.
Qed.

(** ** The exception dispatcher *)

(** The comparison of the masked status with the mask of two bits holds
    exactly when both bits are set. *)
Lemma both_bits_set fs p q :
  0 <= p -> 0 <= q ->
  (Z.land fs (Z.lor (Z.shiftl 1 p) (Z.shiftl 1 q)) =? Z.lor (Z.shiftl 1 p) (Z.shiftl 1 q))
  = Z.testbit fs p && Z.testbit fs q.
Proof.
  intros Hp Hq. rewrite !Z.shiftl_1_l.
  set (m := Z.lor (2 ^ p) (2 ^ q)).
  assert (Hm : forall n, 0 <= n -> Z.testbit m n = (p =? n) || (q =? n)).
  { intros n Hn. unfold m. rewrite Z.lor_spec, !Z.pow2_bits_eqb by lia. reflexivity. }
  assert (Hclear : forall n, 0 <= n -> Z.testbit m n = true -> Z.testbit fs n = false ->
                             Z.land fs m <> m).
  { intros n Hn Hmn Hfn Heq.
    assert (Hbit : Z.testbit (Z.land fs m) n = Z.testbit m n) by (rewrite Heq; reflexivity).
    rewrite Z.land_spec, Hmn, Hfn in Hbit. discriminate Hbit. }
  destruct (Z.testbit fs p) eqn:Ebp; destruct (Z.testbit fs q) eqn:Ebq; simpl.
  - apply Z.eqb_eq. apply Z.bits_inj'. intros n Hn.
    rewrite Z.land_spec, Hm by lia.
    destruct (Z.eqb_spec p n) as [<-|_]; [rewrite Ebp; reflexivity|].
    destruct (Z.eqb_spec q n) as [<-|_]; [rewrite Ebq; reflexivity|].
    apply andb_false_r.
  - apply Z.eqb_neq. apply (Hclear q Hq); [|exact Ebq].
    rewrite Hm by lia. rewrite (Z.eqb_refl q). apply orb_true_r.
  - apply Z.eqb_neq. apply (Hclear p Hp); [|exact Ebp].
    rewrite Hm by lia. rewrite (Z.eqb_refl p). reflexivity.
  - apply Z.eqb_neq. apply (Hclear p Hp); [|exact Ebp].
    rewrite Hm by lia. rewrite (Z.eqb_refl p). reflexivity.
Qed.

(** The labels of the [switch] are told apart. *)
Ltac irqn_distinct H :=
  unfold irqn_labels in H;
  repeat (rewrite List.NoDup_cons_iff in H; simpl in H);
  decompose [and] H; clear H.

Ltac switch_case :=
  repeat match goal with
         | |- context [?x =? ?y] =>
             destruct (Z.eqb_spec x y);
             [try (exfalso; intuition congruence)|try congruence]
         end.

Section Dispatcher.

Context {P : Platform}.

(** The recovery leaves the CPU registers alone. *)
Lemma vmpu_fault_recovery_mpu_cpu pc sp fault_addr fault_status st :
  cpu (snd (vmpu_fault_recovery_mpu pc sp fault_addr fault_status st)) = cpu st.
Proof.
  unfold vmpu_fault_recovery_mpu.
  destruct (page_allocator_get_active_region_for_address st fault_addr) as [[[s e] p]|].
  - reflexivity.
  - destruct (vmpu_fault_find_region st fault_addr); reflexivity.
Qed.

Lemma secure_fault_case_eq lr sp st :
  0 <= SAU_SFSR_AUVIOL_Pos -> 0 <= SAU_SFSR_SFARVALID_Pos ->
  secure_fault_case lr sp st =
  let fault_status := SFSR (cpu st) in
  let denied s :=
    Halted PERMISSION_DENIED "Cannot recover from a secure fault."
      (set_debug_log
         (debug_log s ++ [{| fd_fault := FAULT_SECURE; fd_lr := lr; fd_sp := sp |}]) s) in
  if Z.testbit fault_status SAU_SFSR_AUVIOL_Pos &&
     Z.testbit fault_status SAU_SFSR_SFARVALID_Pos
  then
    let r := vmpu_fault_recovery_mpu (vmpu_unpriv_uint32_read st (sp + 6 * 4)) sp
               (SFAR (cpu st)) fault_status st in
    if fst r =? 0 then denied (snd r)
    else Returned lr (SAU_write_SFSR fault_status (snd r))
  else denied st.
Proof.
  intros Hp Hq. unfold secure_fault_case, SAU_SFSR_AUVIOL_Msk, SAU_SFSR_SFARVALID_Msk.
  rewrite (both_bits_set _ _ _ Hp Hq). cbv zeta.
  destruct (Z.testbit (SFSR (cpu st)) SAU_SFSR_AUVIOL_Pos &&
            Z.testbit (SFSR (cpu st)) SAU_SFSR_SFARVALID_Pos); [|reflexivity].
  destruct (vmpu_fault_recovery_mpu _ _ _ _ _) as [recovered st']. simpl.
  destruct (recovered =? 0); reflexivity.
Qed.

(** C3: on a SecureFault the recovery decides the outcome exactly when both
    AUVIOL and SFARVALID are set in SFSR. If so and it recovers, the handler
    returns [lr] unchanged with SFSR cleared; if so and it does not recover,
    and if the two bits are not both set (then in the state as it was, the
    recovery not run), the handler logs the secure fault and halts with
    PERMISSION_DENIED. *)
Theorem vmpu_sys_mux_handler_secure_fault lr msp_s st :
  List.NoDup irqn_labels ->
  0 <= SAU_SFSR_AUVIOL_Pos -> 0 <= SAU_SFSR_SFARVALID_Pos ->
  exception_id st = SecureFault_IRQn ->
  let fault_status := SFSR (cpu st) in
  let sp := exception_sp lr msp_s st in
  let both_set :=
    Z.testbit fault_status SAU_SFSR_AUVIOL_Pos = true /\
    Z.testbit fault_status SAU_SFSR_SFARVALID_Pos = true in
  let r := vmpu_fault_recovery_mpu (vmpu_unpriv_uint32_read st (sp + 6 * 4)) sp
             (SFAR (cpu st)) fault_status st in
  let denied s :=
    Halted PERMISSION_DENIED "Cannot recover from a secure fault."
      (set_debug_log
         (debug_log s ++ [{| fd_fault := FAULT_SECURE; fd_lr := lr; fd_sp := sp |}]) s) in
  (both_set -> fst r <> 0 ->
   vmpu_sys_mux_handler lr msp_s st = Returned lr (SAU_write_SFSR fault_status (snd r)) /\
   SFSR (cpu (SAU_write_SFSR fault_status (snd r))) = 0) /\
  (both_set -> fst r = 0 -> vmpu_sys_mux_handler lr msp_s st = denied (snd r)) /\
  (~ both_set -> vmpu_sys_mux_handler lr msp_s st = denied st).
Proof.
  intros Hnodup Hp Hq Hid fault_status sp both_set r denied.
  assert (Hhandler : vmpu_sys_mux_handler lr msp_s st = secure_fault_case lr sp st).
  { unfold vmpu_sys_mux_handler. rewrite Hid. irqn_distinct Hnodup.
    switch_case. reflexivity. }
  rewrite Hhandler, (secure_fault_case_eq lr sp st Hp Hq).
  subst both_set denied r fault_status. cbv beta zeta.
  split; [|split].
  - intros [Ha Hs] Hrec. rewrite Ha, Hs. simpl.
    apply Z.eqb_neq in Hrec. rewrite Hrec. split; [reflexivity|].
    unfold SAU_write_SFSR. simpl.
    rewrite vmpu_fault_recovery_mpu_cpu. apply Z.land_lnot_diag.
  - intros [Ha Hs] Hrec. rewrite Ha, Hs. simpl. rewrite Hrec. reflexivity.
  - intros Hno.
    destruct (Z.testbit (SFSR (cpu st)) SAU_SFSR_AUVIOL_Pos);
      destruct (Z.testbit (SFSR (cpu st)) SAU_SFSR_SFARVALID_Pos);
      simpl; try reflexivity.
    exfalso. apply Hno. split; reflexivity.
Qed.

(** C9, as the code has it: for HardFault, MemManage, BusFault, UsageFault
    and DebugMonitor the handler logs the fault descriptor and halts with the
    error code of the fault; for NMI it halts with NOT_IMPLEMENTED and logs
    nothing. *)
Theorem vmpu_sys_mux_handler_fatal lr msp_s st :
  List.NoDup irqn_labels ->
  let sp := exception_sp lr msp_s st in
  let logged fault msg :=
    vmpu_sys_mux_handler lr msp_s st =
    Halted fault msg
      (set_debug_log
         (debug_log st ++ [{| fd_fault := fault; fd_lr := lr; fd_sp := sp |}]) st) in
  (exception_id st = HardFault_IRQn ->
   logged FAULT_HARD "Cannot recover from a hard fault."%string) /\
  (exception_id st = MemoryManagement_IRQn ->
   logged FAULT_MEMMANAGE "Cannot recover from a memory management fault."%string) /\
  (exception_id st = BusFault_IRQn ->
   logged FAULT_BUS "Cannot recover from a bus fault."%string) /\
  (exception_id st = UsageFault_IRQn ->
   logged FAULT_USAGE "Cannot recover from a usage fault."%string) /\
  (exception_id st = DebugMonitor_IRQn ->
   logged FAULT_DEBUG "Cannot recover from a DebugMonitor fault."%string) /\
  (exception_id st = NonMaskableInt_IRQn ->
   vmpu_sys_mux_handler lr msp_s st =
   Halted NOT_IMPLEMENTED "No NonMaskableInt IRQ handler registered." st).
Proof.
  intros Hnodup sp logged. subst logged. cbv beta.
  irqn_distinct Hnodup.
  repeat split; intros Hid; unfold vmpu_sys_mux_handler; rewrite Hid;
    switch_case; reflexivity.
Qed.

End Dispatcher.

Lemma spec_platform_irqn_labels : List.NoDup (@irqn_labels spec_platform).
Proof.
  unfold irqn_labels. simpl.
  repeat (apply List.NoDup_cons; [simpl; intuition discriminate|]).
  apply List.NoDup_nil.
Defined.

(** The SecureFault of [secure_fault_state] is recovered: the handler returns
    [lr] and SFSR is cleared. *)
Lemma vmpu_sys_mux_handler_secure_fault_witness :
  @vmpu_sys_mux_handler spec_platform 0xFFFFFFB8 0x20004000 secure_fault_state =
  Returned 0xFFFFFFB8
    (SAU_write_SFSR 0x48
       (snd (@vmpu_fault_recovery_mpu spec_platform 0 0x20002000 0x40000100 0x48
               secure_fault_state))) /\
  SFSR (cpu (SAU_write_SFSR 0x48
               (snd (@vmpu_fault_recovery_mpu spec_platform 0 0x20002000 0x40000100 0x48
                       secure_fault_state)))) = 0.
Proof.
  assert (Hp : 0 <= @SAU_SFSR_AUVIOL_Pos spec_platform) by (simpl; lia).
  assert (Hq : 0 <= @SAU_SFSR_SFARVALID_Pos spec_platform) by (simpl; lia).
  assert (Hid : @exception_id spec_platform secure_fault_state
                = @SecureFault_IRQn spec_platform) by reflexivity.
  apply (proj1 (@vmpu_sys_mux_handler_secure_fault spec_platform 0xFFFFFFB8 0x20004000
                  secure_fault_state spec_platform_irqn_labels Hp Hq Hid)).
  - split; reflexivity.
  - vm_compute. discriminate.
Defined.

(** The HardFault of [hardfault_state] is logged and halts. *)
Lemma vmpu_sys_mux_handler_fatal_witness :
  @vmpu_sys_mux_handler spec_platform 0xFFFFFFB8 0x20004000 hardfault_state =
  Halted FAULT_HARD "Cannot recover from a hard fault."
    (set_debug_log
       [{| fd_fault := FAULT_HARD; fd_lr := 0xFFFFFFB8; fd_sp := 0x20002000 |}]
       hardfault_state).
Proof.
  apply (proj1 (@vmpu_sys_mux_handler_fatal spec_platform 0xFFFFFFB8 0x20004000
                  hardfault_state spec_platform_irqn_labels)).
  reflexivity.
Defined.

(** C9 as stated fails for NMI: the handler halts with NOT_IMPLEMENTED and the
    log of fault descriptors is as it was. *)
Lemma logs_and_halts_nmi_counterexample :
  ~ @logs_and_halts spec_platform 0xFFFFFFB8 0x20004000 nmi_state.
Proof.
  unfold logs_and_halts. intros (reason & msg & st' & d & Hhalt & Hlog).
  assert (Hrun : @vmpu_sys_mux_handler spec_platform 0xFFFFFFB8 0x20004000 nmi_state =
                 Halted NOT_IMPLEMENTED "No NonMaskableInt IRQ handler registered." nmi_state)
    by reflexivity.
  rewrite Hrun in Hhalt. injection Hhalt as _ _ <-.
  simpl in Hlog. discriminate Hlog.
Qed.

(** ** The fault recovery *)

Lemma page_lookup_none st a :
  page_allocator_get_active_region_for_address st a = None <-> ~ in_active_page st a.
Proof.
  unfold page_allocator_get_active_region_for_address, in_active_page.
  destruct (List.find _ (active_pages (heap st))) as [p|] eqn:Hfind.
  - split; [discriminate|]. intros Hno. exfalso. apply Hno.
    apply find_some in Hfind. destruct Hfind as [Hin Hcov].
    apply andb_true_iff in Hcov. rewrite Z.leb_le, Z.ltb_lt in Hcov.
    exists p. tauto.
  - split; [|reflexivity]. intros _ (p & Hin & Hcov).
    apply (find_none _ _ Hfind) in Hin.
    apply andb_false_iff in Hin. rewrite Z.leb_gt, Z.ltb_ge in Hin. lia.
Qed.

Lemma page_lookup_some st a s e p :
  page_allocator_get_active_region_for_address st a = Some (s, e, p) ->
  in_active_page st a /\ s <= a < e.
Proof.
  unfold page_allocator_get_active_region_for_address, in_active_page.
  destruct (List.find _ (active_pages (heap st))) as [pg|] eqn:Hfind; [|discriminate].
  intros [= <- <- <-].
  apply find_some in Hfind. destruct Hfind as [Hin Hcov].
  apply andb_true_iff in Hcov. rewrite Z.leb_le, Z.ltb_lt in Hcov.
  split; [exists pg|]; tauto.
Qed.

Section Recovery.

Context {P : Platform}.

(** The recovery recovers exactly the addresses an active page or a region of
    the active or public box covers; for the others it installs nothing. *)
Lemma vmpu_fault_recovery_mpu_recovers pc sp fault_addr fault_status st :
  fst (vmpu_fault_recovery_mpu pc sp fault_addr fault_status st) = 1 <->
  in_active_page st fault_addr \/
  (exists R, reachable_region st R /\ covers R fault_addr).
Proof.
  unfold vmpu_fault_recovery_mpu.
  destruct (page_allocator_get_active_region_for_address st fault_addr)
    as [[[s e] p]|] eqn:Hpage.
  - split; [|reflexivity]. intros _. left.
    exact (proj1 (page_lookup_some _ _ _ _ _ Hpage)).
  - apply page_lookup_none in Hpage.
    destruct (vmpu_fault_find_region st fault_addr) as [R|] eqn:Hfind.
    + split; [|reflexivity]. intros _. right. exists R.
      apply vmpu_fault_find_region_some. exact Hfind.
    + simpl. split; [discriminate|]. intros [Hin|(R & HR & Hcov)].
      * contradiction.
      * exfalso. exact (proj1 (vmpu_fault_find_region_none st fault_addr) Hfind R HR Hcov).
Qed.

End Recovery.

(** C4, as the code has it: [vmpu_fault_recovery_mpu] has no case for the SCR
    address and synthesises no ACL. On the SCR address it recovers exactly
    when an active page or a region of the active or public box covers that
    address; it then pushes the page's extent (config 1, priority 100,
    after reporting the fault to the allocator) or the region found, as it is
    in the table (priority 3). Otherwise it returns 0 and leaves the state as
    it was. *)
Theorem vmpu_fault_recovery_mpu_scr {P : Platform} pc sp fault_status st :
  (fst (vmpu_fault_recovery_mpu pc sp SCB_SCR fault_status st) = 1 <->
   in_active_page st SCB_SCR \/
   (exists R, reachable_region st R /\ covers R SCB_SCR)) /\
  (~ in_active_page st SCB_SCR ->
   (forall R, reachable_region st R -> ~ covers R SCB_SCR) ->
   vmpu_fault_recovery_mpu pc sp SCB_SCR fault_status st = (0, st)) /\
  (~ in_active_page st SCB_SCR ->
   forall R, vmpu_fault_find_region st SCB_SCR = Some R ->
   vmpu_fault_recovery_mpu pc sp SCB_SCR fault_status st =
   (1, snd (vmpu_mpu_push R 3 st))) /\
  (forall s e p,
   page_allocator_get_active_region_for_address st SCB_SCR = Some (s, e, p) ->
   vmpu_fault_recovery_mpu pc sp SCB_SCR fault_status st =
   (1, snd (vmpu_mpu_push {| start := s; end_ := e; config := 1; acl := 0 |} 100
              (page_allocator_register_fault p st)))).
Proof.
  split; [apply vmpu_fault_recovery_mpu_recovers|].
  split; [|split].
  - intros Hpage Hnone. unfold vmpu_fault_recovery_mpu.
    apply page_lookup_none in Hpage. rewrite Hpage.
    apply vmpu_fault_find_region_none in Hnone. rewrite Hnone. reflexivity.
  - intros Hpage R Hfind. unfold vmpu_fault_recovery_mpu.
    apply page_lookup_none in Hpage. rewrite Hpage, Hfind. reflexivity.
  - intros s e p Hpage. unfold vmpu_fault_recovery_mpu. rewrite Hpage. reflexivity.
Qed.

(** With a public region on the SCR address the recovery pushes that region,
    with the region's ACL 1. *)
Lemma vmpu_fault_recovery_mpu_scr_witness :
  @vmpu_fault_recovery_mpu spec_platform 0 0x20002000 (@SCB_SCR spec_platform) 0x48
    scb_state =
  (1, snd (@vmpu_mpu_push spec_platform (region 0xE000ED00 0xE000EE00 1) 3 scb_state)).
Proof.
  destruct (@vmpu_fault_recovery_mpu_scr spec_platform 0 0x20002000 0x48 scb_state)
    as (_ & _ & Hregion & _).
  apply Hregion.
  - intros (p & Hin & _). destruct Hin.
  - reflexivity.
Defined.

(** S3 as stated fails before any region or page exists: on the SCR address
    the recovery returns 0. *)
Lemma S3_as_stated_counterexample :
  ~ @S3_as_stated spec_platform 0 0x20002000 0x48 reset_state.
Proof.
  unfold S3_as_stated. intros (st' & Hrec & _).
  assert (Hrun : @vmpu_fault_recovery_mpu spec_platform 0 0x20002000
                   (@SCB_SCR spec_platform) 0x48 reset_state = (0, reset_state))
    by reflexivity.
  rewrite Hrun in Hrec. discriminate Hrec.
Qed.

(** ** The SRAM layout *)

Section Sram.

Context {P : Platform}.

(** One call of [vmpu_acl_sram] with a non-zero bss size, in terms of the
    cursor it starts from. *)
Lemma vmpu_acl_sram_eq box_id bss_size stack_size st :
  bss_size <> 0 ->
  let c := first_use_pos st in
  let top := wrap32 (c + rounded_stack_size stack_size) in
  let bss := wrap32 (top + UVISOR_STACK_BAND_SIZE) in
  vmpu_acl_sram box_id bss_size stack_size st =
  Some (bss, top,
        set_g_box_mem_pos
          (wrap32 (bss + wrap32 (rounded_bss_size bss_size + UVISOR_STACK_BAND_SIZE)))
          (set_g_mpu_region
             (g_mpu_region st ++
                [(box_id, {| start := c; end_ := top;
                             config := 0; acl := UVISOR_TACLDEF_STACK |});
                 (box_id, {| start := bss;
                             end_ := wrap32 (bss + rounded_bss_size bss_size);
                             config := 0; acl := UVISOR_TACLDEF_DATA |})]) st)).
Proof.
  intros Hbss. apply Z.eqb_neq in Hbss.
  unfold vmpu_acl_sram, first_use_pos, rounded_stack_size, rounded_bss_size.
  rewrite Hbss.
  destruct (g_box_mem_pos st =? 0); cbn;
    unfold set_g_box_mem_pos, set_g_mpu_region; cbn;
    rewrite <- app_assoc; reflexivity.
Qed.

Lemma first_use_pos_nonneg st : 0 <= g_box_mem_pos st -> 0 <= first_use_pos st.
Proof.
  intros H. unfold first_use_pos. destruct (g_box_mem_pos st =? 0); [|exact H].
  apply wrap32_range.
Qed.

Lemma first_use_pos_ge st : 0 <= g_box_mem_pos st -> g_box_mem_pos st <= first_use_pos st.
Proof.
  intros H. unfold first_use_pos. destruct (Z.eqb_spec (g_box_mem_pos st) 0) as [->|_].
  - apply wrap32_range.
  - lia.
Qed.

Lemma first_use_pos_set st : g_box_mem_pos st <> 0 -> first_use_pos st = g_box_mem_pos st.
Proof. intros H. unfold first_use_pos. apply Z.eqb_neq in H. rewrite H. reflexivity. Qed.

Lemma rounded_stack_size_range s : 0 <= rounded_stack_size s < 2 ^ 32.
Proof. apply wrap32_range. Qed.

Lemma rounded_bss_size_range b : 0 <= rounded_bss_size b < 2 ^ 32.
Proof. apply wrap32_range. Qed.

End Sram.

(** C6, as the code has it: a call with a non-zero bss size returns, the bss
    starts one guard band above the stack top ([bss_start] is [stack_top +
    GUARD] in 32-bit arithmetic, so [bss_start - stack_top = GUARD] where the
    sum does not wrap), and the cursor ends one guard band after the rounded
    bss. In scenario S1 the call returns [bss_start = 0x20000440] and
    [stack_top = 0x20000420] and leaves the cursor at [0x20000440 +
    round_up(200) + 32]. *)
Theorem vmpu_acl_sram_layout :
  (forall (P : Platform) box_id bss_size stack_size st,
     bss_size <> 0 ->
     exists bss_start stack_top st',
       vmpu_acl_sram box_id bss_size stack_size st = Some (bss_start, stack_top, st') /\
       stack_top = wrap32 (first_use_pos st + rounded_stack_size stack_size) /\
       bss_start = wrap32 (stack_top + UVISOR_STACK_BAND_SIZE) /\
       (0 <= UVISOR_STACK_BAND_SIZE -> stack_top + UVISOR_STACK_BAND_SIZE < 2 ^ 32 ->
        bss_start - stack_top = UVISOR_STACK_BAND_SIZE) /\
       g_box_mem_pos st' =
       wrap32 (bss_start + wrap32 (rounded_bss_size bss_size + UVISOR_STACK_BAND_SIZE))) /\
  (@vmpu_acl_sram spec_platform 1 200 1024 reset_state
   = Some (0x20000440, 0x20000420, s1_state) /\
   g_box_mem_pos s1_state = 0x20000440 + UVISOR_ROUND32 200 + 32).
Proof.
  split.
  - intros P box_id bss_size stack_size st Hbss.
    pose proof (vmpu_acl_sram_eq box_id bss_size stack_size st Hbss) as Heq.
    cbv zeta in Heq. eexists _, _, _. split; [exact Heq|].
    split; [reflexivity|]. split; [reflexivity|]. split; [|reflexivity].
    intros Hg Hfit.
    pose proof (wrap32_range (first_use_pos st + rounded_stack_size stack_size)).
    rewrite wrap32_small by lia. lia.
  - split; reflexivity.
Qed.

(** The call of S1 returns and puts the bss 32 bytes above the stack top. *)
Lemma vmpu_acl_sram_layout_witness :
  exists bss_start stack_top st',
    @vmpu_acl_sram spec_platform 1 200 1024 reset_state
    = Some (bss_start, stack_top, st') /\
    bss_start - stack_top = 32.
Proof.
  assert (Hbss : 200 <> 0) by lia.
  destruct (proj1 vmpu_acl_sram_layout spec_platform 1 200 1024 reset_state Hbss)
    as (bss_start & stack_top & st' & Hrun & Htop & _ & Hdiff & _).
  exists bss_start, stack_top, st'. split; [exact Hrun|].
  apply Hdiff.
  - simpl. lia.
  - rewrite Htop. vm_compute. reflexivity.
Defined.

(** P5 and S1 as stated fail on the call of S1: the stack top is below the
    bss start, by the guard band, and [bss_start] is 0x20000440. *)
Lemma P5_S1_as_stated_counterexample :
  ~ @P5_difference_as_stated spec_platform 1 200 1024 reset_state /\
  ~ @S1_as_stated spec_platform reset_state.
Proof.
  assert (Hrun : @vmpu_acl_sram spec_platform 1 200 1024 reset_state
                 = Some (0x20000440, 0x20000420, s1_state)) by reflexivity.
  split.
  - intros H. specialize (H _ _ _ Hrun). vm_compute in H. discriminate H.
  - intros (st' & H & _). rewrite Hrun in H. discriminate H.
Qed.

(** *** Consecutive calls *)

Lemma chained_app guard c l1 c1 l2 c2 :
  chained guard c l1 c1 -> chained guard c1 l2 c2 -> chained guard c (l1 ++ l2) c2.
Proof.
  revert c. induction l1 as [|e l1 IH]; simpl; intros c H1 H2.
  - subst c1. exact H2.
  - destruct H1 as (Hs & Hle & Hrest). repeat split; try assumption.
    apply IH; assumption.
Qed.

(** The cursor only moves up along a chain, and every extent of the chain
    lies between the two cursors, a guard band before the upper one. *)
Lemma chained_bounds guard c l c' :
  0 < guard -> chained guard c l c' ->
  c <= c' /\
  forall (i : nat) r, l !! i = Some r -> c <= start r /\ start r <= end_ r /\ end_ r + guard <= c'.
Proof.
  intros Hg. revert c. induction l as [|e l IH]; simpl; intros c Hch.
  - subst c'. split; [lia|]. intros i r Hi. destruct i; discriminate Hi.
  - destruct Hch as (Hs & Hle & Hrest).
    destruct (IH _ Hrest) as [Hcc Hin]. split; [lia|].
    intros [|i] r Hi; simpl in Hi.
    + injection Hi as <-. lia.
    + destruct (Hin i r Hi) as (H1 & H2 & H3). lia.
Qed.

Lemma chained_separated guard c l c' :
  0 < guard -> chained guard c l c' -> extents_separated guard l.
Proof.
  intros Hg Hch. split.
  - intros i r Hi. destruct (chained_bounds _ _ _ _ Hg Hch) as [_ Hin].
    destruct (Hin i r Hi) as (_ & H & _). exact H.
  - revert c Hch. induction l as [|e l IH]; simpl; intros c Hch i j ri rj Hi Hj Hlt.
    + destruct i; discriminate Hi.
    + destruct Hch as (Hs & Hle & Hrest).
      destruct j as [|j]; [lia|]. simpl in Hj.
      destruct i as [|i]; simpl in Hi.
      * injection Hi as <-.
        destruct (chained_bounds _ _ _ _ Hg Hrest) as [_ Hin].
        destruct (Hin j rj Hj) as (H1 & _ & _). lia.
      * apply (IH _ Hrest i j ri rj Hi Hj). lia.
Qed.

Lemma last_cons {A} (a d : A) l : List.last (a :: l) d = List.last l a.
Proof.
  revert a d. induction l as [|b l IH]; intros a d; [reflexivity|].
  change (List.last (a :: b :: l) d) with (List.last (b :: l) d).
  rewrite !IH. reflexivity.
Qed.

Section SramCalls.

Context {P : Platform}.

(** One call that fits in the 32-bit address space: the values it returns,
    the extents it records, the cursor it leaves. *)
Lemma vmpu_acl_sram_fits box_id bss_size stack_size st :
  0 < UVISOR_STACK_BAND_SIZE -> 0 <= g_box_mem_pos st -> bss_size <> 0 ->
  let c := first_use_pos st in
  let c' := c + rounded_stack_size stack_size + UVISOR_STACK_BAND_SIZE +
            rounded_bss_size bss_size + UVISOR_STACK_BAND_SIZE in
  c' < 2 ^ 32 ->
  exists st' e1 e2,
    vmpu_acl_sram box_id bss_size stack_size st =
    Some (c + rounded_stack_size stack_size + UVISOR_STACK_BAND_SIZE,
          c + rounded_stack_size stack_size, st') /\
    g_box_mem_pos st' = c' /\
    g_mpu_region st' = g_mpu_region st ++ [(box_id, e1); (box_id, e2)] /\
    chained UVISOR_STACK_BAND_SIZE c [e1; e2] c'.
Proof.
  intros Hg Hpos Hbss c c' Hfit. subst c'.
  pose proof (first_use_pos_nonneg st Hpos) as Hc. fold c in Hc.
  pose proof (rounded_stack_size_range stack_size) as HS.
  pose proof (rounded_bss_size_range bss_size) as HB.
  pose proof (vmpu_acl_sram_eq box_id bss_size stack_size st Hbss) as Heq.
  cbv zeta in Heq. fold c in Heq.
  rewrite (wrap32_small (c + rounded_stack_size stack_size)) in Heq by lia.
  rewrite (wrap32_small (c + rounded_stack_size stack_size + UVISOR_STACK_BAND_SIZE))
    in Heq by lia.
  rewrite (wrap32_small (rounded_bss_size bss_size + UVISOR_STACK_BAND_SIZE)) in Heq by lia.
  rewrite (wrap32_small (c + rounded_stack_size stack_size + UVISOR_STACK_BAND_SIZE +
                         rounded_bss_size bss_size)) in Heq by lia.
  rewrite (wrap32_small (c + rounded_stack_size stack_size + UVISOR_STACK_BAND_SIZE +
                         (rounded_bss_size bss_size + UVISOR_STACK_BAND_SIZE))) in Heq by lia.
  eexists _, _, _. split; [exact Heq|]. split; [simpl; lia|]. split; [reflexivity|].
  simpl. repeat split; lia.
Qed.

Lemma acl_sram_calls_fit calls :
  0 < UVISOR_STACK_BAND_SIZE ->
  List.Forall (fun c => 0 < snd (fst c)) calls ->
  forall st,
    0 <= g_box_mem_pos st ->
    first_use_pos st + sram_demand calls < 2 ^ 32 ->
    exists results extents,
      acl_sram_calls calls st = Some results /\
      g_mpu_region (final_state st results) = g_mpu_region st ++ extents /\
      chained UVISOR_STACK_BAND_SIZE (first_use_pos st) (map snd extents)
        (first_use_pos st + sram_demand calls) /\
      never_decreases (g_box_mem_pos st) (cursors results).
Proof.
  intros Hg Hall. induction Hall as [|[[box_id bss_size] stack_size] calls Hbss Hall IH];
    intros st Hpos Hfit.
  - exists [], []. simpl. unfold final_state. simpl.
    rewrite app_nil_r, Z.add_0_r. repeat split.
  - simpl in Hbss. cbn [sram_demand] in Hfit.
    pose proof (first_use_pos_nonneg st Hpos) as Hc.
    pose proof (first_use_pos_ge st Hpos) as Hge.
    pose proof (rounded_stack_size_range stack_size) as HS.
    pose proof (rounded_bss_size_range bss_size) as HB.
    assert (Hrest : 0 <= sram_demand calls).
    { clear -Hg. induction calls as [|[[b bs] ss] calls IHc]; simpl; [lia|].
      pose proof (rounded_stack_size_range ss). pose proof (rounded_bss_size_range bs). lia. }
    destruct (vmpu_acl_sram_fits box_id bss_size stack_size st Hg Hpos) as
      (st1 & e1 & e2 & Hrun & Hcur & Hreg & Hch); [lia|lia|].
    assert (Hpos1 : 0 <= g_box_mem_pos st1) by lia.
    assert (Hfirst : first_use_pos st1 = g_box_mem_pos st1)
      by (apply first_use_pos_set; lia).
    destruct (IH st1 Hpos1) as (results & extents & Hruns & Hregs & Hchs & Hmono).
    { rewrite Hfirst, Hcur. lia. }
    exists ((first_use_pos st + rounded_stack_size stack_size + UVISOR_STACK_BAND_SIZE,
             first_use_pos st + rounded_stack_size stack_size, st1) :: results),
           ([(box_id, e1); (box_id, e2)] ++ extents).
    split; [|split; [|split]].
    + cbn [acl_sram_calls]. rewrite Hrun, Hruns. reflexivity.
    + unfold final_state in *. cbn [map snd]. rewrite last_cons.
      rewrite Hregs, Hreg, <- app_assoc. reflexivity.
    + rewrite map_app. cbn [sram_demand].
      apply (chained_app _ _ _ (g_box_mem_pos st1)).
      * rewrite Hcur. exact Hch.
      * rewrite Hfirst, Hcur in Hchs.
        replace (first_use_pos st +
                 (rounded_stack_size stack_size + UVISOR_STACK_BAND_SIZE +
                  rounded_bss_size bss_size + UVISOR_STACK_BAND_SIZE + sram_demand calls))
          with (first_use_pos st + rounded_stack_size stack_size + UVISOR_STACK_BAND_SIZE +
                rounded_bss_size bss_size + UVISOR_STACK_BAND_SIZE + sram_demand calls)
          by lia.
        rewrite Hcur. exact Hchs.
    + cbn [cursors map snd never_decreases]. split; [lia|exact Hmono].
Qed.

(** C7, as the code has it: for consecutive calls with non-zero bss sizes
    whose layout fits in the 32-bit address space (the sums of the code do
    not wrap around), every call returns, the cursor never decreases, and the
    stack and bss extents the calls record are in strictly increasing address
    order, each starting at least one guard band after the end of the one
    before, the first at least a guard band above the cursor's base (the
    rounded [bss_boxes_start] on first use) and the last ending a guard band
    below the final cursor. *)
Theorem vmpu_acl_sram_consecutive calls st :
  0 < UVISOR_STACK_BAND_SIZE ->
  0 <= g_box_mem_pos st ->
  List.Forall (fun c => 0 < snd (fst c)) calls ->
  first_use_pos st + sram_demand calls < 2 ^ 32 ->
  exists results,
    acl_sram_calls calls st = Some results /\
    never_decreases (g_box_mem_pos st) (cursors results) /\
    extents_separated UVISOR_STACK_BAND_SIZE
      (recorded_extents st (final_state st results)) /\
    extents_guarded UVISOR_STACK_BAND_SIZE
      (first_use_pos st - UVISOR_STACK_BAND_SIZE)
      (first_use_pos st + sram_demand calls)
      (recorded_extents st (final_state st results)) /\
    (g_box_mem_pos st = 0 ->
     wrap32 (UVISOR_REGION_ROUND_UP bss_boxes_start) + UVISOR_STACK_BAND_SIZE < 2 ^ 32 ->
     first_use_pos st - UVISOR_STACK_BAND_SIZE =
     wrap32 (UVISOR_REGION_ROUND_UP bss_boxes_start)).
Proof.
  intros Hg Hpos Hall Hfit.
  destruct (acl_sram_calls_fit calls Hg Hall st Hpos Hfit)
    as (results & extents & Hrun & Hreg & Hch & Hmono).
  exists results. split; [exact Hrun|]. split; [exact Hmono|].
  assert (Hrec : recorded_extents st (final_state st results) = map snd extents).
  { unfold recorded_extents. rewrite Hreg, drop_app_length. reflexivity. }
  rewrite Hrec. split; [|split].
  - exact (chained_separated _ _ _ _ Hg Hch).
  - intros i r Hi. destruct (chained_bounds _ _ _ _ Hg Hch) as [_ Hin].
    destruct (Hin i r Hi) as (H1 & H2 & H3). lia.
  - intros Hzero Hbase. unfold first_use_pos. rewrite Hzero. cbn.
    pose proof (wrap32_range (UVISOR_REGION_ROUND_UP bss_boxes_start)).
    rewrite wrap32_small by lia. lia.
Qed.

End SramCalls.

(** Two boxes laid out from the reset state. *)
Lemma vmpu_acl_sram_consecutive_witness :
  exists results,
    @acl_sram_calls spec_platform [(1, 200, 1024); (2, 100, 2048)] reset_state
    = Some results /\
    never_decreases (g_box_mem_pos reset_state) (cursors results) /\
    extents_separated (@UVISOR_STACK_BAND_SIZE spec_platform)
      (recorded_extents reset_state (final_state reset_state results)) /\
    extents_guarded (@UVISOR_STACK_BAND_SIZE spec_platform)
      (@first_use_pos spec_platform reset_state - @UVISOR_STACK_BAND_SIZE spec_platform)
      (@first_use_pos spec_platform reset_state +
       @sram_demand spec_platform [(1, 200, 1024); (2, 100, 2048)])
      (recorded_extents reset_state (final_state reset_state results)) /\
    (g_box_mem_pos reset_state = 0 ->
     wrap32 (@UVISOR_REGION_ROUND_UP spec_platform (@bss_boxes_start spec_platform)) +
     @UVISOR_STACK_BAND_SIZE spec_platform < 2 ^ 32 ->
     @first_use_pos spec_platform reset_state - @UVISOR_STACK_BAND_SIZE spec_platform =
     wrap32 (@UVISOR_REGION_ROUND_UP spec_platform (@bss_boxes_start spec_platform))).
Proof.
  apply (@vmpu_acl_sram_consecutive spec_platform
           [(1, 200, 1024); (2, 100, 2048)] reset_state).
  - simpl. lia.
  - simpl. lia.
  - repeat constructor; simpl; lia.
  - vm_compute. reflexivity.
Defined.

(** P5 as stated fails where the 32-bit cursor wraps around: after box 1, a
    box asking for a stack of 0xFFFFF000 bytes moves the cursor from
    0x20000540 down to 0x1FFFF660. *)
Lemma P5_sequence_as_stated_counterexample :
  ~ @P5_sequence_as_stated spec_platform
      [(1, 200, 1024); (2, 200, 0xFFFFF000)] reset_state.
Proof.
  unfold P5_sequence_as_stated. intros H.
  assert (Hall : List.Forall (fun c : Z * Z * Z => 0 < snd (fst c))
                   [(1, 200, 1024); (2, 200, 0xFFFFF000)])
    by (repeat constructor; simpl; lia).
  destruct (@acl_sram_calls spec_platform [(1, 200, 1024); (2, 200, 0xFFFFF000)]
              reset_state) as [results|] eqn:Hrun.
  - destruct (H Hall results eq_refl) as [Hmono _].
    vm_compute in Hrun. injection Hrun as <-.
    simpl in Hmono. lia.
  - vm_compute in Hrun. discriminate Hrun.
Qed.

(** ** The box switch *)

Lemma insert_take_S {A} (l : list A) (c : nat) (v : A) :
  (c < length l)%nat -> take (S c) (<[c:=v]> l) = take c l ++ [v].
Proof.
  revert c. induction l as [|a l IH]; intros [|c] H; simpl in *; try lia.
  - reflexivity.
  - f_equal. apply IH. lia.
Qed.

Lemma occupied_app l1 l2 : occupied (l1 ++ l2) = occupied l1 ++ occupied l2.
Proof. unfold occupied. apply omap_app. Qed.

Lemma occupied_empty n : occupied (replicate n None) = [].
Proof. induction n as [|n IH]; [reflexivity|exact IH]. Qed.

Lemma occupied_full l : occupied (map Some l) = l.
Proof. induction l as [|x l IH]; [reflexivity|]. simpl. f_equal. exact IH. Qed.

Section Switch.

Context {P : Platform}.

Lemma push_list_cons x xs st :
  push_list (x :: xs) st = push_list xs (snd (vmpu_mpu_push (fst x) (snd x) st)).
Proof. reflexivity. Qed.

Lemma push_list_app xs ys st :
  push_list (xs ++ ys) st = push_list ys (push_list xs st).
Proof. unfold push_list. apply fold_left_app. Qed.

(** Pushing touches the slot cache only. *)
Lemma push_list_frame xs st :
  g_mpu_region (push_list xs st) = g_mpu_region st /\
  heap (push_list xs st) = heap st /\
  g_active_box (push_list xs st) = g_active_box st.
Proof.
  revert st. induction xs as [|x xs IH]; intros st; [repeat split|].
  rewrite push_list_cons. destruct (IH (snd (vmpu_mpu_push (fst x) (snd x) st)))
    as (H1 & H2 & H3).
  rewrite H1, H2, H3. repeat split.
Qed.

(** A push that is not the last one of the room moves the cursor by one and
    does not wrap. *)
Lemma push_keeps_room r priority st n :
  has_room st (S n) -> has_room (snd (vmpu_mpu_push r priority st)) n.
Proof.
  intros [Hn|[Hw Hc]]; [discriminate Hn|].
  destruct n as [|n]; [left; reflexivity|]. right.
  unfold vmpu_mpu_push. cbn.
  assert (Hnext : (ARMv8M_SAU_REGIONS_MAX <=? S (g_mpu_slot (cache st)))%nat = false)
    by (apply Nat.leb_gt; lia).
  rewrite Hnext, Hw. split; [reflexivity|lia].
Qed.

Lemma push_in_room r priority st n :
  has_room st (S n) -> fst (vmpu_mpu_push r priority st) = true.
Proof.
  intros [Hn|[Hw Hc]]; [discriminate Hn|].
  unfold vmpu_mpu_push. cbn. rewrite Hw. reflexivity.
Qed.

Lemma has_room_weaken st n m : has_room st (n + m) -> has_room st n.
Proof.
  intros [H|[Hw Hc]].
  - left. lia.
  - right. split; [exact Hw|lia].
Qed.

Lemma push_list_keeps_room xs st m :
  has_room st (length xs + m) -> has_room (push_list xs st) m.
Proof.
  revert st. induction xs as [|x xs IH]; intros st H; [exact H|].
  rewrite push_list_cons. apply IH. apply push_keeps_room. exact H.
Qed.

(** With room for all of them, the loop over the regions pushes every one. *)
Lemma push_regions_list rs priority st :
  has_room st (length rs) ->
  push_regions rs priority st = push_list (map (fun r => (r, priority)) rs) st.
Proof.
  revert st. induction rs as [|r rs IH]; intros st H; [reflexivity|].
  cbn [push_regions map]. rewrite push_list_cons. cbn [fst snd].
  pose proof (push_in_room r priority st _ H) as Hok.
  pose proof (push_keeps_room r priority st _ H) as Hroom.
  destruct (vmpu_mpu_push r priority st) as [ok st'] eqn:Hpush.
  cbn [fst snd] in *. subst ok. apply IH. exact Hroom.
Qed.

(** With room for all of them, the iteration pushes every active page. *)
Lemma iterate_pages_list pages st :
  has_room st (length pages) ->
  iterate_pages vmpu_mem_push_page_acl_iterator pages st =
  push_list (map (fun p => (page_region p, 100)) pages) st.
Proof.
  revert st. induction pages as [|p pages IH]; intros st H; [reflexivity|].
  cbn [iterate_pages map]. rewrite push_list_cons. cbn [fst snd].
  unfold vmpu_mem_push_page_acl_iterator at 1. fold (page_region p).
  pose proof (push_in_room (page_region p) 100 st _ H) as Hok.
  pose proof (push_keeps_room (page_region p) 100 st _ H) as Hroom.
  destruct (vmpu_mpu_push (page_region p) 100 st) as [ok st'] eqn:Hpush.
  cbn [fst snd] in *. subst ok. cbn. apply IH. exact Hroom.
Qed.

(** The slots after pushes that stay below the end of the slot array. *)
Lemma push_list_slots xs st :
  (g_mpu_slot (cache st) + length xs <= ARMv8M_SAU_REGIONS_MAX)%nat ->
  length (g_mpu_slots (cache st)) = ARMv8M_SAU_REGIONS_MAX ->
  g_mpu_slots (cache (push_list xs st)) =
  take (g_mpu_slot (cache st)) (g_mpu_slots (cache st)) ++ map Some xs ++
  drop (g_mpu_slot (cache st) + length xs) (g_mpu_slots (cache st)).
Proof.
  revert st. induction xs as [|x xs IH]; intros st Hfit Hlen.
  - cbn [push_list fold_left map length app]. rewrite Nat.add_0_r, take_drop. reflexivity.
  - rewrite push_list_cons. cbn [length] in Hfit.
    assert (Hslots : g_mpu_slots (cache (snd (vmpu_mpu_push (fst x) (snd x) st))) =
                     <[g_mpu_slot (cache st) := Some x]> (g_mpu_slots (cache st)))
      by (destruct x; reflexivity).
    destruct xs as [|y ys].
    + cbn [push_list fold_left map length app]. rewrite Hslots.
      rewrite insert_take_drop by lia. rewrite Nat.add_1_r. reflexivity.
    + cbn [length] in Hfit.
      assert (Hnext : (ARMv8M_SAU_REGIONS_MAX <=? S (g_mpu_slot (cache st)))%nat = false)
        by (apply Nat.leb_gt; lia).
      assert (Hcur : g_mpu_slot (cache (snd (vmpu_mpu_push (fst x) (snd x) st))) =
                     S (g_mpu_slot (cache st))).
      { unfold vmpu_mpu_push. cbn. rewrite Hnext. reflexivity. }
      rewrite IH.
      * rewrite Hcur, Hslots. rewrite insert_take_S by lia.
        rewrite drop_insert_lt by lia. rewrite <- app_assoc.
        cbn [map length app].
        replace (S (g_mpu_slot (cache st)) + S (length ys))%nat
          with (g_mpu_slot (cache st) + S (S (length ys)))%nat by lia.
        reflexivity.
      * rewrite Hcur. cbn [length]. lia.
      * rewrite Hslots, length_insert. exact Hlen.
Qed.

(** With room for the whole list of P4 in the dynamic slots, the switch
    invalidates and pushes the list. *)
Lemma vmpu_switch_pushes src_box dst_box st :
  (ARMv8M_SAU_REGIONS_STATIC + length (switch_pushes dst_box st)
   <= ARMv8M_SAU_REGIONS_MAX)%nat ->
  (dst_box <> 0 -> vmpu_region_get_for_box st dst_box <> []) ->
  vmpu_switch src_box dst_box st =
  Some (push_list (switch_pushes dst_box st) (vmpu_mpu_invalidate st)).
Proof.
  intros Hfit Hstack.
  set (st0 := vmpu_mpu_invalidate st).
  assert (Hroom : has_room st0 (length (switch_pushes dst_box st))).
  { right. split; [reflexivity|exact Hfit]. }
  assert (Hreg : forall xs b,
             vmpu_region_get_for_box (push_list xs st0) b = vmpu_region_get_for_box st b).
  { intros xs b. unfold vmpu_region_get_for_box.
    destruct (push_list_frame xs st0) as (-> & _). reflexivity. }
  unfold vmpu_switch. fold st0. unfold switch_pushes in *.
  destruct (Z.eqb_spec dst_box 0) as [Hdst|Hdst].
  - cbn [take drop map app] in *.
    rewrite length_app, !length_map in Hroom.
    unfold page_allocator_iterate_active_pages.
    change (active_pages (heap st0)) with (active_pages (heap st)).
    rewrite iterate_pages_list
      by (apply (has_room_weaken _ _ _ Hroom)).
    cbn [push_regions]. rewrite Hreg.
    rewrite push_regions_list.
    + rewrite push_list_app. reflexivity.
    + apply push_list_keeps_room. rewrite !length_map. exact Hroom.
  - change (vmpu_region_get_for_box st0 dst_box) with (vmpu_region_get_for_box st dst_box).
    destruct (vmpu_region_get_for_box st dst_box) as [|r rest] eqn:Hbox.
    { exfalso. apply (Hstack Hdst). reflexivity. }
    cbn [take drop map app length] in *. rewrite ?take_0, ?drop_0 in *.
    cbn [map app length] in *. rewrite ?app_nil_r in *.
    rewrite length_app, !length_map in Hroom.
    set (st1 := snd (vmpu_mpu_push r 255 st0)).
    assert (Hroom1 : has_room st1 (length (active_pages (heap st)) + length rest))
      by (apply push_keeps_room; exact Hroom).
    unfold page_allocator_iterate_active_pages.
    change (active_pages (heap st1)) with (active_pages (heap st)).
    rewrite iterate_pages_list by (apply (has_room_weaken _ _ _ Hroom1)).
    rewrite push_regions_list.
    + rewrite push_list_cons, push_list_app. reflexivity.
    + apply push_list_keeps_room. rewrite !length_map. exact Hroom1.
Qed.

(** *** The slot cache stays in order *)

Lemma vmpu_mpu_invalidate_wf_len st :
  length (g_mpu_slots (cache st)) = ARMv8M_SAU_REGIONS_MAX ->
  (ARMv8M_SAU_REGIONS_STATIC < ARMv8M_SAU_REGIONS_MAX)%nat ->
  cache_wf (vmpu_mpu_invalidate st).
Proof.
  intros Hlen Hlt. split; cbn.
  - rewrite length_app, length_take, length_replicate. lia.
  - lia.
Qed.

Lemma vmpu_mpu_invalidate_wf st : cache_wf st -> cache_wf (vmpu_mpu_invalidate st).
Proof. intros [Hlen Hcur]. apply vmpu_mpu_invalidate_wf_len; [exact Hlen|lia]. Qed.

Lemma vmpu_mpu_invalidate_static_len st :
  (ARMv8M_SAU_REGIONS_STATIC <= length (g_mpu_slots (cache st)))%nat ->
  static_slots (vmpu_mpu_invalidate st) = static_slots st.
Proof.
  intros Hlen. unfold static_slots. cbn.
  rewrite take_app_le by (rewrite length_take; lia).
  rewrite take_take. f_equal. lia.
Qed.

Lemma vmpu_mpu_invalidate_static st :
  cache_wf st -> static_slots (vmpu_mpu_invalidate st) = static_slots st.
Proof. intros [Hlen Hcur]. apply vmpu_mpu_invalidate_static_len. lia. Qed.

Lemma vmpu_mpu_invalidate_dynamic_len st :
  length (g_mpu_slots (cache st)) = ARMv8M_SAU_REGIONS_MAX ->
  (ARMv8M_SAU_REGIONS_STATIC <= ARMv8M_SAU_REGIONS_MAX)%nat ->
  dynamic_slots (vmpu_mpu_invalidate st) = replicate dynamic_slot_count None.
Proof.
  intros Hlen Hle. unfold dynamic_slots, dynamic_slot_count. cbn.
  rewrite drop_app_length' by (rewrite length_take; lia).
  rewrite Hlen. reflexivity.
Qed.

Lemma vmpu_mpu_invalidate_dynamic st :
  cache_wf st ->
  dynamic_slots (vmpu_mpu_invalidate st) =
  replicate (ARMv8M_SAU_REGIONS_MAX - ARMv8M_SAU_REGIONS_STATIC)%nat None.
Proof. intros [Hlen Hcur]. apply vmpu_mpu_invalidate_dynamic_len; [exact Hlen|lia]. Qed.

Lemma vmpu_mpu_push_wf r p st : cache_wf st -> cache_wf (snd (vmpu_mpu_push r p st)).
Proof.
  intros [Hlen Hcur]. split; cbn.
  - rewrite length_insert. exact Hlen.
  - destruct (ARMv8M_SAU_REGIONS_MAX <=? S (g_mpu_slot (cache st)))%nat eqn:Hwrap.
    + lia.
    + apply Nat.leb_gt in Hwrap. lia.
Qed.

Lemma vmpu_mpu_push_static r p st :
  cache_wf st -> static_slots (snd (vmpu_mpu_push r p st)) = static_slots st.
Proof.
  intros [Hlen Hcur]. unfold static_slots. cbn. apply take_insert_ge. lia.
Qed.

Lemma push_list_wf xs st : cache_wf st -> cache_wf (push_list xs st).
Proof.
  revert st. induction xs as [|x xs IH]; intros st Hwf; [exact Hwf|].
  rewrite push_list_cons. apply IH. apply vmpu_mpu_push_wf. exact Hwf.
Qed.

Lemma push_list_static xs st :
  cache_wf st -> static_slots (push_list xs st) = static_slots st.
Proof.
  revert st. induction xs as [|x xs IH]; intros st Hwf; [reflexivity|].
  rewrite push_list_cons. rewrite IH by (apply vmpu_mpu_push_wf; exact Hwf).
  apply vmpu_mpu_push_static. exact Hwf.
Qed.

(** *** The pushes past the slot budget *)

(** With the budget spent a push returns false. *)
Lemma push_out_of_budget r p st :
  cache_wf st -> slot_budget st = 0%nat -> fst (vmpu_mpu_push r p st) = false.
Proof.
  intros [Hlen Hcur]. unfold slot_budget, vmpu_mpu_push. cbn [fst].
  destruct (g_mpu_wrapped (cache st)); [reflexivity|]. lia.
Qed.

(** With budget left a push returns true and takes one off the budget. *)
Lemma push_within_budget r p st n :
  cache_wf st -> slot_budget st = S n ->
  fst (vmpu_mpu_push r p st) = true /\ slot_budget (snd (vmpu_mpu_push r p st)) = n.
Proof.
  intros [Hlen Hcur]. unfold slot_budget, vmpu_mpu_push. cbn.
  destruct (g_mpu_wrapped (cache st)); [discriminate|]. cbn. intros Hb.
  split; [reflexivity|].
  destruct (Nat.leb_spec ARMv8M_SAU_REGIONS_MAX (S (g_mpu_slot (cache st)))); lia.
Qed.

Lemma slot_budget_push r p st :
  cache_wf st ->
  slot_budget (snd (vmpu_mpu_push r p st)) = pred (slot_budget st).
Proof.
  intros Hwf. destruct (slot_budget st) as [|n] eqn:Hb.
  - unfold slot_budget in *. cbn.
    destruct (g_mpu_wrapped (cache st)); [reflexivity|].
    destruct Hwf as [_ Hcur]. lia.
  - apply (push_within_budget r p st n Hwf Hb).
Qed.

Lemma slot_budget_push_list xs st :
  cache_wf st ->
  slot_budget (push_list xs st) = (slot_budget st - length xs)%nat.
Proof.
  revert st. induction xs as [|x xs IH]; intros st Hwf.
  - cbn [push_list fold_left length]. lia.
  - rewrite push_list_cons. rewrite IH by (apply vmpu_mpu_push_wf; exact Hwf).
    rewrite slot_budget_push by exact Hwf. cbn [length]. lia.
Qed.

(** The loop over the regions makes one push more than the budget has, or
    all of them. *)
Lemma push_regions_budget rs priority st :
  cache_wf st ->
  push_regions rs priority st =
  push_list (map (fun r => (r, priority)) (take (S (slot_budget st)) rs)) st.
Proof.
  revert st. induction rs as [|r rs IH]; intros st Hwf; [reflexivity|].
  cbn [push_regions take map]. rewrite push_list_cons. cbn [fst snd].
  destruct (slot_budget st) as [|n] eqn:Hb.
  - pose proof (push_out_of_budget r priority st Hwf Hb) as Hok.
    destruct (vmpu_mpu_push r priority st) as [ok st'].
    cbn [fst snd] in *. subst ok. rewrite take_0. reflexivity.
  - destruct (push_within_budget r priority st n Hwf Hb) as [Hok Hn].
    pose proof (vmpu_mpu_push_wf r priority st Hwf) as Hwf'.
    destruct (vmpu_mpu_push r priority st) as [ok st'].
    cbn [fst snd] in *. subst ok. rewrite (IH st' Hwf'), Hn. reflexivity.
Qed.

(** So does the iteration over the active pages. *)
Lemma iterate_pages_budget pages st :
  cache_wf st ->
  iterate_pages vmpu_mem_push_page_acl_iterator pages st =
  push_list (map (fun p => (page_region p, 100)) (take (S (slot_budget st)) pages)) st.
Proof.
  revert st. induction pages as [|p pages IH]; intros st Hwf; [reflexivity|].
  cbn [iterate_pages take map]. rewrite push_list_cons. cbn [fst snd].
  unfold vmpu_mem_push_page_acl_iterator at 1. fold (page_region p).
  destruct (slot_budget st) as [|n] eqn:Hb.
  - pose proof (push_out_of_budget (page_region p) 100 st Hwf Hb) as Hok.
    destruct (vmpu_mpu_push (page_region p) 100 st) as [ok st'].
    cbn [fst snd] in *. subst ok. rewrite take_0. reflexivity.
  - destruct (push_within_budget (page_region p) 100 st n Hwf Hb) as [Hok Hn].
    pose proof (vmpu_mpu_push_wf (page_region p) 100 st Hwf) as Hwf'.
    destruct (vmpu_mpu_push (page_region p) 100 st) as [ok st'].
    cbn [fst snd] in *. subst ok. cbn. rewrite (IH st' Hwf'), Hn. reflexivity.
Qed.

(** Whatever the budget, the switch invalidates and makes the pushes of
    [switch_performed]. *)
Lemma vmpu_switch_performed src_box dst_box st :
  cache_wf (vmpu_mpu_invalidate st) ->
  (dst_box <> 0 -> vmpu_region_get_for_box st dst_box <> []) ->
  vmpu_switch src_box dst_box st =
  Some (push_list (switch_performed dst_box st) (vmpu_mpu_invalidate st)).
Proof.
  intros Hwf Hstack.
  assert (Hreg : forall xs b,
             vmpu_region_get_for_box (push_list xs (vmpu_mpu_invalidate st)) b =
             vmpu_region_get_for_box st b).
  { intros xs b. unfold vmpu_region_get_for_box.
    destruct (push_list_frame xs (vmpu_mpu_invalidate st)) as (-> & _). reflexivity. }
  assert (Hbudget : slot_budget (vmpu_mpu_invalidate st) = dynamic_slot_count)
    by reflexivity.
  unfold vmpu_switch, switch_performed.
  destruct (Z.eqb_spec dst_box 0) as [Hdst|Hdst].
  - cbn [take drop map app length]. rewrite Nat.sub_0_r.
    unfold page_allocator_iterate_active_pages.
    change (active_pages (heap (vmpu_mpu_invalidate st))) with (active_pages (heap st)).
    rewrite iterate_pages_budget by exact Hwf.
    cbn [push_regions]. rewrite Hreg.
    rewrite push_regions_budget by (apply push_list_wf; exact Hwf).
    rewrite slot_budget_push_list by exact Hwf.
    rewrite Hbudget, push_list_app, !firstn_map. reflexivity.
  - change (vmpu_region_get_for_box (vmpu_mpu_invalidate st) dst_box)
      with (vmpu_region_get_for_box st dst_box).
    destruct (vmpu_region_get_for_box st dst_box) as [|r rest] eqn:Hbox.
    { exfalso. apply (Hstack Hdst). reflexivity. }
    cbn [take drop map app length]. rewrite ?take_0, ?drop_0.
    cbn [map app length]. rewrite ?app_nil_r.
    pose proof (vmpu_mpu_push_wf r 255 _ Hwf) as Hwf1.
    assert (Hb1 : slot_budget (snd (vmpu_mpu_push r 255 (vmpu_mpu_invalidate st))) =
                  (dynamic_slot_count - 1)%nat)
      by (rewrite slot_budget_push, Hbudget by exact Hwf; lia).
    unfold page_allocator_iterate_active_pages.
    change (active_pages (heap (snd (vmpu_mpu_push r 255 (vmpu_mpu_invalidate st)))))
      with (active_pages (heap st)).
    rewrite iterate_pages_budget by exact Hwf1.
    rewrite push_regions_budget by (apply push_list_wf; exact Hwf1).
    rewrite slot_budget_push_list by exact Hwf1.
    rewrite Hb1, push_list_cons, push_list_app, !firstn_map. cbn [fst snd].
    rewrite <- Nat.sub_add_distr. cbn [Nat.add]. reflexivity.
Qed.

(** Cutting each of three lists where the budget ends changes nothing when
    together they are within the budget. *)
Lemma performed_fits {A} (d : nat) (a b c : list A) :
  (length (a ++ b ++ c) <= d)%nat ->
  a ++ take (S (d - length a)) b ++
  take (S (d - length (a ++ take (S (d - length a)) b))) c = a ++ b ++ c.
Proof.
  rewrite !length_app. intros H.
  rewrite (take_ge b) by lia. rewrite (take_ge c) by lia.
  reflexivity.
Qed.

Lemma take_S_drop {A} (k : nat) (l : list A) :
  take (S k) l = take k l ++ take 1 (drop k l).
Proof.
  revert l. induction k as [|k IH]; intros [|x l]; try reflexivity.
  - cbn [take drop app]. rewrite IH. reflexivity.
Qed.

(** When together they are longer than the budget, the cuts leave the first
    [d] entries, the entry after them and, when the second list was cut, the
    first entry of the third. *)
Lemma performed_over {A} (d : nat) (a b c : list A) :
  (length a <= d)%nat -> (d < length (a ++ b ++ c))%nat ->
  a ++ take (S (d - length a)) b ++
  take (S (d - length (a ++ take (S (d - length a)) b))) c =
  take d (a ++ b ++ c) ++
  (take 1 (drop d (a ++ b ++ c)) ++
   (if (d <? length a + length b)%nat then take 1 c else [])).
Proof.
  rewrite !length_app. intros Ha Hover.
  destruct (Nat.ltb_spec d (length a + length b)) as [Hcut|Hall].
  - assert (Hlb : length (take (S (d - length a)) b) = S (d - length a))
      by (rewrite length_take; lia).
    rewrite Hlb.
    replace (S (d - (length a + S (d - length a)))) with 1%nat by lia.
    rewrite take_app_ge by lia. rewrite drop_app_ge by lia.
    rewrite take_app_le by lia. rewrite drop_app_le by lia.
    rewrite (take_app_le (drop (d - length a) b)) by (rewrite length_drop; lia).
    rewrite take_S_drop, <- !app_assoc. reflexivity.
  - rewrite (take_ge b) by lia.
    rewrite take_app_ge by lia. rewrite drop_app_ge by lia.
    rewrite take_app_ge by lia. rewrite drop_app_ge by lia.
    rewrite take_S_drop, app_nil_r, <- !app_assoc.
    replace (d - length a - length b)%nat with (d - (length a + length b))%nat by lia.
    reflexivity.
Qed.

Lemma switch_performed_fits dst_box st :
  (length (switch_pushes dst_box st) <= dynamic_slot_count)%nat ->
  switch_performed dst_box st = switch_pushes dst_box st.
Proof. intros H. unfold switch_performed. apply performed_fits. exact H. Qed.

Lemma switch_performed_over dst_box st :
  (1 <= dynamic_slot_count)%nat ->
  (dynamic_slot_count < length (switch_pushes dst_box st))%nat ->
  switch_performed dst_box st =
  take dynamic_slot_count (switch_pushes dst_box st) ++ switch_overflow dst_box st.
Proof.
  intros Hd H. unfold switch_performed, switch_overflow.
  rewrite <- (length_map (fun p => (page_region p, 100)) (active_pages (heap st))).
  rewrite <- (length_map (fun r => (r, 255))
                (take 1 (if dst_box =? 0 then [] else vmpu_region_get_for_box st dst_box))).
  apply performed_over; [|exact H].
  rewrite length_map, length_take. lia.
Qed.

Lemma switch_overflow_length dst_box st :
  (dynamic_slot_count < length (switch_pushes dst_box st))%nat ->
  (1 <= length (switch_overflow dst_box st) <= 2)%nat.
Proof.
  intros H. unfold switch_overflow. rewrite length_app, length_take, length_drop.
  destruct (_ <? _)%nat; [rewrite length_take|cbn [length]]; lia.
Qed.

(** *** The slots after the pushes *)

Lemma push_list_cursor xs st :
  (g_mpu_slot (cache st) + length xs < ARMv8M_SAU_REGIONS_MAX)%nat ->
  g_mpu_slot (cache (push_list xs st)) = (g_mpu_slot (cache st) + length xs)%nat.
Proof.
  revert st. induction xs as [|x xs IH]; intros st H.
  - cbn [push_list fold_left length]. lia.
  - rewrite push_list_cons. cbn [length] in *.
    assert (Hcur : g_mpu_slot (cache (snd (vmpu_mpu_push (fst x) (snd x) st))) =
                   S (g_mpu_slot (cache st))).
    { unfold vmpu_mpu_push. cbn.
      destruct (Nat.leb_spec ARMv8M_SAU_REGIONS_MAX (S (g_mpu_slot (cache st))));
        [lia|reflexivity]. }
    rewrite IH; rewrite Hcur; lia.
Qed.

(** The push into the last slot puts the cursor back on the first dynamic
    slot. *)
Lemma push_list_cursor_fill xs st :
  xs <> [] ->
  (g_mpu_slot (cache st) + length xs = ARMv8M_SAU_REGIONS_MAX)%nat ->
  g_mpu_slot (cache (push_list xs st)) = ARMv8M_SAU_REGIONS_STATIC.
Proof.
  intros Hne H. destruct (exists_last Hne) as (ys & y & ->).
  rewrite length_app in H. cbn [length] in H.
  rewrite push_list_app. cbn [push_list fold_left].
  unfold vmpu_mpu_push. cbn.
  fold (push_list ys st). rewrite push_list_cursor by lia.
  destruct (Nat.leb_spec ARMv8M_SAU_REGIONS_MAX (S (g_mpu_slot (cache st) + length ys)));
    [reflexivity|lia].
Qed.

(** Pushes from the first dynamic slot on that stay below the end of the
    slot array replace the first dynamic slots. *)
Lemma push_list_dynamic xs st :
  g_mpu_slot (cache st) = ARMv8M_SAU_REGIONS_STATIC ->
  length (g_mpu_slots (cache st)) = ARMv8M_SAU_REGIONS_MAX ->
  (ARMv8M_SAU_REGIONS_STATIC + length xs <= ARMv8M_SAU_REGIONS_MAX)%nat ->
  dynamic_slots (push_list xs st) = map Some xs ++ drop (length xs) (dynamic_slots st).
Proof.
  intros Hcur Hlen Hfit. unfold dynamic_slots.
  rewrite push_list_slots by (rewrite ?Hcur; assumption).
  rewrite Hcur, drop_app_length' by (rewrite length_take; lia).
  rewrite drop_drop. reflexivity.
Qed.

(** C5, as the code has it (with at least two dynamic slots, and a stack
    region where the target is a secure box). The switch returns and leaves
    the static slots unchanged. The list of P4 is [b]'s first region at 255
    if [b] is not 0, the active pages at 100, the further regions of [b] at 2
    and the public regions at 1 iff [b] is 0. Where the list is no longer
    than the dynamic slots are many, the switch is the invalidate and the
    pushes of the list: the dynamic slots hold the list in push order from
    the first dynamic slot on, and are empty after it. Where the list is
    longer, the switch is the invalidate, the pushes of the list up to the
    slot budget (as many entries as there are dynamic slots), and the one or
    two pushes of [switch_overflow], which replace the first of them: the
    dynamic slots hold the regions of [switch_overflow] and after these the
    entries of the list up to the slot budget, but for as many of the
    first. *)
Theorem vmpu_switch_slot_budget src_box dst_box st :
  length (g_mpu_slots (cache st)) = ARMv8M_SAU_REGIONS_MAX ->
  (2 <= dynamic_slot_count)%nat ->
  (dst_box <> 0 -> vmpu_region_get_for_box st dst_box <> []) ->
  exists st',
    vmpu_switch src_box dst_box st = Some st' /\
    static_slots st' = static_slots st /\
    ((length (switch_pushes dst_box st) <= dynamic_slot_count)%nat ->
     st' = push_list (switch_pushes dst_box st) (vmpu_mpu_invalidate st) /\
     dynamic_slots st' =
     map Some (switch_pushes dst_box st) ++
     replicate (dynamic_slot_count - length (switch_pushes dst_box st))%nat None /\
     occupied (dynamic_slots st') = switch_pushes dst_box st) /\
    ((dynamic_slot_count < length (switch_pushes dst_box st))%nat ->
     st' = push_list (take dynamic_slot_count (switch_pushes dst_box st) ++
                      switch_overflow dst_box st) (vmpu_mpu_invalidate st) /\
     dynamic_slots st' =
     map Some (switch_overflow dst_box st ++
               drop (length (switch_overflow dst_box st))
                    (take dynamic_slot_count (switch_pushes dst_box st))) /\
     (1 <= length (switch_overflow dst_box st) <= 2)%nat).
Proof.
  intros Hlen Hdyn Hstack. unfold dynamic_slot_count in Hdyn.
  assert (Hwf : cache_wf (vmpu_mpu_invalidate st))
    by (apply vmpu_mpu_invalidate_wf_len; [exact Hlen|lia]).
  assert (Hempty : dynamic_slots (vmpu_mpu_invalidate st) =
                   replicate dynamic_slot_count None)
    by (apply vmpu_mpu_invalidate_dynamic_len; [exact Hlen|lia]).
  exists (push_list (switch_performed dst_box st) (vmpu_mpu_invalidate st)).
  split; [apply vmpu_switch_performed; assumption|]. split; [|split].
  - rewrite push_list_static by exact Hwf.
    apply vmpu_mpu_invalidate_static_len. lia.
  - intros Hfit. rewrite switch_performed_fits by exact Hfit.
    assert (Hslots : dynamic_slots (push_list (switch_pushes dst_box st)
                                      (vmpu_mpu_invalidate st)) =
                     map Some (switch_pushes dst_box st) ++
                     replicate (dynamic_slot_count - length (switch_pushes dst_box st))%nat
                       None).
    { rewrite push_list_dynamic.
      - rewrite Hempty, drop_replicate. reflexivity.
      - reflexivity.
      - apply Hwf.
      - unfold dynamic_slot_count in Hfit. lia. }
    split; [reflexivity|]. split; [exact Hslots|].
    rewrite Hslots, occupied_app, occupied_full, occupied_empty, app_nil_r. reflexivity.
  - intros Hover.
    pose proof (switch_overflow_length dst_box st Hover) as Hextra.
    rewrite switch_performed_over by (unfold dynamic_slot_count; lia || exact Hover).
    split; [reflexivity|]. split; [|exact Hextra].
    rewrite push_list_app.
    assert (Hfull : length (take dynamic_slot_count (switch_pushes dst_box st)) =
                    dynamic_slot_count) by (rewrite length_take; lia).
    set (filled := push_list (take dynamic_slot_count (switch_pushes dst_box st))
                     (vmpu_mpu_invalidate st)).
    assert (Hfilled : dynamic_slots filled =
                      map Some (take dynamic_slot_count (switch_pushes dst_box st))).
    { unfold filled. rewrite push_list_dynamic.
      - rewrite Hfull, Hempty, drop_replicate, Nat.sub_diag, app_nil_r. reflexivity.
      - reflexivity.
      - apply Hwf.
      - rewrite Hfull. unfold dynamic_slot_count. lia. }
    rewrite push_list_dynamic.
    + rewrite Hfilled, map_app, skipn_map. reflexivity.
    + unfold filled. apply push_list_cursor_fill.
      * intros Hnil. rewrite Hnil in Hfull. cbn in Hfull.
        unfold dynamic_slot_count in Hfull. lia.
      * rewrite Hfull. unfold dynamic_slot_count.
        change (g_mpu_slot (cache (vmpu_mpu_invalidate st)))
          with ARMv8M_SAU_REGIONS_STATIC. lia.
    + apply (push_list_wf _ _ Hwf).
    + unfold dynamic_slot_count in Hdyn |- *. lia.
Qed.

End Switch.

(** Scenario S6, within the budget: after [switch(1, 0)] the dynamic slots
    hold the two pages and the five public regions, in this order, from the
    first dynamic slot on. The public box of [paged_out_state], past the
    budget: the thirteenth page and the first public region are in the first
    two dynamic slots, the pages 3 to 12 in the others. *)
Lemma vmpu_switch_slot_budget_witness :
  (exists st',
     @vmpu_switch spec_platform 1 0 s6_state = Some st' /\
     @dynamic_slots spec_platform st' =
     map Some (switch_pushes 0 s6_state) ++ replicate 5 None) /\
  (exists st',
     @vmpu_switch spec_platform 1 0 paged_out_state = Some st' /\
     @dynamic_slots spec_platform st' =
     map Some (@switch_overflow spec_platform 0 paged_out_state ++
               drop 2 (take 12 (switch_pushes 0 paged_out_state)))).
Proof.
  split.
  - destruct (@vmpu_switch_slot_budget spec_platform 1 0 s6_state)
      as (st' & Hrun & _ & Hfits & _).
    + reflexivity.
    + vm_compute. lia.
    + intros H. exfalso. apply H. reflexivity.
    + exists st'. split; [exact Hrun|]. apply Hfits. vm_compute. lia.
  - destruct (@vmpu_switch_slot_budget spec_platform 1 0 paged_out_state)
      as (st' & Hrun & _ & _ & Hover).
    + reflexivity.
    + vm_compute. lia.
    + intros H. exfalso. apply H. reflexivity.
    + exists st'. split; [exact Hrun|]. apply Hover. vm_compute. lia.
Defined.

(** The list of P4 and the pushes past the budget in [paged_out_state]: 13
    pages and 2 public regions for 12 dynamic slots. The thirteenth page and
    the first public region are pushed past the budget, the second public
    region is not pushed. *)
Example switch_overflow_paged_out :
  length (switch_pushes 0 paged_out_state) = 15%nat /\
  map (fun x => (start (fst x), snd x)) (@switch_overflow spec_platform 0 paged_out_state) =
  [(0x20028000, 100); (0x40000000, 1)].
Proof. split; reflexivity. Qed.

(** A secure box with 14 regions: the push of the thirteenth region past the
    budget replaces the stack region in the first dynamic slot, and the
    fourteenth region is not pushed. *)
Example switch_overflow_crowded_secure :
  map (fun x => (start (fst x), snd x))
      (@switch_overflow spec_platform 1 crowded_secure_state) = [(0x4000C000, 2)] /\
  exists st',
    @vmpu_switch spec_platform 0 1 crowded_secure_state = Some st' /\
    map (option_map (fun x => (start (fst x), snd x))) (@dynamic_slots spec_platform st') =
    map (fun i => Some (0x40000000 + 0x1000 * Z.of_nat i, 2))
        (12%nat :: seq 1 11).
Proof. split; [reflexivity|]. eexists. split; reflexivity. Qed.

(** From [s6_state], [switch(1, 0)] and then [switch(0, 1)]: the stack of
    box 1 is in the first dynamic slot, slot 4, the two pages and the
    further two regions of box 1 after it. A second [switch(1, 0)] leaves
    the slots the first one left. *)
Example vmpu_switch_after_switch_s6 :
  (exists st' st'',
     @vmpu_switch spec_platform 1 0 s6_state = Some st' /\
     @vmpu_switch spec_platform 0 1 st' = Some st'' /\
     map (option_map (fun x => (start (fst x), snd x))) (@dynamic_slots spec_platform st'') =
     [Some (0x20000020, 255); Some (0x20010000, 100); Some (0x20012000, 100);
      Some (0x20000440, 2); Some (0x40020000, 2)] ++ replicate 7 None) /\
  (exists st' st'',
     @vmpu_switch spec_platform 1 0 s6_state = Some st' /\
     @vmpu_switch spec_platform 1 0 st' = Some st'' /\
     g_mpu_slots (cache st'') = g_mpu_slots (cache st')).
Proof.
  split; eexists; eexists; (split; [reflexivity|]); split; reflexivity.
Qed.

Example switch_pushes_s6 :
  map (fun x => (start (fst x), snd x)) (switch_pushes 0 s6_state) =
  [(0x20010000, 100); (0x20012000, 100);
   (0x40000000, 1); (0x40001000, 1); (0x40002000, 1); (0x40003000, 1); (0x40004000, 1)].
Proof. reflexivity. Qed.

(** P4 as stated fails where the public box has more regions than there are
    dynamic slots: of the 13 public regions of [crowded_state] the switch to
    box 0 pushes 12 that return true, the thirteenth push returns false after
    it has replaced the first region, and the loop ends; the twelve dynamic
    slots do not hold the 13 regions. *)
Lemma P4_as_stated_counterexample :
  ~ @P4_as_stated spec_platform 1 0 crowded_state.
Proof.
  unfold P4_as_stated. intros (st' & Hrun & Hocc & _).
  apply (f_equal (@length _)) in Hocc.
  destruct (@vmpu_switch spec_platform 1 0 crowded_state) as [st1|] eqn:Hswitch;
    [|discriminate Hrun].
  injection Hrun as <-.
  vm_compute in Hswitch. injection Hswitch as <-.
  vm_compute in Hocc. discriminate Hocc.
Qed.

(** * Further properties of the code *)

(** ** [UVISOR_ROUND32] *)

Lemma wrap32_lnot_31 : wrap32 (Z.lnot 31) = 2 ^ 32 - 32.
Proof. reflexivity. Qed.

(** The mask [~0x1F] clears the low five bits of a 32-bit value. *)
Lemma land_mask32 y : 0 <= y < 2 ^ 32 -> Z.land y (wrap32 (Z.lnot 31)) = 32 * (y / 32).
Proof.
  intros Hy.
  assert (Hm : wrap32 (Z.lnot 31) = Z.land (Z.lnot (Z.ones 5)) (Z.ones 32)).
  { unfold wrap32. rewrite Z.land_ones by lia. reflexivity. }
  rewrite Hm, Z.land_assoc, (Z.land_comm y), <- Z.land_assoc.
  rewrite (Z.land_ones y 32) by lia. rewrite Z.mod_small by exact Hy.
  rewrite Z.land_comm. change (Z.land y (Z.lnot (Z.ones 5))) with (Z.ldiff y (Z.ones 5)).
  rewrite Z.ldiff_ones_r by lia.
  rewrite Z.shiftr_div_pow2, Z.shiftl_mul_pow2 by lia.
  change (2 ^ 5) with 32. lia.
Qed.

Lemma UVISOR_ROUND32_eq x : UVISOR_ROUND32 x = 32 * (wrap32 (x + 31) / 32).
Proof. unfold UVISOR_ROUND32. apply land_mask32. apply wrap32_range. Qed.

Lemma UVISOR_ROUND32_divide x : (32 | UVISOR_ROUND32 x).
Proof. rewrite UVISOR_ROUND32_eq. exists (wrap32 (x + 31) / 32). lia. Qed.

(** X1: [UVISOR_ROUND32] always gives a multiple of 32 below 2^32, and for a
    value [x] of at most 2^32 - 32 it gives the least multiple of 32 that is
    not below [x]: it leaves multiples of 32 as they are and rounds the
    others up by less than 32. *)
Theorem UVISOR_ROUND32_rounds_up x :
  (32 | UVISOR_ROUND32 x) /\ 0 <= UVISOR_ROUND32 x < 2 ^ 32 /\
  (0 <= x <= 2 ^ 32 - 32 ->
   x <= UVISOR_ROUND32 x < x + 32 /\
   (forall m, (32 | m) -> x <= m -> UVISOR_ROUND32 x <= m) /\
   ((32 | x) -> UVISOR_ROUND32 x = x)).
Proof.
  split; [apply UVISOR_ROUND32_divide|].
  rewrite UVISOR_ROUND32_eq.
  pose proof (wrap32_range (x + 31)) as Hw.
  pose proof (Z.div_mod (wrap32 (x + 31)) 32 ltac:(lia)) as Hdm.
  pose proof (Z.mod_pos_bound (wrap32 (x + 31)) 32 ltac:(lia)) as Hmod.
  split; [lia|].
  intros Hx. rewrite (wrap32_small (x + 31)) in * by lia.
  split; [lia|]. split.
  - intros m [k ->] Hle. nia.
  - intros [k ->]. nia.
Qed.

(** Rounding 200 gives 224. *)
Lemma UVISOR_ROUND32_rounds_up_witness :
  200 <= UVISOR_ROUND32 200 < 200 + 32.
Proof.
  apply (proj2 (proj2 (UVISOR_ROUND32_rounds_up 200))). lia.
Defined.

(** X2: for a 32-bit value [x] above 2^32 - 32 the sum [x + 31] wraps around
    and [UVISOR_ROUND32] gives 0, not a value that is at least [x]. *)
Theorem UVISOR_ROUND32_wraps_to_zero x :
  2 ^ 32 - 32 < x < 2 ^ 32 -> UVISOR_ROUND32 x = 0.
Proof.
  intros Hx. rewrite UVISOR_ROUND32_eq.
  assert (Hw : wrap32 (x + 31) = x + 31 - 2 ^ 32).
  { unfold wrap32. symmetry. apply (Z.mod_unique _ _ 1); lia. }
  rewrite Hw. rewrite Z.div_small by lia. reflexivity.
Qed.

Lemma UVISOR_ROUND32_wraps_to_zero_witness : UVISOR_ROUND32 0xFFFFFFF0 = 0.
Proof. apply UVISOR_ROUND32_wraps_to_zero. lia. Defined.

(** ** The fault lookup *)

Lemma bitband_translate_sram {P : Platform} a :
  ~ in_periph_bitband a -> in_sram_bitband a ->
  bitband_translate a = VMPU_SRAM_BITBAND_ALIAS_TO_ADDR a.
Proof.
  unfold in_periph_bitband, in_sram_bitband, bitband_translate. intros Hp [H1 H2].
  destruct ((VMPU_PERIPH_BITBAND_START <=? a) && (a <=? VMPU_PERIPH_BITBAND_END)) eqn:E1.
  { apply andb_true_iff in E1. rewrite !Z.leb_le in E1. tauto. }
  apply Z.leb_le in H1. apply Z.leb_le in H2. rewrite H1, H2. reflexivity.
Qed.

Section LookupMore.

Context {P : Platform}.

(** X3: [vmpu_fault_find_region] is sound and complete: a region it returns
    is a region of the active box or of box 0 and covers the address, and it
    returns NULL exactly when no region of the two boxes covers the address.
    A hit in the active box wins: a region of box 0 alone is returned only
    when no region of the active box covers the address. *)
Theorem vmpu_fault_find_region_correct st a :
  (forall R, vmpu_fault_find_region st a = Some R -> reachable_region st R /\ covers R a) /\
  (vmpu_fault_find_region st a = None <->
   forall R, reachable_region st R -> ~ covers R a) /\
  (forall R, vmpu_fault_find_region st a = Some R ->
   (exists R', In R' (vmpu_region_get_for_box st (g_active_box st)) /\ covers R' a) ->
   In R (vmpu_region_get_for_box st (g_active_box st))).
Proof.
  split; [intros R; apply vmpu_fault_find_region_some|].
  split; [apply vmpu_fault_find_region_none|].
  intros R Hfind (R' & Hin' & Hcov').
  unfold vmpu_fault_find_region, vmpu_region_find_for_address in Hfind.
  destruct (Z.eqb_spec (g_active_box st) 0) as [Hbox|Hbox].
  - rewrite Hbox.
    destruct (List.find _ (vmpu_region_get_for_box st 0)) as [r|] eqn:Hpub;
      [|discriminate Hfind].
    injection Hfind as <-. apply (find_covering_some _ _ _ Hpub).
  - destruct (List.find _ (vmpu_region_get_for_box st (g_active_box st))) as [r|] eqn:Hact.
    + injection Hfind as <-. apply (find_covering_some _ _ _ Hact).
    + exfalso. exact (proj1 (find_covering_none _ _) Hact R' Hin' Hcov').
Qed.

(** X4: [vmpu_fault_find_acl] grants nothing without a reason: its answer
    is 0, or the address is the SCR address and the answer is
    [UVISOR_TACL_UWRITE | UVISOR_TACL_UREAD], or the answer is the ACL of a
    region of the active box or of box 0 that covers the translated address
    and whose end the 32-bit sum of that address and the size does not
    pass. *)
Theorem vmpu_fault_find_acl_sound st a size :
  vmpu_fault_find_acl st a size = 0 \/
  (a = SCB_SCR /\
   vmpu_fault_find_acl st a size = Z.lor UVISOR_TACL_UWRITE UVISOR_TACL_UREAD) \/
  (exists R,
     reachable_region st R /\ covers R (bitband_translate a) /\
     wrap32 (bitband_translate a + size) <= end_ R /\
     vmpu_fault_find_acl st a size = acl R).
Proof.
  unfold vmpu_fault_find_acl.
  destruct (Z.eqb_spec a SCB_SCR) as [Hscr|Hscr]; [right; left; split; [exact Hscr|reflexivity]|].
  destruct (vmpu_fault_find_region st (bitband_translate a)) as [R|] eqn:Hfind;
    [|left; reflexivity].
  destruct (wrap32 (bitband_translate a + size) >? end_ R) eqn:Hgt; [left; reflexivity|].
  right. right. exists R.
  destruct (vmpu_fault_find_region_some _ _ _ Hfind) as [Hreach Hcov].
  repeat split; try assumption; try apply Hcov.
  rewrite Z.gtb_ltb in Hgt. apply Z.ltb_ge in Hgt. exact Hgt.
Qed.

(** X5: an address of the SRAM bit-band alias window that is not in the
    peripheral window (the peripheral window is tested first) gets the
    answer of the address it translates to, for every size, when that
    address is outside both windows and neither address is the SCR
    address. *)
Theorem vmpu_fault_find_acl_sram_bitband st a size :
  ~ in_periph_bitband a -> in_sram_bitband a -> a <> SCB_SCR ->
  ~ in_periph_bitband (VMPU_SRAM_BITBAND_ALIAS_TO_ADDR a) ->
  ~ in_sram_bitband (VMPU_SRAM_BITBAND_ALIAS_TO_ADDR a) ->
  VMPU_SRAM_BITBAND_ALIAS_TO_ADDR a <> SCB_SCR ->
  vmpu_fault_find_acl st a size =
  vmpu_fault_find_acl st (VMPU_SRAM_BITBAND_ALIAS_TO_ADDR a) size.
Proof.
  intros Hp Hs Hscr Htp Hts Htscr. unfold vmpu_fault_find_acl.
  apply Z.eqb_neq in Hscr. apply Z.eqb_neq in Htscr. rewrite Hscr, Htscr.
  rewrite (bitband_translate_sram a Hp Hs).
  rewrite (bitband_translate_outside _ Htp Hts). reflexivity.
Qed.

(** X6: a smaller access at the same address keeps the grant: where the sum
    of the translated address and the size is below 2^32, an access that is
    granted stays granted, with the same ACL, for every smaller size. (A sum
    of 2^32 and more wraps around in the 32-bit addition and is outside the
    property.) *)
Theorem vmpu_fault_find_acl_smaller_size st a size size' :
  0 <= bitband_translate a -> 0 <= size' <= size ->
  bitband_translate a + size < 2 ^ 32 ->
  vmpu_fault_find_acl st a size <> 0 ->
  vmpu_fault_find_acl st a size' = vmpu_fault_find_acl st a size.
Proof.
  intros Ha Hsize Hfit. unfold vmpu_fault_find_acl.
  destruct (a =? SCB_SCR); [reflexivity|].
  destruct (vmpu_fault_find_region st (bitband_translate a)) as [R|]; [|reflexivity].
  rewrite !wrap32_small by lia.
  destruct (bitband_translate a + size >? end_ R) eqn:Hgt; [intros H; contradiction|].
  intros _. rewrite Z.gtb_ltb in Hgt. apply Z.ltb_ge in Hgt.
  destruct (bitband_translate a + size' >? end_ R) eqn:Hgt'; [|reflexivity].
  apply Z.gtb_lt in Hgt'. lia.
Qed.

End LookupMore.

(** In [overlap_state] the region found on 0x1000 is of the active box 1. *)
Lemma vmpu_fault_find_region_correct_witness :
  In (region 0x1000 0x2000 2)
    (vmpu_region_get_for_box overlap_state (g_active_box overlap_state)).
Proof.
  apply (proj2 (proj2 (@vmpu_fault_find_region_correct spec_platform overlap_state 0x1000))).
  - reflexivity.
  - exists (region 0x1000 0x2000 2). split.
    + simpl. left. reflexivity.
    + unfold covers. simpl. lia.
Defined.

(** Scenario S4's address: 0x22000040 is the alias of bit 0 of the SRAM byte
    0x20000002. *)
Lemma vmpu_fault_find_acl_sram_bitband_witness :
  @vmpu_fault_find_acl spec_platform sram_state 0x22000040 4 =
  @vmpu_fault_find_acl spec_platform sram_state 0x20000002 4.
Proof.
  apply (@vmpu_fault_find_acl_sram_bitband spec_platform sram_state 0x22000040 4).
  - unfold in_periph_bitband. simpl. lia.
  - unfold in_sram_bitband. simpl. lia.
  - simpl. lia.
  - unfold in_periph_bitband. vm_compute. intros [H1 H2]. apply H1. reflexivity.
  - unfold in_sram_bitband. vm_compute. intros [H1 H2]. apply H1. reflexivity.
  - vm_compute. discriminate.
Defined.

(** An access of 2 bytes where 4 bytes are granted. *)
Lemma vmpu_fault_find_acl_smaller_size_witness :
  @vmpu_fault_find_acl spec_platform sram_state 0x20000100 2 =
  @vmpu_fault_find_acl spec_platform sram_state 0x20000100 4.
Proof.
  apply (@vmpu_fault_find_acl_smaller_size spec_platform sram_state 0x20000100 4 2).
  - vm_compute. discriminate.
  - lia.
  - vm_compute. reflexivity.
  - vm_compute. discriminate.
Defined.

(** The bound of X6 is strict. From 0x20000100 a size of 0xDFFFFF00 reaches
    2^32: the sum wraps to 0 and the access is granted, and the smaller
    access of 0x1000 bytes, which ends past the region, is not. *)
Example vmpu_fault_find_acl_smaller_size_bound :
  @vmpu_fault_find_acl spec_platform sram_state 0x20000100 0xDFFFFF00 = 6 /\
  @vmpu_fault_find_acl spec_platform sram_state 0x20000100 0x1000 = 0.
Proof. split; reflexivity. Qed.

(** ** The fault recovery *)

Section RecoveryMore.

Context {P : Platform}.

Lemma vmpu_mpu_push_slots r priority st :
  g_mpu_slots (cache (snd (vmpu_mpu_push r priority st))) =
  <[g_mpu_slot (cache st) := Some (r, priority)]> (g_mpu_slots (cache st)).
Proof. reflexivity. Qed.

(** A recovery that returns 0 has changed nothing. *)
Lemma recovery_zero_unchanged pc sp fault_addr fault_status st :
  fst (vmpu_fault_recovery_mpu pc sp fault_addr fault_status st) = 0 ->
  vmpu_fault_recovery_mpu pc sp fault_addr fault_status st = (0, st).
Proof.
  unfold vmpu_fault_recovery_mpu.
  destruct (page_allocator_get_active_region_for_address st fault_addr) as [[[s e] p]|].
  - simpl. discriminate.
  - destruct (vmpu_fault_find_region st fault_addr); simpl; [discriminate|reflexivity].
Qed.

Lemma recovery_zero_or_one pc sp fault_addr fault_status st :
  fst (vmpu_fault_recovery_mpu pc sp fault_addr fault_status st) = 0 \/
  fst (vmpu_fault_recovery_mpu pc sp fault_addr fault_status st) = 1.
Proof.
  unfold vmpu_fault_recovery_mpu.
  destruct (page_allocator_get_active_region_for_address st fault_addr) as [[[s e] p]|].
  - right. reflexivity.
  - destruct (vmpu_fault_find_region st fault_addr); [right|left]; reflexivity.
Qed.

(** X7: [vmpu_fault_recovery_mpu] returns 1 exactly when an active page or a
    region of the active box or of box 0 covers the faulting address as it is
    given, and 0 otherwise. Unlike [vmpu_fault_find_acl] it translates no
    bit-band alias and checks neither the size of the access nor the ACL. *)
Theorem vmpu_fault_recovery_mpu_outcome pc sp fault_addr fault_status st :
  let covered :=
    in_active_page st fault_addr \/
    (exists R, reachable_region st R /\ covers R fault_addr) in
  (fst (vmpu_fault_recovery_mpu pc sp fault_addr fault_status st) = 1 <-> covered) /\
  (fst (vmpu_fault_recovery_mpu pc sp fault_addr fault_status st) = 0 <-> ~ covered).
Proof.
  intros covered. subst covered.
  pose proof (vmpu_fault_recovery_mpu_recovers pc sp fault_addr fault_status st) as Hiff.
  split; [exact Hiff|].
  destruct (recovery_zero_or_one pc sp fault_addr fault_status st) as [H0|H1].
  - rewrite H0 in *. split; [|reflexivity]. intros _ Hcov.
    apply Hiff in Hcov. discriminate Hcov.
  - rewrite H1 in *. split; [discriminate|]. intros Hno. exfalso. apply Hno.
    apply Hiff. reflexivity.
Qed.

(** X8: a recovery that fails leaves the whole state as it was: nothing is
    pushed and no fault is reported to the page allocator. Whatever it
    returns, the recovery changes neither the region tables nor the active
    box nor the CPU registers. *)
Theorem vmpu_fault_recovery_mpu_frame pc sp fault_addr fault_status st :
  (fst (vmpu_fault_recovery_mpu pc sp fault_addr fault_status st) = 0 ->
   snd (vmpu_fault_recovery_mpu pc sp fault_addr fault_status st) = st) /\
  g_mpu_region (snd (vmpu_fault_recovery_mpu pc sp fault_addr fault_status st))
  = g_mpu_region st /\
  g_active_box (snd (vmpu_fault_recovery_mpu pc sp fault_addr fault_status st))
  = g_active_box st /\
  cpu (snd (vmpu_fault_recovery_mpu pc sp fault_addr fault_status st)) = cpu st /\
  g_box_mem_pos (snd (vmpu_fault_recovery_mpu pc sp fault_addr fault_status st))
  = g_box_mem_pos st.
Proof.
  split.
  - intros H0. rewrite (recovery_zero_unchanged _ _ _ _ _ H0). reflexivity.
  - unfold vmpu_fault_recovery_mpu.
    destruct (page_allocator_get_active_region_for_address st fault_addr) as [[[s e] p]|].
    + repeat split.
    + destruct (vmpu_fault_find_region st fault_addr); repeat split.
Qed.

(** X9: after a recovery that returns 1 the slot the cursor was on holds a
    region that covers the faulting address, at priority 100 for a page and
    3 for a static region, and every other slot holds what it held. *)
Theorem vmpu_fault_recovery_mpu_installs pc sp fault_addr fault_status st :
  (g_mpu_slot (cache st) < length (g_mpu_slots (cache st)))%nat ->
  fst (vmpu_fault_recovery_mpu pc sp fault_addr fault_status st) = 1 ->
  let st' := snd (vmpu_fault_recovery_mpu pc sp fault_addr fault_status st) in
  (exists r priority,
     g_mpu_slots (cache st') !! g_mpu_slot (cache st) = Some (Some (r, priority)) /\
     covers r fault_addr /\ (priority = 100 \/ priority = 3)) /\
  (forall j : nat, j <> g_mpu_slot (cache st) ->
     g_mpu_slots (cache st') !! j = g_mpu_slots (cache st) !! j).
Proof.
  intros Hcur Hrec st'. subst st'. revert Hrec.
  unfold vmpu_fault_recovery_mpu.
  destruct (page_allocator_get_active_region_for_address st fault_addr)
    as [[[s e] p]|] eqn:Hpage.
  - intros _. destruct (page_lookup_some _ _ _ _ _ Hpage) as [_ Hcov]. split.
    + exists {| start := s; end_ := e; config := 1; acl := 0 |}, 100.
      split; [|split; [exact Hcov|left; reflexivity]].
      cbn. apply list_lookup_insert_eq. exact Hcur.
    + intros j Hj. cbn. apply list_lookup_insert_ne. congruence.
  - destruct (vmpu_fault_find_region st fault_addr) as [R|] eqn:Hfind;
      [|simpl; discriminate].
    intros _. destruct (vmpu_fault_find_region_some _ _ _ Hfind) as [_ Hcov]. split.
    + exists R, 3. split; [|split; [exact Hcov|right; reflexivity]].
      cbn. apply list_lookup_insert_eq. exact Hcur.
    + intros j Hj. cbn. apply list_lookup_insert_ne. congruence.
Qed.

(** X10: the page heap comes first. When an active page covers the faulting
    address the recovery reports the fault on that page to the allocator and
    pushes the page's extent with config 1, also where a static region covers
    the address; when no active page covers it the page heap is left as it
    was. *)
Theorem vmpu_fault_recovery_mpu_page_first pc sp fault_addr fault_status st :
  (forall s e p,
     page_allocator_get_active_region_for_address st fault_addr = Some (s, e, p) ->
     page_faults (heap (snd (vmpu_fault_recovery_mpu pc sp fault_addr fault_status st)))
     = page_faults (heap st) ++ [p] /\
     g_mpu_slots (cache (snd (vmpu_fault_recovery_mpu pc sp fault_addr fault_status st)))
     = <[g_mpu_slot (cache st) :=
           Some ({| start := s; end_ := e; config := 1; acl := 0 |}, 100)]>
         (g_mpu_slots (cache st))) /\
  (in_active_page st fault_addr ->
   exists s e p,
     page_allocator_get_active_region_for_address st fault_addr = Some (s, e, p) /\
     s <= fault_addr < e) /\
  (~ in_active_page st fault_addr ->
   heap (snd (vmpu_fault_recovery_mpu pc sp fault_addr fault_status st)) = heap st).
Proof.
  split; [|split].
  - intros s e p Hpage. unfold vmpu_fault_recovery_mpu. rewrite Hpage.
    split; reflexivity.
  - intros Hin.
    destruct (page_allocator_get_active_region_for_address st fault_addr)
      as [[[s e] p]|] eqn:Hpage.
    + exists s, e, p. split; [reflexivity|].
      apply (page_lookup_some _ _ _ _ _ Hpage).
    + apply page_lookup_none in Hpage. contradiction.
  - intros Hno. apply page_lookup_none in Hno.
    unfold vmpu_fault_recovery_mpu. rewrite Hno.
    destruct (vmpu_fault_find_region st fault_addr); reflexivity.
Qed.

End RecoveryMore.

(** With no page and no region on 0x50000000 the recovery leaves
    [periph_state] as it is. *)
Lemma vmpu_fault_recovery_mpu_frame_witness :
  snd (@vmpu_fault_recovery_mpu spec_platform 0 0x20002000 0x50000000 0x48 periph_state)
  = periph_state.
Proof.
  apply (proj1 (@vmpu_fault_recovery_mpu_frame spec_platform 0 0x20002000 0x50000000 0x48
                  periph_state)).
  reflexivity.
Defined.

(** The recovery of 0x40000100 in [periph_state] puts the public region in
    slot 4. *)
Lemma vmpu_fault_recovery_mpu_installs_witness :
  exists r priority,
    g_mpu_slots
      (cache (snd (@vmpu_fault_recovery_mpu spec_platform 0 0x20002000 0x40000100 0x48
                     periph_state))) !! g_mpu_slot (cache periph_state)
    = Some (Some (r, priority)) /\
    covers r 0x40000100 /\ (priority = 100 \/ priority = 3).
Proof.
  apply (proj1 (@vmpu_fault_recovery_mpu_installs spec_platform 0 0x20002000 0x40000100
                  0x48 periph_state ltac:(vm_compute; lia) eq_refl)).
Defined.

(** In [paged_state] the page and a public region cover 0x20010040: the fault
    is reported on page 5 and the page's extent is pushed. *)
Lemma vmpu_fault_recovery_mpu_page_first_witness :
  page_faults
    (heap (snd (@vmpu_fault_recovery_mpu spec_platform 0 0x20002000 0x20010040 0x48
                  paged_state)))
  = page_faults (heap paged_state) ++ [5] /\
  g_mpu_slots
    (cache (snd (@vmpu_fault_recovery_mpu spec_platform 0 0x20002000 0x20010040 0x48
                   paged_state)))
  = <[g_mpu_slot (cache paged_state) :=
        Some ({| start := 0x20010000; end_ := 0x20012000; config := 1; acl := 0 |}, 100)]>
      (g_mpu_slots (cache paged_state)).
Proof.
  apply (proj1 (@vmpu_fault_recovery_mpu_page_first spec_platform 0 0x20002000 0x20010040
                  0x48 paged_state)).
  reflexivity.
Defined.

(** ** The exception dispatcher *)

Section DispatcherMore.

Context {P : Platform}.

(** The halt of the secure-fault case. *)
Lemma secure_fault_case_halted lr sp st reason msg st' :
  secure_fault_case lr sp st = Halted reason msg st' ->
  reason = PERMISSION_DENIED /\
  st' = set_debug_log
          (debug_log st ++ [{| fd_fault := FAULT_SECURE; fd_lr := lr; fd_sp := sp |}]) st.
Proof.
  unfold secure_fault_case. cbv [HALT_ERROR DEBUG_FAULT bind].
  destruct (Z.land (SFSR (cpu st)) (Z.lor SAU_SFSR_AUVIOL_Msk SAU_SFSR_SFARVALID_Msk)
            =? Z.lor SAU_SFSR_AUVIOL_Msk SAU_SFSR_SFARVALID_Msk).
  - destruct (vmpu_fault_recovery_mpu _ _ _ _ st) as [recovered st1] eqn:Hrec.
    destruct (Z.eqb_spec recovered 0) as [Hzero|Hnz]; [|discriminate].
    assert (Hfst : fst (vmpu_fault_recovery_mpu
                          (vmpu_unpriv_uint32_read st (sp + 6 * 4)) sp
                          (SFAR (cpu st)) (SFSR (cpu st)) st) = 0)
      by (rewrite Hrec; exact Hzero).
    rewrite (recovery_zero_unchanged _ _ _ _ _ Hfst) in Hrec.
    injection Hrec as _ <-. intros [= <- _ <-]. split; reflexivity.
  - intros [= <- _ <-]. split; reflexivity.
Qed.

(** X11: the handler returns in one case only. If it returns, the exception
    is the SecureFault, AUVIOL and SFARVALID are both set in SFSR, the
    recovery of the address in SFAR has returned 1, the value returned is the
    [lr] it was given, and SFSR is cleared. *)
Theorem vmpu_sys_mux_handler_returns lr msp_s st v st' :
  0 <= SAU_SFSR_AUVIOL_Pos -> 0 <= SAU_SFSR_SFARVALID_Pos ->
  vmpu_sys_mux_handler lr msp_s st = Returned v st' ->
  let sp := exception_sp lr msp_s st in
  let r := vmpu_fault_recovery_mpu (vmpu_unpriv_uint32_read st (sp + 6 * 4)) sp
             (SFAR (cpu st)) (SFSR (cpu st)) st in
  v = lr /\
  exception_id st = SecureFault_IRQn /\
  Z.testbit (SFSR (cpu st)) SAU_SFSR_AUVIOL_Pos = true /\
  Z.testbit (SFSR (cpu st)) SAU_SFSR_SFARVALID_Pos = true /\
  fst r = 1 /\
  st' = SAU_write_SFSR (SFSR (cpu st)) (snd r) /\
  SFSR (cpu st') = 0.
Proof.
  intros Hp Hq Hret sp r.
  unfold vmpu_sys_mux_handler in Hret. cbv [HALT_ERROR DEBUG_FAULT bind] in Hret.
  repeat match type of Hret with
         | context [exception_id st =? ?l] =>
             destruct (Z.eqb_spec (exception_id st) l); try discriminate Hret
         end.
  fold sp in Hret. rewrite (secure_fault_case_eq lr sp st Hp Hq) in Hret.
  cbv zeta in Hret. fold r in Hret.
  destruct (Z.testbit (SFSR (cpu st)) SAU_SFSR_AUVIOL_Pos);
    destruct (Z.testbit (SFSR (cpu st)) SAU_SFSR_SFARVALID_Pos);
    simpl in Hret; try discriminate Hret.
  destruct (Z.eqb_spec (fst r) 0) as [Hzero|Hnz]; [discriminate Hret|].
  injection Hret as <- <-.
  repeat split; try assumption.
  - destruct (recovery_zero_or_one (vmpu_unpriv_uint32_read st (sp + 6 * 4)) sp
                (SFAR (cpu st)) (SFSR (cpu st)) st) as [H0|H1];
      [contradiction|exact H1].
  - unfold SAU_write_SFSR. simpl. subst r.
    rewrite vmpu_fault_recovery_mpu_cpu. apply Z.land_lnot_diag.
Qed.

(** X12: a handler that halts has not touched the MPU: the state it halts in
    is the state it was entered in, but for at most one fault descriptor
    added to the log. In particular a recovery that was tried and failed has
    installed nothing. *)
Theorem vmpu_sys_mux_handler_halt_frame lr msp_s st reason msg st' :
  vmpu_sys_mux_handler lr msp_s st = Halted reason msg st' ->
  st' = st \/ (exists d, st' = set_debug_log (debug_log st ++ [d]) st).
Proof.
  intros Hhalt.
  unfold vmpu_sys_mux_handler in Hhalt. cbv [HALT_ERROR DEBUG_FAULT bind] in Hhalt.
  repeat match type of Hhalt with
         | context [exception_id st =? ?l] =>
             destruct (Z.eqb_spec (exception_id st) l)
         end;
    try (injection Hhalt as _ _ <-; first [left; reflexivity | right; eexists; reflexivity]).
  apply secure_fault_case_halted in Hhalt. destruct Hhalt as [_ ->].
  right. eexists. reflexivity.
Qed.

(** X13: SVCall, PendSV and SysTick have no handler: the dispatcher halts
    with NOT_IMPLEMENTED, logs no fault descriptor and leaves the state as it
    was. *)
Theorem vmpu_sys_mux_handler_reserved lr msp_s st :
  List.NoDup irqn_labels ->
  (exception_id st = SVCall_IRQn ->
   vmpu_sys_mux_handler lr msp_s st =
   Halted NOT_IMPLEMENTED "No SVCall IRQ handler registered." st) /\
  (exception_id st = PendSV_IRQn ->
   vmpu_sys_mux_handler lr msp_s st =
   Halted NOT_IMPLEMENTED "No PendSV IRQ handler registered." st) /\
  (exception_id st = SysTick_IRQn ->
   vmpu_sys_mux_handler lr msp_s st =
   Halted NOT_IMPLEMENTED "No SysTick IRQ handler registered." st).
Proof.
  intros Hnodup. irqn_distinct Hnodup.
  repeat split; intros Hid; unfold vmpu_sys_mux_handler; rewrite Hid;
    switch_case; reflexivity.
Qed.

(** X14: an exception id that is none of the ten system exceptions of the
    [switch] (a device interrupt, a reserved number) makes the dispatcher
    halt with NOT_ALLOWED, with no fault descriptor logged and the state as
    it was. *)
Theorem vmpu_sys_mux_handler_not_allowed lr msp_s st :
  ~ In (exception_id st) irqn_labels ->
  vmpu_sys_mux_handler lr msp_s st =
  Halted NOT_ALLOWED "Active IRQn (%i) is not a system interrupt." st.
Proof.
  intros Hnot. unfold irqn_labels in Hnot. simpl in Hnot.
  unfold vmpu_sys_mux_handler.
  repeat match goal with
         | |- context [exception_id st =? ?l] =>
             destruct (Z.eqb_spec (exception_id st) l);
               [exfalso; apply Hnot; intuition congruence|]
         end.
  reflexivity.
Qed.

End DispatcherMore.

(** The recovered SecureFault of [secure_fault_state] returns the [lr] it was
    given. *)
Lemma vmpu_sys_mux_handler_returns_witness :
  0xFFFFFFB8 = 0xFFFFFFB8 /\
  @exception_id spec_platform secure_fault_state = @SecureFault_IRQn spec_platform.
Proof.
  assert (Hp : 0 <= @SAU_SFSR_AUVIOL_Pos spec_platform) by (simpl; lia).
  assert (Hq : 0 <= @SAU_SFSR_SFARVALID_Pos spec_platform) by (simpl; lia).
  destruct (@vmpu_sys_mux_handler_returns spec_platform 0xFFFFFFB8 0x20004000
              secure_fault_state 0xFFFFFFB8 _ Hp Hq eq_refl) as (Hv & Hid & _).
  split; [exact Hv|exact Hid].
Defined.

(** The SecureFault of [denied_state] (scenario S5) halts with the state as
    it was but for the descriptor of the secure fault. *)
Lemma vmpu_sys_mux_handler_halt_frame_witness :
  exists st',
    @vmpu_sys_mux_handler spec_platform 0xFFFFFFB8 0x20004000 denied_state
    = Halted PERMISSION_DENIED "Cannot recover from a secure fault." st' /\
    (st' = denied_state \/
     exists d, st' = set_debug_log (debug_log denied_state ++ [d]) denied_state).
Proof.
  eexists. split; [reflexivity|].
  apply (@vmpu_sys_mux_handler_halt_frame spec_platform 0xFFFFFFB8 0x20004000 denied_state
           PERMISSION_DENIED "Cannot recover from a secure fault.").
  reflexivity.
Defined.

Lemma vmpu_sys_mux_handler_reserved_witness :
  @vmpu_sys_mux_handler spec_platform 0xFFFFFFB8 0x20004000 svcall_state =
  Halted NOT_IMPLEMENTED "No SVCall IRQ handler registered." svcall_state.
Proof.
  apply (proj1 (@vmpu_sys_mux_handler_reserved spec_platform 0xFFFFFFB8 0x20004000
                  svcall_state spec_platform_irqn_labels)).
  reflexivity.
Defined.

Lemma vmpu_sys_mux_handler_not_allowed_witness :
  @vmpu_sys_mux_handler spec_platform 0xFFFFFFB8 0x20004000 irq_state =
  Halted NOT_ALLOWED "Active IRQn (%i) is not a system interrupt." irq_state.
Proof.
  apply (@vmpu_sys_mux_handler_not_allowed spec_platform 0xFFFFFFB8 0x20004000 irq_state).
  vm_compute. intuition discriminate.
Defined.

(** ** The slot cache under the switch and the recovery *)

Section CacheInvariants.

Context {P : Platform}.

(** What every push keeps, every loop of pushes keeps. *)
Lemma push_regions_inv (Inv : State -> Prop) (Q : MpuRegion -> Z -> Prop) :
  (forall r p st, Q r p -> Inv st -> Inv (snd (vmpu_mpu_push r p st))) ->
  forall rs priority st,
    (forall r, In r rs -> Q r priority) -> Inv st -> Inv (push_regions rs priority st).
Proof.
  intros Hpush rs priority. induction rs as [|r rs IH]; intros st HQ Hinv; [exact Hinv|].
  cbn [push_regions].
  pose proof (Hpush r priority st (HQ r (or_introl eq_refl)) Hinv) as Hnext.
  destruct (vmpu_mpu_push r priority st) as [ok st'].
  cbn [snd] in Hnext. destruct ok; [|exact Hnext].
  apply IH; [|exact Hnext]. intros r' Hin. apply HQ. right. exact Hin.
Qed.

Lemma iterate_pages_inv (Inv : State -> Prop) (Q : MpuRegion -> Z -> Prop) :
  (forall r p st, Q r p -> Inv st -> Inv (snd (vmpu_mpu_push r p st))) ->
  forall pages st,
    (forall p, In p pages -> Q (page_region p) 100) -> Inv st ->
    Inv (iterate_pages vmpu_mem_push_page_acl_iterator pages st).
Proof.
  intros Hpush pages. induction pages as [|p pages IH]; intros st HQ Hinv; [exact Hinv|].
  cbn [iterate_pages]. unfold vmpu_mem_push_page_acl_iterator at 1.
  fold (page_region p).
  pose proof (Hpush (page_region p) 100 st (HQ p (or_introl eq_refl)) Hinv) as Hnext.
  destruct (vmpu_mpu_push (page_region p) 100 st) as [ok st'].
  cbn [snd] in Hnext. destruct ok; cbn; [|exact Hnext].
  apply IH; [|exact Hnext]. intros p' Hin. apply HQ. right. exact Hin.
Qed.

Lemma push_same_outside_cache st r p s :
  same_outside_cache st s -> same_outside_cache st (snd (vmpu_mpu_push r p s)).
Proof. intros H. exact H. Qed.

(** What every push of the list of P4 keeps, from the invalidated cache on,
    the switch keeps. *)
Lemma vmpu_switch_inv (Inv : State -> Prop) (Q : MpuRegion -> Z -> Prop)
  src_box dst_box st st' :
  (forall r p s, Q r p -> Inv s -> Inv (snd (vmpu_mpu_push r p s))) ->
  (forall r p, In (r, p) (switch_pushes dst_box st) -> Q r p) ->
  Inv (vmpu_mpu_invalidate st) ->
  vmpu_switch src_box dst_box st = Some st' ->
  Inv st' /\ same_outside_cache st st'.
Proof.
  intros Hpush HQ Hinv.
  set (Inv' := fun s => Inv s /\ same_outside_cache st s).
  assert (Hpush' : forall r p s, Q r p -> Inv' s -> Inv' (snd (vmpu_mpu_push r p s))).
  { intros r p s Hq [Hi Hs]. split; [apply Hpush; assumption|exact Hs]. }
  assert (Hinv' : Inv' (vmpu_mpu_invalidate st)) by (split; [exact Hinv|repeat split]).
  unfold vmpu_switch, switch_pushes in *.
  destruct (Z.eqb_spec dst_box 0) as [Hdst|Hdst].
  - cbn [take drop map app] in HQ.
    unfold page_allocator_iterate_active_pages.
    change (active_pages (heap (vmpu_mpu_invalidate st))) with (active_pages (heap st)).
    cbn [push_regions].
    intros [= <-].
    assert (Hpages : Inv' (iterate_pages vmpu_mem_push_page_acl_iterator
                             (active_pages (heap st)) (vmpu_mpu_invalidate st))).
    { apply (iterate_pages_inv Inv' Q Hpush'); [|exact Hinv'].
      intros p Hin. apply HQ. apply in_or_app. left.
      apply (in_map (fun p => (page_region p, 100))). exact Hin. }
    apply (push_regions_inv Inv' Q Hpush'); [|exact Hpages].
    intros r Hin. apply HQ. apply in_or_app. right.
    destruct Hpages as [_ (_ & Hreg & _)].
    unfold vmpu_region_get_for_box in Hin. rewrite Hreg in Hin.
    apply (in_map (fun r => (r, 1))). exact Hin.
  - change (vmpu_region_get_for_box (vmpu_mpu_invalidate st) dst_box)
      with (vmpu_region_get_for_box st dst_box).
    destruct (vmpu_region_get_for_box st dst_box) as [|r rest]; [discriminate|].
    cbn [take drop map app] in HQ. rewrite ?take_0, ?drop_0 in HQ. cbn [map app] in HQ.
    unfold page_allocator_iterate_active_pages.
    change (active_pages (heap (snd (vmpu_mpu_push r 255 (vmpu_mpu_invalidate st)))))
      with (active_pages (heap st)).
    intros [= <-].
    assert (Hfirst : Inv' (snd (vmpu_mpu_push r 255 (vmpu_mpu_invalidate st)))).
    { apply Hpush'; [|exact Hinv']. apply HQ. left. reflexivity. }
    assert (Hpages : Inv' (iterate_pages vmpu_mem_push_page_acl_iterator
                             (active_pages (heap st))
                             (snd (vmpu_mpu_push r 255 (vmpu_mpu_invalidate st))))).
    { apply (iterate_pages_inv Inv' Q Hpush'); [|exact Hfirst].
      intros p Hin. apply HQ. right. apply in_or_app. left.
      apply (in_map (fun p => (page_region p, 100))). exact Hin. }
    apply (push_regions_inv Inv' Q Hpush'); [|exact Hpages].
    intros r' Hin. apply HQ. right. apply in_or_app. right.
    apply in_or_app. left. apply (in_map (fun r => (r, 2))). exact Hin.
Qed.

(** A push changes the dynamic slot under the cursor and no other. *)
Lemma vmpu_mpu_push_dynamic r p st (i : nat) x :
  cache_wf st ->
  dynamic_slots (snd (vmpu_mpu_push r p st)) !! i = Some (Some x) ->
  x = (r, p) \/ dynamic_slots st !! i = Some (Some x).
Proof.
  intros [Hlen Hcur]. unfold dynamic_slots. cbn.
  rewrite drop_insert_ge by lia.
  destruct (Nat.eq_dec i (g_mpu_slot (cache st) - ARMv8M_SAU_REGIONS_STATIC)%nat)
    as [->|Hne].
  - rewrite list_lookup_insert_eq by (rewrite length_drop; lia).
    intros [= <-]. left. reflexivity.
  - rewrite list_lookup_insert_ne by congruence. intros H. right. exact H.
Qed.

(** X15: the switch keeps the slot cache in order and never writes a static
    slot, however many regions and pages there are: after [vmpu_switch] all
    of the slots are there, the cursor is on a dynamic slot and the static
    slots hold what they held. *)
Theorem vmpu_switch_keeps_static src_box dst_box st st' :
  cache_wf st ->
  vmpu_switch src_box dst_box st = Some st' ->
  cache_wf st' /\ static_slots st' = static_slots st.
Proof.
  intros Hwf Hswitch.
  apply (vmpu_switch_inv
           (fun s => cache_wf s /\ static_slots s = static_slots st)
           (fun _ _ => True) src_box dst_box st st'); try assumption.
  - intros r p s _ [Hw Hs]. split; [apply vmpu_mpu_push_wf; exact Hw|].
    rewrite vmpu_mpu_push_static by exact Hw. exact Hs.
  - intros; exact I.
  - split; [apply vmpu_mpu_invalidate_wf|apply vmpu_mpu_invalidate_static]; exact Hwf.
Qed.

(** X16: the recovery keeps the slot cache in order and never writes a
    static slot. *)
Theorem vmpu_fault_recovery_mpu_keeps_static pc sp fault_addr fault_status st :
  cache_wf st ->
  cache_wf (snd (vmpu_fault_recovery_mpu pc sp fault_addr fault_status st)) /\
  static_slots (snd (vmpu_fault_recovery_mpu pc sp fault_addr fault_status st))
  = static_slots st.
Proof.
  intros Hwf. unfold vmpu_fault_recovery_mpu.
  destruct (page_allocator_get_active_region_for_address st fault_addr) as [[[s e] p]|].
  - exact (conj
             (vmpu_mpu_push_wf _ 100 (page_allocator_register_fault p st) Hwf)
             (vmpu_mpu_push_static _ 100 (page_allocator_register_fault p st) Hwf)).
  - destruct (vmpu_fault_find_region st fault_addr) as [R|].
    + exact (conj (vmpu_mpu_push_wf R 3 st Hwf) (vmpu_mpu_push_static R 3 st Hwf)).
    + split; [exact Hwf|reflexivity].
Qed.

(** X17: the switch writes the slot cache and nothing else: the active-box
    variable, the region tables, the page heap, the SRAM cursor, the CPU
    registers and the fault log are as they were. *)
Theorem vmpu_switch_frame src_box dst_box st st' :
  vmpu_switch src_box dst_box st = Some st' ->
  g_active_box st' = g_active_box st /\ g_mpu_region st' = g_mpu_region st /\
  g_box_mem_pos st' = g_box_mem_pos st /\ heap st' = heap st /\
  cpu st' = cpu st /\ debug_log st' = debug_log st.
Proof.
  intros Hswitch.
  apply (vmpu_switch_inv (fun _ => True) (fun _ _ => True) src_box dst_box st st');
    auto.
Qed.

(** X18: after a switch no stale region is left. Every dynamic slot that
    holds a region holds one of the list of the switch: a region of the
    target box (at priority 255 or 2, or 1 for box 0) or the extent of an
    active page (at priority 100). A region of the box left behind, or of
    box 0 when the target is a secure box, is in no dynamic slot unless the
    target box has the same region. *)
Theorem vmpu_switch_no_stale_region src_box dst_box st st' :
  cache_wf st ->
  vmpu_switch src_box dst_box st = Some st' ->
  forall (i : nat) x,
    dynamic_slots st' !! i = Some (Some x) -> In x (switch_pushes dst_box st).
Proof.
  intros Hwf Hswitch.
  apply (vmpu_switch_inv
           (fun s => cache_wf s /\
                     forall (i : nat) x, dynamic_slots s !! i = Some (Some x) ->
                                         In x (switch_pushes dst_box st))
           (fun r p => In (r, p) (switch_pushes dst_box st))
           src_box dst_box st st'); try assumption.
  - intros r p s Hq [Hw Hs]. split; [apply vmpu_mpu_push_wf; exact Hw|].
    intros i x Hi. destruct (vmpu_mpu_push_dynamic r p s i x Hw Hi) as [->|Hold].
    + exact Hq.
    + exact (Hs i x Hold).
  - intros r p H. exact H.
  - split; [apply vmpu_mpu_invalidate_wf; exact Hwf|].
    intros i x Hi. rewrite (vmpu_mpu_invalidate_dynamic st Hwf) in Hi.
    apply lookup_replicate in Hi. destruct Hi as [Hi _]. discriminate Hi.
Qed.

End CacheInvariants.

(** The switch to box 0 of [crowded_state], with more public regions than
    dynamic slots, leaves the static slots alone. *)
Lemma vmpu_switch_keeps_static_witness :
  exists st',
    @vmpu_switch spec_platform 1 0 crowded_state = Some st' /\
    @cache_wf spec_platform st' /\
    @static_slots spec_platform st' = @static_slots spec_platform crowded_state.
Proof.
  destruct (@vmpu_switch spec_platform 1 0 crowded_state) as [st'|] eqn:Hswitch;
    [|vm_compute in Hswitch; discriminate Hswitch].
  exists st'. split; [reflexivity|].
  apply (@vmpu_switch_keeps_static spec_platform 1 0 crowded_state st'); [|exact Hswitch].
  split; [reflexivity|]. vm_compute. lia.
Defined.

Lemma vmpu_fault_recovery_mpu_keeps_static_witness :
  @cache_wf spec_platform
    (snd (@vmpu_fault_recovery_mpu spec_platform 0 0x20002000 0x40000100 0x48
            periph_state)) /\
  @static_slots spec_platform
    (snd (@vmpu_fault_recovery_mpu spec_platform 0 0x20002000 0x40000100 0x48
            periph_state))
  = @static_slots spec_platform periph_state.
Proof.
  apply (@vmpu_fault_recovery_mpu_keeps_static spec_platform 0 0x20002000 0x40000100 0x48
           periph_state).
  split; [reflexivity|]. vm_compute. lia.
Defined.

(** The switch from box 1 to box 0 in [s6_state] leaves box 1 the active
    box. *)
Lemma vmpu_switch_frame_witness :
  exists st',
    @vmpu_switch spec_platform 1 0 s6_state = Some st' /\
    g_active_box st' = g_active_box s6_state /\
    g_mpu_region st' = g_mpu_region s6_state /\
    g_box_mem_pos st' = g_box_mem_pos s6_state /\ heap st' = heap s6_state /\
    cpu st' = cpu s6_state /\ debug_log st' = debug_log s6_state.
Proof.
  destruct (@vmpu_switch spec_platform 1 0 s6_state) as [st'|] eqn:Hswitch;
    [|vm_compute in Hswitch; discriminate Hswitch].
  exists st'. split; [reflexivity|].
  exact (@vmpu_switch_frame spec_platform 1 0 s6_state st' Hswitch).
Defined.

Lemma vmpu_switch_no_stale_region_witness :
  exists st',
    @vmpu_switch spec_platform 1 0 s6_state = Some st' /\
    forall (i : nat) x,
      @dynamic_slots spec_platform st' !! i = Some (Some x) ->
      In x (switch_pushes 0 s6_state).
Proof.
  destruct (@vmpu_switch spec_platform 1 0 s6_state) as [st'|] eqn:Hswitch;
    [|vm_compute in Hswitch; discriminate Hswitch].
  exists st'. split; [reflexivity|].
  apply (@vmpu_switch_no_stale_region spec_platform 1 0 s6_state st'); [|exact Hswitch].
  split; [reflexivity|]. vm_compute. lia.
Defined.

(** ** The SRAM layout and the lookup *)

Lemma wrap32_divide (A z : Z) : (A | 2 ^ 32) -> (A | z) -> (A | wrap32 z).
Proof.
  intros H32 Hz. unfold wrap32. rewrite Z.mod_eq by lia.
  apply Z.divide_sub_r; [exact Hz|]. apply Z.divide_mul_l. exact H32.
Qed.

Lemma find_app_first {A} (f : A -> bool) (l1 l2 : list A) :
  List.find f (l1 ++ l2) =
  match List.find f l1 with
  | Some x => Some x
  | None => List.find f l2
  end.
Proof.
  induction l1 as [|a l1 IH]; [reflexivity|]. simpl. destruct (f a); [reflexivity|exact IH].
Qed.

(** The regions of a box after two regions were added for [box_id]. *)
Lemma vmpu_region_get_for_box_added st st' box_id e1 e2 b :
  g_mpu_region st' = g_mpu_region st ++ [(box_id, e1); (box_id, e2)] ->
  vmpu_region_get_for_box st' b =
  vmpu_region_get_for_box st b ++ (if box_id =? b then [e1; e2] else []).
Proof.
  intros Hreg. unfold vmpu_region_get_for_box. rewrite Hreg.
  rewrite List.filter_app, map_app. f_equal. cbn.
  destruct (box_id =? b); reflexivity.
Qed.

Section SramLookup.

Context {P : Platform}.

Lemma vmpu_acl_sram_some box_id bss_size stack_size st bss_start stack_top st' :
  vmpu_acl_sram box_id bss_size stack_size st = Some (bss_start, stack_top, st') ->
  bss_size <> 0.
Proof.
  intros Hrun Hzero. subst bss_size. unfold vmpu_acl_sram in Hrun.
  rewrite Z.eqb_refl in Hrun. discriminate Hrun.
Qed.

(** A call that fits in the 32-bit address space, with the two extents it
    records spelled out. *)
Lemma vmpu_acl_sram_fits_eq box_id bss_size stack_size st :
  0 < UVISOR_STACK_BAND_SIZE -> 0 <= g_box_mem_pos st -> bss_size <> 0 ->
  let c := first_use_pos st in
  let top := c + rounded_stack_size stack_size in
  let bss := top + UVISOR_STACK_BAND_SIZE in
  let bss_end := bss + rounded_bss_size bss_size in
  bss_end + UVISOR_STACK_BAND_SIZE < 2 ^ 32 ->
  vmpu_acl_sram box_id bss_size stack_size st =
  Some (bss, top,
        set_g_box_mem_pos (bss_end + UVISOR_STACK_BAND_SIZE)
          (set_g_mpu_region
             (g_mpu_region st ++
                [(box_id, {| start := c; end_ := top;
                             config := 0; acl := UVISOR_TACLDEF_STACK |});
                 (box_id, {| start := bss; end_ := bss_end;
                             config := 0; acl := UVISOR_TACLDEF_DATA |})]) st)).
Proof.
  intros Hg Hpos Hbss c top bss bss_end Hfit. subst bss_end bss top.
  pose proof (first_use_pos_nonneg st Hpos) as Hc. fold c in Hc.
  pose proof (rounded_stack_size_range stack_size) as HS.
  pose proof (rounded_bss_size_range bss_size) as HB.
  pose proof (vmpu_acl_sram_eq box_id bss_size stack_size st Hbss) as Heq.
  cbv zeta in Heq. fold c in Heq.
  rewrite (wrap32_small (c + rounded_stack_size stack_size)) in Heq by lia.
  rewrite (wrap32_small (c + rounded_stack_size stack_size + UVISOR_STACK_BAND_SIZE))
    in Heq by lia.
  rewrite (wrap32_small (rounded_bss_size bss_size + UVISOR_STACK_BAND_SIZE)) in Heq by lia.
  rewrite (wrap32_small (c + rounded_stack_size stack_size + UVISOR_STACK_BAND_SIZE +
                         rounded_bss_size bss_size)) in Heq by lia.
  rewrite (wrap32_small (c + rounded_stack_size stack_size + UVISOR_STACK_BAND_SIZE +
                         (rounded_bss_size bss_size + UVISOR_STACK_BAND_SIZE))) in Heq by lia.
  rewrite Heq. do 3 f_equal. lia.
Qed.

(** X19: the layout keeps the alignment ("Ensure stack & context
    alignment"): when the rounding macro gives multiples of [A], the guard
    band is a multiple of [A], [A] divides 2^32 and the cursor is a multiple
    of [A], then the stack top and the bss start a call returns, the bounds
    of the two extents it records and the cursor it leaves are multiples of
    [A]. *)
Theorem vmpu_acl_sram_aligned (A : Z) box_id bss_size stack_size st bss_start stack_top st' :
  (A | 2 ^ 32) ->
  (forall x, (A | UVISOR_REGION_ROUND_UP x)) ->
  (A | UVISOR_STACK_BAND_SIZE) ->
  (A | g_box_mem_pos st) ->
  vmpu_acl_sram box_id bss_size stack_size st = Some (bss_start, stack_top, st') ->
  (A | bss_start) /\ (A | stack_top) /\ (A | g_box_mem_pos st') /\
  List.Forall (fun e => (A | start e) /\ (A | end_ e)) (recorded_extents st st').
Proof.
  intros H32 Hround Hband Hpos Hrun.
  pose proof (vmpu_acl_sram_some _ _ _ _ _ _ _ Hrun) as Hbss.
  rewrite (vmpu_acl_sram_eq box_id bss_size stack_size st Hbss) in Hrun.
  cbv zeta in Hrun. injection Hrun as <- <- <-.
  assert (Hc : (A | first_use_pos st)).
  { unfold first_use_pos. destruct (g_box_mem_pos st =? 0); [|exact Hpos].
    apply wrap32_divide; [exact H32|]. apply Z.divide_add_r; [|exact Hband].
    apply wrap32_divide; [exact H32|apply Hround]. }
  assert (HS : (A | rounded_stack_size stack_size))
    by (apply wrap32_divide; [exact H32|apply Hround]).
  assert (HB : (A | rounded_bss_size bss_size))
    by (apply wrap32_divide; [exact H32|apply Hround]).
  assert (Htop : (A | wrap32 (first_use_pos st + rounded_stack_size stack_size)))
    by (apply wrap32_divide; [exact H32|apply Z.divide_add_r; assumption]).
  assert (Hbs : (A | wrap32 (wrap32 (first_use_pos st + rounded_stack_size stack_size)
                             + UVISOR_STACK_BAND_SIZE)))
    by (apply wrap32_divide; [exact H32|apply Z.divide_add_r; assumption]).
  split; [exact Hbs|]. split; [exact Htop|]. split.
  - cbn. apply wrap32_divide; [exact H32|]. apply Z.divide_add_r; [exact Hbs|].
    apply wrap32_divide; [exact H32|apply Z.divide_add_r; assumption].
  - unfold recorded_extents. cbn. rewrite drop_app_length. cbn.
    repeat constructor; cbn; try assumption.
    apply wrap32_divide; [exact H32|apply Z.divide_add_r; assumption].
Qed.

(** X20: laying out the SRAM of one box changes no other box's lookup: for
    every other box and every address [vmpu_region_find_for_address] answers
    after the call what it answered before. *)
Theorem vmpu_acl_sram_other_boxes box_id bss_size stack_size st bss_start stack_top st' :
  vmpu_acl_sram box_id bss_size stack_size st = Some (bss_start, stack_top, st') ->
  forall b a,
    b <> box_id ->
    vmpu_region_get_for_box st' b = vmpu_region_get_for_box st b /\
    vmpu_region_find_for_address st' b a = vmpu_region_find_for_address st b a.
Proof.
  intros Hrun b a Hb.
  pose proof (vmpu_acl_sram_some _ _ _ _ _ _ _ Hrun) as Hbss.
  rewrite (vmpu_acl_sram_eq box_id bss_size stack_size st Hbss) in Hrun.
  cbv zeta in Hrun. injection Hrun as _ _ <-.
  assert (Hget : forall s, vmpu_region_get_for_box
                   (set_g_box_mem_pos s
                      (set_g_mpu_region
                         (g_mpu_region st ++
                            [(box_id, {| start := first_use_pos st;
                                         end_ := wrap32 (first_use_pos st +
                                                         rounded_stack_size stack_size);
                                         config := 0; acl := UVISOR_TACLDEF_STACK |});
                             (box_id, {| start := wrap32 (wrap32 (first_use_pos st +
                                                    rounded_stack_size stack_size) +
                                                    UVISOR_STACK_BAND_SIZE);
                                         end_ := wrap32 (wrap32 (wrap32 (first_use_pos st +
                                                    rounded_stack_size stack_size) +
                                                    UVISOR_STACK_BAND_SIZE) +
                                                    rounded_bss_size bss_size);
                                         config := 0; acl := UVISOR_TACLDEF_DATA |})]) st)) b
                 = vmpu_region_get_for_box st b).
  { intros s. erewrite vmpu_region_get_for_box_added by reflexivity.
    assert (Hne : (box_id =? b) = false) by (apply Z.eqb_neq; congruence).
    rewrite Hne. apply app_nil_r. }
  unfold vmpu_region_find_for_address. rewrite Hget. split; reflexivity.
Qed.

End SramLookup.

(** The call of S1 keeps everything on multiples of 32. *)
Lemma vmpu_acl_sram_aligned_witness :
  (32 | 0x20000440) /\ (32 | 0x20000420) /\ (32 | g_box_mem_pos s1_state) /\
  List.Forall (fun e => (32 | start e) /\ (32 | end_ e))
    (recorded_extents reset_state s1_state).
Proof.
  apply (@vmpu_acl_sram_aligned spec_platform 32 1 200 1024 reset_state).
  - exists (2 ^ 27). reflexivity.
  - intros x. apply UVISOR_ROUND32_divide.
  - exists 1. reflexivity.
  - exists 0. reflexivity.
  - reflexivity.
Defined.

(** The call of S1 for box 1 leaves the lookup of box 0 as it was. *)
Lemma vmpu_acl_sram_other_boxes_witness :
  vmpu_region_get_for_box s1_state 0 = vmpu_region_get_for_box reset_state 0 /\
  vmpu_region_find_for_address s1_state 0 0x20000100
  = vmpu_region_find_for_address reset_state 0 0x20000100.
Proof.
  apply (@vmpu_acl_sram_other_boxes spec_platform 1 200 1024 reset_state
           0x20000440 0x20000420 s1_state).
  - reflexivity.
  - lia.
Defined.

Section SramRoundTrip.

Context {P : Platform}.

(** The lookup of [vmpu_fault_find_region] in the active box alone, when its
    regions decide. *)
Lemma vmpu_fault_find_region_active st a R :
  List.find (fun r => coversb r a) (vmpu_region_get_for_box st (g_active_box st)) = Some R ->
  vmpu_fault_find_region st a = Some R.
Proof.
  intros Hfind. unfold vmpu_fault_find_region, vmpu_region_find_for_address.
  destruct (Z.eqb_spec (g_active_box st) 0) as [Hbox|Hbox].
  - rewrite Hbox in Hfind. rewrite Hfind. reflexivity.
  - rewrite Hfind. reflexivity.
Qed.

(** X21: what [vmpu_acl_sram] lays out for a box, the lookup finds for that
    box. After a call that fits in the 32-bit address space, with the box
    active, an access inside the new stack extent gets
    [UVISOR_TACLDEF_STACK] and an access inside the new bss extent gets
    [UVISOR_TACLDEF_DATA] from [vmpu_fault_find_acl], where no older region
    of the box covers the address (and the address is neither the SCR
    address nor a bit-band alias). *)
Theorem vmpu_acl_sram_then_find_acl box_id bss_size stack_size st bss_start stack_top st'
  a size :
  0 < UVISOR_STACK_BAND_SIZE -> 0 <= g_box_mem_pos st ->
  first_use_pos st + rounded_stack_size stack_size + UVISOR_STACK_BAND_SIZE +
  rounded_bss_size bss_size + UVISOR_STACK_BAND_SIZE < 2 ^ 32 ->
  vmpu_acl_sram box_id bss_size stack_size st = Some (bss_start, stack_top, st') ->
  g_active_box st = box_id ->
  (forall R, In R (vmpu_region_get_for_box st box_id) -> ~ covers R a) ->
  a <> SCB_SCR -> ~ in_periph_bitband a -> ~ in_sram_bitband a ->
  0 <= size ->
  (first_use_pos st <= a -> a + size <= stack_top -> a < stack_top ->
   vmpu_fault_find_acl st' a size = UVISOR_TACLDEF_STACK) /\
  (bss_start <= a -> a + size <= bss_start + rounded_bss_size bss_size ->
   a < bss_start + rounded_bss_size bss_size ->
   vmpu_fault_find_acl st' a size = UVISOR_TACLDEF_DATA).
Proof.
  intros Hg Hpos Hfit Hrun Hact Hold Hscr Hp Hs Hsize.
  pose proof (vmpu_acl_sram_some _ _ _ _ _ _ _ Hrun) as Hbss.
  pose proof (vmpu_acl_sram_fits_eq box_id bss_size stack_size st Hg Hpos Hbss) as Heq.
  cbv zeta in Heq. rewrite Heq in Hrun by lia. clear Heq.
  injection Hrun as <- <- <-.
  pose proof (first_use_pos_nonneg st Hpos) as Hc.
  pose proof (rounded_stack_size_range stack_size) as HS.
  pose proof (rounded_bss_size_range bss_size) as HB.
  apply find_covering_none in Hold.
  apply Z.eqb_neq in Hscr.
  set (e1 := {| start := first_use_pos st;
                end_ := first_use_pos st + rounded_stack_size stack_size;
                config := 0; acl := UVISOR_TACLDEF_STACK |}).
  set (e2 := {| start := first_use_pos st + rounded_stack_size stack_size +
                         UVISOR_STACK_BAND_SIZE;
                end_ := first_use_pos st + rounded_stack_size stack_size +
                        UVISOR_STACK_BAND_SIZE + rounded_bss_size bss_size;
                config := 0; acl := UVISOR_TACLDEF_DATA |}).
  set (st' := set_g_box_mem_pos _ (set_g_mpu_region _ st)).
  assert (Hget : vmpu_region_get_for_box st' (g_active_box st') =
                 vmpu_region_get_for_box st box_id ++ [e1; e2]).
  { change (g_active_box st') with (g_active_box st). rewrite Hact.
    erewrite (vmpu_region_get_for_box_added st st' box_id e1 e2 box_id) by reflexivity.
    rewrite Z.eqb_refl. reflexivity. }
  assert (Hacl : forall e,
             List.find (fun r => coversb r a) [e1; e2] = Some e ->
             a + size <= end_ e ->
             vmpu_fault_find_acl st' a size = acl e).
  { intros e Hfind Hend. unfold vmpu_fault_find_acl. rewrite Hscr.
    rewrite (bitband_translate_outside a Hp Hs).
    rewrite (vmpu_fault_find_region_active st' a e)
      by (rewrite Hget, find_app_first, Hold; exact Hfind).
    assert (Hfits : wrap32 (a + size) <= end_ e).
    { apply find_covering_some in Hfind. destruct Hfind as [Hin Hcov].
      assert (0 <= a).
      { unfold covers in Hcov. destruct Hin as [<-|[<-|[]]]; cbn in Hcov; lia. }
      pose proof (wrap32_le (a + size)). lia. }
    destruct (wrap32 (a + size) >? end_ e) eqn:Hgt; [|reflexivity].
    apply Z.gtb_lt in Hgt. lia. }
  split.
  - intros H1 H2 H3. apply (Hacl e1); [|exact H2].
    cbn. unfold coversb. cbn.
    assert (E1 : (first_use_pos st <=? a) = true) by (apply Z.leb_le; lia).
    assert (E2 : (a <? first_use_pos st + rounded_stack_size stack_size) = true)
      by (apply Z.ltb_lt; lia).
    rewrite E1, E2. reflexivity.
  - intros H1 H2 H3. apply (Hacl e2); [|exact H2].
    cbn. unfold coversb. cbn.
    assert (E0 : (a <? first_use_pos st + rounded_stack_size stack_size) = false)
      by (apply Z.ltb_ge; lia).
    assert (E1 : (first_use_pos st + rounded_stack_size stack_size +
                  UVISOR_STACK_BAND_SIZE <=? a) = true) by (apply Z.leb_le; lia).
    assert (E2 : (a <? first_use_pos st + rounded_stack_size stack_size +
                       UVISOR_STACK_BAND_SIZE + rounded_bss_size bss_size) = true)
      by (apply Z.ltb_lt; lia).
    rewrite E0, E1, E2, andb_false_r. reflexivity.
Qed.

(** X22: the guard bands stay closed. After a call that fits in the 32-bit
    address space the bss starts one guard band above the stack top and the
    cursor is one guard band above the end of the bss, and for an address in
    either guard band every box's lookup, and the fault lookup, answer what
    they answered before the call: the call has put no region on it. *)
Theorem vmpu_acl_sram_guard_bands box_id bss_size stack_size st bss_start stack_top st' :
  0 < UVISOR_STACK_BAND_SIZE -> 0 <= g_box_mem_pos st ->
  first_use_pos st + rounded_stack_size stack_size + UVISOR_STACK_BAND_SIZE +
  rounded_bss_size bss_size + UVISOR_STACK_BAND_SIZE < 2 ^ 32 ->
  vmpu_acl_sram box_id bss_size stack_size st = Some (bss_start, stack_top, st') ->
  bss_start = stack_top + UVISOR_STACK_BAND_SIZE /\
  g_box_mem_pos st' = bss_start + rounded_bss_size bss_size + UVISOR_STACK_BAND_SIZE /\
  forall a,
    stack_top <= a < bss_start \/
    bss_start + rounded_bss_size bss_size <= a < g_box_mem_pos st' ->
    (forall b,
       vmpu_region_find_for_address st' b a = vmpu_region_find_for_address st b a) /\
    vmpu_fault_find_region st' a = vmpu_fault_find_region st a.
Proof.
  intros Hg Hpos Hfit Hrun.
  pose proof (vmpu_acl_sram_some _ _ _ _ _ _ _ Hrun) as Hbss.
  pose proof (vmpu_acl_sram_fits_eq box_id bss_size stack_size st Hg Hpos Hbss) as Heq.
  cbv zeta in Heq. rewrite Heq in Hrun by lia. clear Heq.
  injection Hrun as <- <- <-.
  pose proof (first_use_pos_nonneg st Hpos) as Hc.
  pose proof (rounded_stack_size_range stack_size) as HS.
  pose proof (rounded_bss_size_range bss_size) as HB.
  split; [reflexivity|]. split; [reflexivity|].
  cbn [g_box_mem_pos set_g_box_mem_pos].
  intros a Ha.
  set (e1 := {| start := first_use_pos st;
                end_ := first_use_pos st + rounded_stack_size stack_size;
                config := 0; acl := UVISOR_TACLDEF_STACK |}).
  set (e2 := {| start := first_use_pos st + rounded_stack_size stack_size +
                         UVISOR_STACK_BAND_SIZE;
                end_ := first_use_pos st + rounded_stack_size stack_size +
                        UVISOR_STACK_BAND_SIZE + rounded_bss_size bss_size;
                config := 0; acl := UVISOR_TACLDEF_DATA |}).
  set (st' := set_g_box_mem_pos _ (set_g_mpu_region _ st)).
  assert (Hnew : List.find (fun r => coversb r a) [e1; e2] = None).
  { apply find_covering_none. intros R [<-|[<-|[]]]; unfold covers; cbn; lia. }
  assert (Hlookup : forall b,
             vmpu_region_find_for_address st' b a = vmpu_region_find_for_address st b a).
  { intros b. unfold vmpu_region_find_for_address.
    erewrite (vmpu_region_get_for_box_added st st' box_id e1 e2 b) by reflexivity.
    rewrite find_app_first.
    destruct (List.find (fun r => coversb r a) (vmpu_region_get_for_box st b));
      [reflexivity|].
    destruct (box_id =? b); [exact Hnew|reflexivity]. }
  split; [exact Hlookup|].
  unfold vmpu_fault_find_region.
  change (g_active_box st') with (g_active_box st).
  rewrite !Hlookup. reflexivity.
Qed.

End SramRoundTrip.

(** After S1 with box 1 active, a word of the new bss is granted the data
    ACL. *)
Lemma vmpu_acl_sram_then_find_acl_witness :
  @vmpu_fault_find_acl spec_platform (with_boxes 1 (g_mpu_region s1_state) s1_state)
    0x20000500 4 = @UVISOR_TACLDEF_DATA spec_platform.
Proof.
  apply (proj2 (@vmpu_acl_sram_then_find_acl spec_platform 1 200 1024
                  (with_boxes 1 [] reset_state) 0x20000440 0x20000420
                  (with_boxes 1 (g_mpu_region s1_state) s1_state) 0x20000500 4
                  ltac:(simpl; lia) ltac:(simpl; lia) ltac:(vm_compute; reflexivity)
                  eq_refl eq_refl
                  ltac:(intros R [])
                  ltac:(simpl; lia)
                  ltac:(unfold in_periph_bitband; simpl; lia)
                  ltac:(unfold in_sram_bitband; simpl; lia)
                  ltac:(lia))).
  - lia.
  - vm_compute. discriminate.
  - vm_compute. reflexivity.
Defined.

(** After S1 the byte above the stack top of box 1 has no region. *)
Lemma vmpu_acl_sram_guard_bands_witness :
  vmpu_fault_find_region s1_state 0x20000420 = vmpu_fault_find_region reset_state 0x20000420.
Proof.
  destruct (@vmpu_acl_sram_guard_bands spec_platform 1 200 1024 reset_state
              0x20000440 0x20000420 s1_state
              ltac:(simpl; lia) ltac:(simpl; lia) ltac:(vm_compute; reflexivity) eq_refl)
    as (_ & _ & Hguard).
  apply (Hguard 0x20000420). left. lia.
Defined.

(** ** [vmpu_order_boxes] *)

(** The loop from [i] on, with fuel for every turn that is left. *)
Lemma order_boxes_loop_spec fuel :
  forall i box_count (best_order : list Z),
    0 <= i -> box_count - i <= Z.of_nat fuel ->
    box_count <= Z.of_nat (length best_order) ->
    let out := order_boxes_loop fuel i box_count best_order in
    length out = length best_order /\
    (forall j : nat, i <= Z.of_nat j < box_count -> out !! j = Some (Z.of_nat j)) /\
    (forall j : nat, Z.of_nat j < i \/ box_count <= Z.of_nat j ->
                     out !! j = best_order !! j).
Proof.
  induction fuel as [|fuel IH]; intros i box_count best_order Hi Hfuel Hlen.
  - cbn. split; [reflexivity|]. split; [intros j Hj; lia|reflexivity].
  - cbn [order_boxes_loop]. destruct (Z.ltb_spec i box_count) as [Hlt|Hge].
    + destruct (IH (i + 1) box_count (<[Z.to_nat i := i]> best_order))
        as (Hl & Hin & Hout); try lia.
      { rewrite length_insert. exact Hlen. }
      cbv zeta. rewrite length_insert in Hl. split; [exact Hl|]. split.
      * intros j Hj. destruct (Z.eq_dec (Z.of_nat j) i) as [Heq|Hne].
        -- rewrite Hout by lia. subst i. rewrite Nat2Z.id.
           apply list_lookup_insert_eq. lia.
        -- apply Hin. lia.
      * intros j Hj. rewrite Hout by lia.
        apply list_lookup_insert_ne. lia.
    + cbv zeta. split; [reflexivity|]. split; [intros j Hj; lia|reflexivity].
Qed.

(** X23: [vmpu_order_boxes] writes the identity order: for a count that
    does not pass the end of the array, entry [i] is [i] for every [i] below
    the count (box 0 stays first and no box is named twice), the entries
    from the count on are left as they were, and a count of zero or less
    writes nothing. *)
Theorem vmpu_order_boxes_identity (best_order : list Z) box_count :
  box_count <= Z.of_nat (length best_order) ->
  exists out,
    vmpu_order_boxes best_order box_count = Some out /\
    length out = length best_order /\
    (forall i : nat, Z.of_nat i < box_count -> out !! i = Some (Z.of_nat i)) /\
    (forall i : nat, box_count <= Z.of_nat i -> out !! i = best_order !! i) /\
    (box_count <= 0 -> out = best_order).
Proof.
  intros Hlen. unfold vmpu_order_boxes.
  destruct (Z.ltb_spec (Z.of_nat (length best_order)) box_count) as [Hover|_]; [lia|].
  destruct (order_boxes_loop_spec (Z.to_nat box_count) 0 box_count best_order)
    as (Hl & Hin & Hout); try lia.
  eexists. split; [reflexivity|]. split; [exact Hl|]. split; [|split].
  - intros i Hi. apply Hin. lia.
  - intros i Hi. apply Hout. right. exact Hi.
  - intros Hzero. apply list_eq. intros i. apply Hout. right. lia.
Qed.

(** Three boxes in an array of four entries. *)
Lemma vmpu_order_boxes_identity_witness :
  exists out,
    vmpu_order_boxes [7; 7; 7; 7] 3 = Some out /\
    length out = length [7; 7; 7; 7] /\
    (forall i : nat, Z.of_nat i < 3 -> out !! i = Some (Z.of_nat i)) /\
    (forall i : nat, 3 <= Z.of_nat i -> out !! i = [7; 7; 7; 7] !! i) /\
    (3 <= 0 -> out = [7; 7; 7; 7]).
Proof.
  apply (vmpu_order_boxes_identity [7; 7; 7; 7] 3). simpl. lia.
Defined.

(** ** How the operations compose *)

Section Composition.

Context {P : Platform}.

(** X24: a handler that returns has installed a region on the faulting
    address: the slot the round-robin cursor was on when the handler was
    entered holds a region that covers the address in SFAR. *)
Theorem vmpu_sys_mux_handler_installs lr msp_s st v st' :
  (g_mpu_slot (cache st) < length (g_mpu_slots (cache st)))%nat ->
  vmpu_sys_mux_handler lr msp_s st = Returned v st' ->
  exists r priority,
    g_mpu_slots (cache st') !! g_mpu_slot (cache st) = Some (Some (r, priority)) /\
    covers r (SFAR (cpu st)).
Proof.
  intros Hcur Hret.
  unfold vmpu_sys_mux_handler in Hret. cbv [HALT_ERROR DEBUG_FAULT bind] in Hret.
  repeat match type of Hret with
         | context [exception_id st =? ?l] =>
             destruct (Z.eqb_spec (exception_id st) l); try discriminate Hret
         end.
  unfold secure_fault_case in Hret. cbv [HALT_ERROR DEBUG_FAULT bind] in Hret.
  destruct (Z.land (SFSR (cpu st)) (Z.lor SAU_SFSR_AUVIOL_Msk SAU_SFSR_SFARVALID_Msk)
            =? Z.lor SAU_SFSR_AUVIOL_Msk SAU_SFSR_SFARVALID_Msk); [|discriminate Hret].
  unfold vmpu_fault_recovery_mpu in Hret.
  destruct (page_allocator_get_active_region_for_address st (SFAR (cpu st)))
    as [[[ps pe] pid]|] eqn:Hpage.
  - cbn in Hret. injection Hret as _ <-.
    destruct (page_lookup_some _ _ _ _ _ Hpage) as [_ Hcov].
    exists {| start := ps; end_ := pe; config := 1; acl := 0 |}, 100.
    split; [|exact Hcov]. cbn. apply list_lookup_insert_eq. exact Hcur.
  - destruct (vmpu_fault_find_region st (SFAR (cpu st))) as [R|] eqn:Hfind.
    + cbn in Hret. injection Hret as _ <-.
      destruct (vmpu_fault_find_region_some _ _ _ Hfind) as [_ Hcov].
      exists R, 3. split; [|exact Hcov]. cbn. apply list_lookup_insert_eq. exact Hcur.
    + cbn in Hret. discriminate Hret.
Qed.

(** X25: what the lookup grants, the recovery can install: where
    [vmpu_fault_find_acl] gives a non-zero ACL for an address that is neither
    the SCR address nor a bit-band alias, [vmpu_fault_recovery_mpu] returns 1
    for that address. *)
Theorem vmpu_fault_find_acl_then_recovery st a size pc sp fault_status :
  a <> SCB_SCR -> ~ in_periph_bitband a -> ~ in_sram_bitband a ->
  vmpu_fault_find_acl st a size <> 0 ->
  fst (vmpu_fault_recovery_mpu pc sp a fault_status st) = 1.
Proof.
  intros Hscr Hp Hs Hacl. unfold vmpu_fault_find_acl in Hacl.
  apply Z.eqb_neq in Hscr. rewrite Hscr in Hacl.
  rewrite (bitband_translate_outside a Hp Hs) in Hacl.
  unfold vmpu_fault_recovery_mpu.
  destruct (page_allocator_get_active_region_for_address st a) as [[[s e] p]|];
    [reflexivity|].
  destruct (vmpu_fault_find_region st a) as [R|]; [reflexivity|].
  exfalso. apply Hacl. reflexivity.
Qed.

(** X26: the stack region [vmpu_acl_sram] records first for a box that had
    no region is the region [vmpu_switch] makes available first. After a
    layout call that fits in the 32-bit address space for a secure box
    without regions, a switch to that box with room in the dynamic slots for
    the stack, the pages and the bss puts the box's stack extent, at
    priority 255, into the first dynamic slot, the slot
    [ARMv8M_SAU_REGIONS_STATIC], wherever the cursor was before. *)
Theorem vmpu_acl_sram_then_switch src_box box_id bss_size stack_size st
  bss_start stack_top st' :
  0 < UVISOR_STACK_BAND_SIZE -> 0 <= g_box_mem_pos st ->
  first_use_pos st + rounded_stack_size stack_size + UVISOR_STACK_BAND_SIZE +
  rounded_bss_size bss_size + UVISOR_STACK_BAND_SIZE < 2 ^ 32 ->
  vmpu_acl_sram box_id bss_size stack_size st = Some (bss_start, stack_top, st') ->
  box_id <> 0 -> vmpu_region_get_for_box st box_id = [] ->
  length (g_mpu_slots (cache st)) = ARMv8M_SAU_REGIONS_MAX ->
  (ARMv8M_SAU_REGIONS_STATIC + (2 + length (active_pages (heap st)))
   <= ARMv8M_SAU_REGIONS_MAX)%nat ->
  exists st'',
    vmpu_switch src_box box_id st' = Some st'' /\
    g_mpu_slots (cache st'') !! ARMv8M_SAU_REGIONS_STATIC =
    Some (Some ({| start := first_use_pos st; end_ := stack_top;
                   config := 0; acl := UVISOR_TACLDEF_STACK |}, 255)).
Proof.
  intros Hg Hpos Hfit Hrun Hbox Hempty Hlen Hroom.
  pose proof (vmpu_acl_sram_some _ _ _ _ _ _ _ Hrun) as Hbss.
  pose proof (vmpu_acl_sram_fits_eq box_id bss_size stack_size st Hg Hpos Hbss) as Heq.
  cbv zeta in Heq. rewrite Heq in Hrun by lia. clear Heq.
  injection Hrun as <- <- <-.
  set (e1 := {| start := first_use_pos st;
                end_ := first_use_pos st + rounded_stack_size stack_size;
                config := 0; acl := UVISOR_TACLDEF_STACK |}).
  set (e2 := {| start := first_use_pos st + rounded_stack_size stack_size +
                         UVISOR_STACK_BAND_SIZE;
                end_ := first_use_pos st + rounded_stack_size stack_size +
                        UVISOR_STACK_BAND_SIZE + rounded_bss_size bss_size;
                config := 0; acl := UVISOR_TACLDEF_DATA |}).
  set (st' := set_g_box_mem_pos _ (set_g_mpu_region _ st)).
  assert (Hget : vmpu_region_get_for_box st' box_id = [e1; e2]).
  { erewrite (vmpu_region_get_for_box_added st st' box_id e1 e2 box_id) by reflexivity.
    rewrite Hempty, Z.eqb_refl. reflexivity. }
  assert (Hpushes : switch_pushes box_id st' =
                    (e1, 255) :: map (fun p => (page_region p, 100)) (active_pages (heap st))
                    ++ [(e2, 2)]).
  { unfold switch_pushes. apply Z.eqb_neq in Hbox. rewrite Hbox, Hget.
    cbn [take drop map app]. rewrite ?take_0, ?drop_0, ?app_nil_r. reflexivity. }
  assert (Hcount : length (switch_pushes box_id st') =
                   (2 + length (active_pages (heap st)))%nat).
  { rewrite Hpushes. cbn [length]. rewrite length_app, length_map. cbn. lia. }
  exists (push_list (switch_pushes box_id st') (vmpu_mpu_invalidate st')).
  split.
  - apply vmpu_switch_pushes.
    + rewrite Hcount. exact Hroom.
    + intros _. rewrite Hget. discriminate.
  - rewrite push_list_slots.
    + change (g_mpu_slot (cache (vmpu_mpu_invalidate st')))
        with ARMv8M_SAU_REGIONS_STATIC.
      rewrite Hpushes. cbn [map app].
      rewrite lookup_app_r by (rewrite length_take; lia).
      rewrite length_take.
      replace (ARMv8M_SAU_REGIONS_STATIC -
               Nat.min ARMv8M_SAU_REGIONS_STATIC
                 (length (g_mpu_slots (cache (vmpu_mpu_invalidate st')))))%nat
        with 0%nat; [reflexivity|].
      cbn. rewrite length_app, length_take, length_replicate. lia.
    + change (g_mpu_slot (cache (vmpu_mpu_invalidate st')))
        with ARMv8M_SAU_REGIONS_STATIC.
      rewrite Hcount. exact Hroom.
    + cbn. rewrite length_app, length_take, length_replicate. lia.
Qed.

End Composition.

(** The recovered SecureFault of [secure_fault_state] leaves the public
    region that covers 0x40000100 in slot 4. *)
Lemma vmpu_sys_mux_handler_installs_witness :
  exists r priority,
    g_mpu_slots
      (cache (SAU_write_SFSR 0x48
                (snd (@vmpu_fault_recovery_mpu spec_platform 0 0x20002000 0x40000100 0x48
                        secure_fault_state))))
      !! g_mpu_slot (cache secure_fault_state) = Some (Some (r, priority)) /\
    covers r (SFAR (cpu secure_fault_state)).
Proof.
  apply (@vmpu_sys_mux_handler_installs spec_platform 0xFFFFFFB8 0x20004000
           secure_fault_state 0xFFFFFFB8).
  - vm_compute. lia.
  - reflexivity.
Defined.

Lemma vmpu_fault_find_acl_then_recovery_witness :
  fst (@vmpu_fault_recovery_mpu spec_platform 0 0x20002000 0x40000100 0x48 periph_state)
  = 1.
Proof.
  apply (@vmpu_fault_find_acl_then_recovery spec_platform periph_state 0x40000100 4).
  - simpl. lia.
  - unfold in_periph_bitband. simpl. lia.
  - unfold in_sram_bitband. simpl. lia.
  - vm_compute. discriminate.
Defined.

(** After S1 from a state with the cursor on slot 5, the
    switch to box 1 puts the stack of box 1 into slot 4. *)
Lemma vmpu_acl_sram_then_switch_witness :
  g_mpu_slot (cache s1_pushed_state) = 5%nat /\
  exists st'',
    @vmpu_switch spec_platform 0 1 s1_pushed_state = Some st'' /\
    g_mpu_slots (cache st'') !! 4%nat =
    Some (Some ({| start := 0x20000020; end_ := 0x20000420;
                   config := 0; acl := @UVISOR_TACLDEF_STACK spec_platform |}, 255)).
Proof.
  split; [reflexivity|].
  apply (@vmpu_acl_sram_then_switch spec_platform 0 1 200 1024 pushed_state
           0x20000440 0x20000420 s1_pushed_state).
  - simpl. lia.
  - simpl. lia.
  - vm_compute. reflexivity.
  - reflexivity.
  - lia.
  - reflexivity.
  - reflexivity.
  - vm_compute. lia.
Defined.
